(** * pytorch-ssd: the Open Images dataset loader and the training script

    A shallow embedding of [vision/datasets/open_images.py] and of
    [train_ssd.py].  Python exceptions are values of [PyError] carried by the
    [result] monad; the global state of [numpy.random] is an entropy tape with
    a cursor that is threaded through the code; the epoch loop of the training
    script is a computation over a [Session] (the variables of the script, the
    checkpoint files, the calls made) that keeps the state reached when an
    exception stops it.  Floating-point numbers are modelled by rationals;
    the network, the loss, the parameter update and the schedulers'
    arithmetic are the opaque [Collaborators]. *)

From Stdlib Require Import QArith Qfield Lqa Ascii.
From stdpp Require Import base option list sets gmap strings pretty sorting.

Local Open Scope Z_scope.
Local Open Scope nat_scope.

#[local] Set Warnings "-clear-no-such-hyp".

(** ** Python exceptions and the error monad *)

Inductive PyError : Type :=
  | FileNotFoundError
  | EmptyDataError
  | ParserError
  | KeyError (key : string)
  | IndexError
  | ValueError
  | AttributeError
  | ZeroDivisionError
  | NameError (name : string)
  | CvError
  | RuntimeError
  | SystemExit (code : Z).

Inductive result (A : Type) : Type :=
  | Ok (a : A)
  | Raise (e : PyError).
Arguments Ok {A} a.
Arguments Raise {A} e.

Definition result_bind {A B} (f : A → result B) (r : result A) : result B :=
  match r with
  | Ok a => f a
  | Raise e => Raise e
  end.

#[global] Instance result_mret : MRet result := @Ok.
#[global] Instance result_mbind : MBind result := @result_bind.

Definition raises {A} (r : result A) : Prop := ∃ e, r = Raise e.
Definition returns {A} (r : result A) : Prop := ∃ a, r = Ok a.
Definition is_ok {A} (r : result A) : bool :=
  match r with Ok _ => true | Raise _ => false end.

(** Python sequence indexing [l[i]]: negative indices count from the end. *)
Definition py_index {A} (l : list A) (i : Z) : result A :=
  let n := Z.of_nat (length l) in
  let j := if (i <? 0)%Z then (n + i)%Z else i in
  if ((0 <=? j)%Z && (j <? n)%Z)%bool
  then match l !! Z.to_nat j with Some a => Ok a | None => Raise IndexError end
  else Raise IndexError.

(** Indexing by a non-negative integer. *)
Definition py_get {A} (l : list A) (i : nat) : result A :=
  match l !! i with Some a => Ok a | None => Raise IndexError end.

(** [min(l)] of a list of counts. *)
Definition py_min (l : list nat) : result nat :=
  match l with
  | [] => Raise ValueError
  | x :: l' => Ok (foldl Nat.min x l')
  end.

(** [enumerate(l)] *)
Definition enumerate {A} (l : list A) : list (nat * A) :=
  zip (seq 0 (length l)) l.

(** ** numpy.random *)

(** The generator state: an infinite tape of raw draws and the position of
    the next unread one. *)
Record Rng := { tape : nat → nat; cursor : nat }.

(** [np.random.choice(a, size)] for integers [a] and [size]: [size] draws
    from [range(a)] with replacement.  An empty population is an error unless
    no sample is taken. *)
Definition choice (a size : nat) (g : Rng) : result (list nat * Rng) :=
  if bool_decide (a = 0 ∧ size ≠ 0) then Raise ValueError
  else Ok ((λ j, tape g (cursor g + j) `mod` a) <$> seq 0 size,
           {| tape := tape g; cursor := cursor g + size |}).

(** ** The annotation table *)

Definition Box : Type := Q * Q * Q * Q.

(** One row of the bounding-box CSV.  An [ImageID] cell may be missing
    (pandas reads it as NaN); one that is there is held as the string that
    Python prints for it. *)
Record Row := {
  ImageID : option string;
  ClassName : string;
  XMin : Q; YMin : Q; XMax : Q; YMax : Q
}.

(** A parsed table: the header, and the rows.  A cell of a column that the
    header lacks is never read. *)
Record DataFrame := { df_columns : list string; df_rows : list Row }.

(** What sits at the annotation path. *)
Inductive AnnotationFile :=
  | NoFile
  | EmptyFile
  | BadCsv
  | Csv (df : DataFrame).

(** [pd.read_csv] by its outcome. *)
Definition read_csv (f : AnnotationFile) : result DataFrame :=
  match f with
  | NoFile => Raise FileNotFoundError
  | EmptyFile => Raise EmptyDataError
  | BadCsv => Raise ParserError
  | Csv df => Ok df
  end.

(** [df[name]]: the column must be in the header. *)
Definition require_column (df : DataFrame) (name : string) : result unit :=
  if bool_decide (name ∈ df_columns df) then Ok () else Raise (KeyError name).

(** [Series.unique()]: distinct values in order of first appearance. *)
Fixpoint unique_from (seen : list string) (l : list string) : list string :=
  match l with
  | [] => []
  | x :: l' =>
      if bool_decide (x ∈ seen) then unique_from seen l'
      else x :: unique_from (x :: seen) l'
  end.
Definition unique (l : list string) : list string := unique_from [] l.

(** The order of the keys of [groupby].  A column of which [read_csv] can
    take every cell for a number (digits, with a sign and a fraction or
    without) is a column of numbers, and its keys are sorted by their value;
    the keys of any other column are strings, sorted by their characters. *)
Definition digit_value (c : Ascii.ascii) : option Z :=
  let n := Ascii.nat_of_ascii c in
  if bool_decide (48 ≤ n ∧ n ≤ 57) then Some (Z.of_nat (n - 48)) else None.

(** The number that the digits of [s] around one optional point write:
    [acc] is the value of the digits read, [places] the number of those
    behind the point. *)
Fixpoint digits_value (s : string) (acc : Z) (places : option nat)
    (seen : bool) : option Q :=
  match s with
  | EmptyString =>
      if seen
      then Some (Qmake acc (Z.to_pos (10 ^ Z.of_nat (default 0 places))))
      else None
  | String c s' =>
      if bool_decide (c = "."%char) then
        match places with
        | None => digits_value s' acc (Some 0) seen
        | Some _ => None
        end
      else
        match digit_value c with
        | Some d => digits_value s' (10 * acc + d)%Z (S <$> places) true
        | None => None
        end
  end.

Definition number_of (s : string) : option Q :=
  match s with
  | String "-"%char s' => Qopp <$> digits_value s' 0 None false
  | _ => digits_value s 0 None false
  end.

Definition numeric_keys (rows : list Row) : bool :=
  forallb (λ r, match ImageID r with
                | Some k => bool_decide (is_Some (number_of k))
                | None => true
                end) rows.

Definition key_value (numeric : bool) (k : string) : Q :=
  if numeric then default 0%Q (number_of k) else 0%Q.

(** Keys of the same value are told apart by their characters. *)
Definition key_compare (numeric : bool) (k k' : string) : comparison :=
  match Qcompare (key_value numeric k) (key_value numeric k') with
  | Eq => String.compare k k'
  | c => c
  end.

(** [df.groupby(key)]: groups in increasing key order, rows of a group in
    encounter order, rows without a key dropped. *)
Fixpoint group_insert (numeric : bool) (k : string) (r : Row)
    (gs : list (string * list Row)) : list (string * list Row) :=
  match gs with
  | [] => [(k, [r])]
  | (k', rs) :: gs' =>
      match key_compare numeric k k' with
      | Eq => (k', rs ++ [r]) :: gs'
      | Lt => (k, [r]) :: (k', rs) :: gs'
      | Gt => (k', rs) :: group_insert numeric k r gs'
      end
  end.

Definition group_by_key (numeric : bool) (rows : list Row)
  : list (string * list Row) :=
  foldl (λ gs r, match ImageID r with
                 | Some k => group_insert numeric k r gs
                 | None => gs
                 end) [] rows.

Definition groupby_ImageID (rows : list Row) : list (string * list Row) :=
  group_by_key (numeric_keys rows) rows.

(** ** OpenImagesDataset *)

Record ImageRecord := {
  image_id : string;
  boxes : list Box;
  labels : list nat
}.

(** An image as [cv2] hands it over: an array of shape (height, width,
    channels), here the number of channels and the pixels, each pixel the
    list of its channel values. *)
Record Image := { im_channels : nat; im_pixels : list (list Z) }.

Definition Transform : Type :=
  Image → list Box → list nat → result (Image * list Box * list nat).
Definition TargetTransform : Type :=
  list Box → list nat → result (list Box * list nat).

Record OpenImagesDataset := {
  root : string;
  transform : option Transform;
  target_transform : option TargetTransform;
  dataset_type : string;
  data : list ImageRecord;
  class_names : list string;
  class_dict : gmap string nat;
  balance_data : bool;
  min_image_num : Z
}.

(** The file system as the loader sees it. *)
Record Disk := {
  csv_at : string → AnnotationFile;
  imread : string → option Image
}.

Definition lower_ascii (c : Ascii.ascii) : Ascii.ascii :=
  let n := Ascii.nat_of_ascii c in
  if bool_decide (65 ≤ n ∧ n ≤ 90) then Ascii.ascii_of_nat (n + 32) else c.

Fixpoint lower (s : string) : string :=
  match s with
  | EmptyString => EmptyString
  | String c s' => String (lower_ascii c) (lower s')
  end.

Definition annotation_path (root dataset_type : string) : string :=
  root +:+ "/sub-" +:+ dataset_type +:+ "-annotations-bbox.csv".

Definition image_path (root dataset_type image_id : string) : string :=
  root +:+ "/" +:+ dataset_type +:+ "/" +:+ image_id +:+ ".jpg".

Definition make_class_dict (class_names : list string) : gmap string nat :=
  foldl (λ d p, <[p.2 := p.1 + 1]> d) ∅ (enumerate class_names).

Definition dict_get (d : gmap string nat) (k : string) : result nat :=
  match d !! k with Some v => Ok v | None => Raise (KeyError k) end.

Fixpoint lookup_labels (d : gmap string nat) (names : list string)
  : result (list nat) :=
  match names with
  | [] => Ok []
  | n :: names' =>
      l ← dict_get d n; ls ← lookup_labels d names'; mret (l :: ls)
  end.

Definition box_columns : list string := ["XMin"; "YMin"; "XMax"; "YMax"].

Definition row_box (r : Row) : Box := (XMin r, YMin r, XMax r, YMax r).

Fixpoint require_columns (df : DataFrame) (names : list string) : result unit :=
  match names with
  | [] => Ok ()
  | n :: names' => _ ← require_column df n; require_columns df names'
  end.

(** The body of the loop over the groups in [_read_data]. *)
Fixpoint read_groups (df : DataFrame) (d : gmap string nat)
    (groups : list (string * list Row)) : result (list ImageRecord) :=
  match groups with
  | [] => Ok []
  | (id, rows) :: groups' =>
      _ ← require_columns df box_columns;
      ls ← lookup_labels d (ClassName <$> rows);
      rest ← read_groups df d groups';
      mret ({| image_id := id; boxes := row_box <$> rows; labels := ls |} :: rest)
  end.

Definition _read_data (disk : Disk) (root dataset_type : string)
  : result (list ImageRecord * list string * gmap string nat) :=
  annotations ← read_csv (csv_at disk (annotation_path root dataset_type));
  _ ← require_column annotations "ClassName";
  let class_names := unique (ClassName <$> df_rows annotations) in
  let class_dict := make_class_dict class_names in
  _ ← require_column annotations "ImageID";
  data ← read_groups annotations class_dict (groupby_ImageID (df_rows annotations));
  mret (data, class_names, class_dict).

(** [label_image_indexes[label_id].add(i)] for each label of one image. *)
Fixpoint add_image_labels (i : nat) (ls : list nat) (lii : list (gset nat))
  : result (list (gset nat)) :=
  match ls with
  | [] => Ok lii
  | label_id :: ls' =>
      s ← py_get lii label_id;
      add_image_labels i ls' (<[label_id := s ∪ {[i]}]> lii)
  end.

(** The loop over [enumerate(self.data)]. *)
Fixpoint index_labels (images : list (nat * ImageRecord)) (lii : list (gset nat))
  : result (list (gset nat)) :=
  match images with
  | [] => Ok lii
  | (i, image) :: images' =>
      lii' ← add_image_labels i (labels image) lii;
      index_labels images' lii'
  end.

(** The inner loop [for i in choice: sample_image_indexes.add(image_indexes[i])]. *)
Fixpoint add_choices (image_indexes : list nat) (chosen : list nat)
    (sample : gset nat) : result (gset nat) :=
  match chosen with
  | [] => Ok sample
  | i :: chosen' =>
      x ← py_get image_indexes i;
      add_choices image_indexes chosen' (sample ∪ {[x]})
  end.

(** The loop over [label_image_indexes[1:]]. *)
Fixpoint sample_classes (per_class : list (gset nat)) (min_image_num : nat)
    (sample : gset nat) (g : Rng) : result (gset nat * Rng) :=
  match per_class with
  | [] => Ok (sample, g)
  | s :: per_class' =>
      let image_indexes := elements s in
      '(chosen, g') ← choice (length image_indexes) min_image_num g;
      sample' ← add_choices image_indexes chosen sample;
      sample_classes per_class' min_image_num sample' g'
  end.

Fixpoint collect_images (data : list ImageRecord) (idx : list nat)
  : result (list ImageRecord) :=
  match idx with
  | [] => Ok []
  | i :: idx' =>
      x ← py_get data i; rest ← collect_images data idx'; mret (x :: rest)
  end.

(** [_balance_data]: returns the new [min_image_num] and the sampled data.
    The sampled positions are a Python [set]; the order in which it is
    iterated is not specified, and [elements] stands for it. *)
Definition _balance_data (class_names : list string) (data : list ImageRecord)
    (g : Rng) : result (nat * list ImageRecord * Rng) :=
  let label_image_indexes := replicate (length class_names + 1) (∅ : gset nat) in
  label_image_indexes ← index_labels (enumerate data) label_image_indexes;
  let label_stat := size <$> label_image_indexes in
  min_image_num ← py_min (drop 1 label_stat);
  '(sample_image_indexes, g') ←
     sample_classes (drop 1 label_image_indexes) min_image_num ∅ g;
  sample_data ← collect_images data (elements sample_image_indexes);
  mret (min_image_num, sample_data, g').

(** [__init__] *)
Definition new_dataset (disk : Disk) (g : Rng) (root : string)
    (transform : option Transform) (target_transform : option TargetTransform)
    (dataset_type : string) (balance_data : bool)
  : result (OpenImagesDataset * Rng) :=
  let dataset_type := lower dataset_type in
  '(data, class_names, class_dict) ← _read_data disk root dataset_type;
  '(min_image_num, data, g') ←
     (if balance_data
      then '(m, d, g') ← _balance_data class_names data g;
           mret (Z.of_nat m, d, g')
      else mret ((-1)%Z, data, g));
  mret ({| root := root; transform := transform;
           target_transform := target_transform;
           dataset_type := dataset_type;
           data := data; class_names := class_names;
           class_dict := class_dict; balance_data := balance_data;
           min_image_num := min_image_num |}, g').

(** [__len__] *)
Definition dataset_len (ds : OpenImagesDataset) : nat := length (data ds).

(** [cv2.cvtColor]: grey to RGB repeats the one channel; BGR to RGB swaps
    the first and third of three or four channels. *)
Inductive ColorCode := COLOR_GRAY2RGB | COLOR_BGR2RGB.

Definition cvtColor (im : Image) (code : ColorCode) : result Image :=
  match code with
  | COLOR_GRAY2RGB =>
      if bool_decide (im_channels im = 1)
      then Ok {| im_channels := 3;
                 im_pixels := (λ p, p ++ p ++ p) <$> im_pixels im |}
      else Raise CvError
  | COLOR_BGR2RGB =>
      if bool_decide (im_channels im = 3 ∨ im_channels im = 4)
      then Ok {| im_channels := 3;
                 im_pixels := (λ p, reverse (take 3 p)) <$> im_pixels im |}
      else Raise CvError
  end.

(** [_read_image]: [cv2.imread] gives [None] for a file that is missing or
    cannot be decoded, and [None] has no [shape]. *)
Definition _read_image (disk : Disk) (ds : OpenImagesDataset) (image_id : string)
  : result Image :=
  let image_file := image_path (root ds) (dataset_type ds) image_id in
  match imread disk image_file with
  | None => Raise AttributeError
  | Some image =>
      if bool_decide (im_channels image = 1)
      then cvtColor image COLOR_GRAY2RGB
      else cvtColor image COLOR_BGR2RGB
  end.

(** [__getitem__] *)
Definition getitem (disk : Disk) (ds : OpenImagesDataset) (index : Z)
  : result (Image * list Box * list nat) :=
  image_info ← py_index (data ds) index;
  image ← _read_image disk ds (image_id image_info);
  let boxes := boxes image_info in
  let labels := labels image_info in
  '(image, boxes, labels) ←
     match transform ds with
     | Some t => t image boxes labels
     | None => mret (image, boxes, labels)
     end;
  '(boxes, labels) ←
     match target_transform ds with
     | Some t => t boxes labels
     | None => mret (boxes, labels)
     end;
  mret (image, boxes, labels).

(** The number of images of [data] with at least one box of class [c]. *)
Definition has_class (c : nat) (image : ImageRecord) : bool :=
  bool_decide (c ∈ labels image).
Definition images_with_class (c : nat) (data : list ImageRecord) : nat :=
  length (filter (λ image, has_class c image = true) data).

(** The least [images_with_class] over the classes [1..N], if there is one. *)
Definition min_class_count (N : nat) (data : list ImageRecord) : result nat :=
  py_min ((λ c, images_with_class c data) <$> seq 1 N).

(** ** Scenario of the specification: two images, three classes. *)
Module Scenario.
Definition unit_box : Box := (0, 0, 1, 1)%Q.
Definition row (id cls : string) : Row :=
  {| ImageID := Some id; ClassName := cls;
     XMin := 0; YMin := 0; XMax := 1; YMax := 1 |}.
Definition header : list string :=
  ["ImageID"; "ClassName"; "XMin"; "YMin"; "XMax"; "YMax"].
Definition table : DataFrame :=
  {| df_columns := header;
     df_rows := [row "img0" "A"; row "img0" "B"; row "img1" "A"; row "img1" "C"] |}.
Definition disk : Disk :=
  {| csv_at := λ p, if bool_decide (p = "data/sub-train-annotations-bbox.csv")
                    then Csv table else NoFile;
     imread := λ _, None |}.
Definition zeros : Rng := {| tape := λ _, 0; cursor := 0 |}.

Definition names : list string := ["A"; "B"; "C"].
Definition img0 : ImageRecord :=
  {| image_id := "img0"; boxes := [unit_box; unit_box]; labels := [1; 2] |}.
Definition img1 : ImageRecord :=
  {| image_id := "img1"; boxes := [unit_box; unit_box]; labels := [1; 3] |}.
Definition images : list ImageRecord := [img0; img1].
Definition dataset : OpenImagesDataset := {|
  root := "data"; transform := None; target_transform := None;
  dataset_type := "train"; data := images; class_names := names;
  class_dict := make_class_dict names; balance_data := false;
  min_image_num := (-1)%Z |}.

(** An annotation file with its header and no row. *)
Definition header_only : DataFrame := {| df_columns := header; df_rows := [] |}.
Definition disk_header_only : Disk :=
  {| csv_at := λ _, Csv header_only; imread := λ _, None |}.

(** An annotation file with a row whose [ImageID] cell is missing: class B
    is in the vocabulary and in no image. *)
Definition table_orphan : DataFrame :=
  {| df_columns := header;
     df_rows := [row "img0" "A";
                 {| ImageID := None; ClassName := "B";
                    XMin := 0; YMin := 0; XMax := 1; YMax := 1 |}] |}.
Definition disk_orphan : Disk :=
  {| csv_at := λ _, Csv table_orphan; imread := λ _, None |}.

(** Three classes, the third without an image. *)
Definition sparse_images : list ImageRecord :=
  [ {| image_id := "img0"; boxes := [unit_box; unit_box]; labels := [1; 2] |};
    {| image_id := "img1"; boxes := [unit_box]; labels := [1] |} ].
(** A disk on which every image file holds one blue pixel. *)
Definition blue : Image := {| im_channels := 3; im_pixels := [[255; 0; 0]%Z] |}.
Definition disk_blue : Disk :=
  {| csv_at := csv_at disk; imread := λ _, Some blue |}.


(** Two dataset directories: [a] with the classes of [table], [b] with the
    one class Z, for training and for testing. *)
Definition table_small : DataFrame :=
  {| df_columns := header; df_rows := [row "i9" "Z"] |}.
Definition disk_two : Disk :=
  {| csv_at := λ p,
       if bool_decide (p = "a/sub-train-annotations-bbox.csv") then Csv table
       else if bool_decide (p ∈ ["b/sub-train-annotations-bbox.csv";
                                 "b/sub-test-annotations-bbox.csv"])
            then Csv table_small
       else NoFile;
     imread := λ _, None |}.
Definition keep : Transform := λ im boxes labels, Ok (im, boxes, labels).
Definition keep_target : TargetTransform := λ boxes labels, Ok (boxes, labels).
Definition no_voc
  : string → option Transform → option TargetTransform → bool → result unit :=
  λ _ _ _ _, Raise RuntimeError.

End Scenario.

(** ** train_ssd.py: configuration *)

(** The options as given on the command line: [None] (or [false] for a
    flag) where the option is absent. *)
Record CommandLine := {
  cl_net : option string;
  cl_freeze_base_net : bool;
  cl_freeze_net : bool;
  cl_base_net : option string;
  cl_pretrained_ssd : option string;
  cl_resume : option string;
  cl_lr : option Q;
  cl_momentum : option Q;
  cl_weight_decay : option Q;
  cl_base_net_lr : option Q;
  cl_extra_layers_lr : option Q;
  cl_scheduler : option string;
  cl_milestones : option string;
  cl_t_max : option Q;
  cl_patience : option Z;
  cl_num_epochs : option Z;
  cl_validation_epochs : option Z;
  cl_checkpoint_epochs : option Z;
  cl_debug_steps : option Z;
  cl_checkpoint_folder : option string
}.

(** The namespace [args]. *)
Record Args := {
  net : string;
  freeze_base_net : bool;
  freeze_net : bool;
  base_net : option string;
  pretrained_ssd : option string;
  resume : option string;
  lr : Q;
  momentum : Q;
  weight_decay : Q;
  base_net_lr : option Q;
  extra_layers_lr : option Q;
  scheduler : string;
  milestones : string;
  t_max : Q;
  patience : Z;
  num_epochs : Z;
  validation_epochs : Z;
  checkpoint_epochs : Z;
  debug_steps : Z;
  checkpoint_folder : string
}.

(** [parser.parse_args()]: each absent option takes the [default] of its
    [add_argument]. *)
Definition parse_args (cl : CommandLine) : Args := {|
  net := default "mb1-ssd" (cl_net cl);
  freeze_base_net := cl_freeze_base_net cl;
  freeze_net := cl_freeze_net cl;
  base_net := cl_base_net cl;
  pretrained_ssd :=
    Some (default "models/mobilenet-v1-ssd-mp-0_675.pth" (cl_pretrained_ssd cl));
  resume := cl_resume cl;
  lr := default (1 # 100)%Q (cl_lr cl);
  momentum := default (9 # 10)%Q (cl_momentum cl);
  weight_decay := default (5 # 10000)%Q (cl_weight_decay cl);
  base_net_lr := Some (default (1 # 1000)%Q (cl_base_net_lr cl));
  extra_layers_lr := cl_extra_layers_lr cl;
  scheduler := default "cosine" (cl_scheduler cl);
  milestones := default "80,100" (cl_milestones cl);
  t_max := default 100%Q (cl_t_max cl);
  patience := default 10%Z (cl_patience cl);
  num_epochs := default 30%Z (cl_num_epochs cl);
  validation_epochs := default 1%Z (cl_validation_epochs cl);
  checkpoint_epochs := default 1%Z (cl_checkpoint_epochs cl);
  debug_steps := default 10%Z (cl_debug_steps cl);
  checkpoint_folder := default "models/" (cl_checkpoint_folder cl)
|}.

(** Truth value of an optional string: [None] and the empty string are false. *)
Definition truthy (s : option string) : option string :=
  match s with
  | Some "" => None
  | _ => s
  end.

(** ** The network, the optimizer and the checkpoint files *)

Inductive NetPart :=
  | part_base_net
  | part_source_layer_add_ons
  | part_extras
  | part_regression_headers
  | part_classification_headers.

#[global] Instance NetPart_eq_dec : EqDecision NetPart.
Proof. solve_decision. Defined.

(** One entry of [optimizer.param_groups]. *)
Record ParamGroup := {
  pg_params : list NetPart;
  pg_lr : Q;
  pg_momentum : Q;
  pg_weight_decay : Q;
  pg_initial_lr : option Q
}.

(** The first argument of the optimizer: an iterator over parameters, or a
    list of groups, each with its own ['lr'] or none. *)
Inductive Params :=
  | ParamIter (parts : list NetPart)
  | ParamDicts (groups : list (list NetPart * option Q)).

Inductive PyVal := PyNone | PyInt (n : Z) | PyFloat (q : Q).

Inductive Scheduler :=
  | MultiStepLR (ms : list Z) (gamma : Q) (last_epoch : Z)
  | CosineAnnealingLR (T_max : Q) (last_epoch : Z)
  | ReduceLROnPlateau (patience : Z).

(** The parts of the program this development keeps opaque: the network
    with its loss, the parameter update, the schedulers' arithmetic, and the
    printing of a float. *)
Class Collaborators := {
  Weights : Type;
  OptBuf : Type;
  Batch : Type;
  create_net : string → nat → Weights;
  compatible : Weights → Weights → bool;
  overlay_base_net : Weights → Weights → Weights;
  overlay_pretrained : Weights → Weights → Weights;
  no_buf : OptBuf;
  forward_loss : Weights → Batch → Q * Q;
  sgd_step : list ParamGroup → list NetPart → Weights → OptBuf → Batch
             → Weights * OptBuf;
  num_parameters : NetPart → nat;
  parse_milestones : string → result (list Z);
  scheduler_step : Scheduler → PyVal → list ParamGroup
                   → Scheduler * list ParamGroup;
  float_repr : Q → string
}.

Section Training.
Context `{C : Collaborators}.

Record Optimizer := {
  param_groups : list ParamGroup;
  opt_state : OptBuf
}.

Record Checkpoint := {
  model_state_dict : Weights;
  optimizer_state_dict : Optimizer;
  training_epoch : Z
}.

(** A [.pth] file: a checkpoint of this script, or bare weights. *)
Inductive PthFile :=
  | FullCheckpoint (c : Checkpoint)
  | StateDict (w : Weights).

Record Net := {
  arch : string;
  weights : Weights;
  frozen : list NetPart
}.

(** [get_current_lr]: the rate of the first group. *)
Definition get_current_lr (optimizer : Optimizer) : option Q :=
  match param_groups optimizer with
  | g :: _ => Some (pg_lr g)
  | [] => None
  end.

(** *** [train] *)

Record TrainLoop := {
  running_loss : Q;
  running_regression_loss : Q;
  running_classification_loss : Q;
  epoch_loss : Q;
  epoch_regression_loss : Q;
  epoch_classification_loss : Q;
  epoch_steps : nat;
  tl_weights : Weights;
  tl_opt_state : OptBuf;
  (** the progress lines: step, and the three short-window averages *)
  tl_progress : list (nat * Q * Q * Q)
}.

Definition Q_of_Z (z : Z) : Q := inject_Z z.
Definition Q_of_nat (n : nat) : Q := inject_Z (Z.of_nat n).

(** The body of [for i, data in enumerate(loader)]. *)
Definition train_step (groups : list ParamGroup) (frz : list NetPart)
    (debug_steps : Z) (st : TrainLoop) (i : nat) (data : Batch)
  : result TrainLoop :=
  let '(regression_loss, classification_loss) := forward_loss (tl_weights st) data in
  let loss := (regression_loss + classification_loss)%Q in
  let '(w, buf) := sgd_step groups frz (tl_weights st) (tl_opt_state st) data in
  let st := {|
    running_loss := (running_loss st + loss)%Q;
    running_regression_loss := (running_regression_loss st + regression_loss)%Q;
    running_classification_loss :=
      (running_classification_loss st + classification_loss)%Q;
    epoch_loss := (epoch_loss st + loss)%Q;
    epoch_regression_loss := (epoch_regression_loss st + regression_loss)%Q;
    epoch_classification_loss :=
      (epoch_classification_loss st + classification_loss)%Q;
    epoch_steps := epoch_steps st + 1;
    tl_weights := w;
    tl_opt_state := buf;
    tl_progress := tl_progress st |} in
  if bool_decide (i = 0) then Ok st
  else if bool_decide (debug_steps = 0%Z) then Raise ZeroDivisionError
  else if bool_decide ((Z.of_nat i `mod` debug_steps)%Z = 0%Z) then
    let avg_loss := (running_loss st / Q_of_Z debug_steps)%Q in
    let avg_reg_loss := (running_regression_loss st / Q_of_Z debug_steps)%Q in
    let avg_clf_loss := (running_classification_loss st / Q_of_Z debug_steps)%Q in
    Ok {|
      running_loss := 0;
      running_regression_loss := 0;
      running_classification_loss := 0;
      epoch_loss := epoch_loss st;
      epoch_regression_loss := epoch_regression_loss st;
      epoch_classification_loss := epoch_classification_loss st;
      epoch_steps := epoch_steps st;
      tl_weights := tl_weights st;
      tl_opt_state := tl_opt_state st;
      tl_progress := tl_progress st ++ [(i, avg_loss, avg_reg_loss, avg_clf_loss)] |}
  else Ok st.

Fixpoint train_steps (groups : list ParamGroup) (frz : list NetPart)
    (debug_steps : Z) (st : TrainLoop) (batches : list (nat * Batch))
  : result TrainLoop :=
  match batches with
  | [] => Ok st
  | (i, data) :: batches' =>
      st' ← train_step groups frz debug_steps st i data;
      train_steps groups frz debug_steps st' batches'
  end.

(** [float / int] *)
Definition py_div (x : Q) (n : Z) : result Q :=
  if bool_decide (n = 0%Z) then Raise ZeroDivisionError
  else Ok (x / Q_of_Z n)%Q.

Record TrainResult := {
  tr_losses : Q * Q * Q;
  tr_weights : Weights;
  tr_opt_state : OptBuf;
  tr_progress : list (nat * Q * Q * Q)
}.

(** [loader] stands for the batches that the [DataLoader] yields in this
    pass, one after the other; a pass in which reading a batch, the network
    or the loss raises is outside this model. *)
Definition train (loader : list Batch) (net : Net) (optimizer : Optimizer)
    (debug_steps : Z) : result TrainResult :=
  let st0 := {|
    running_loss := 0; running_regression_loss := 0;
    running_classification_loss := 0;
    epoch_loss := 0; epoch_regression_loss := 0;
    epoch_classification_loss := 0;
    epoch_steps := 0;
    tl_weights := weights net;
    tl_opt_state := opt_state optimizer;
    tl_progress := [] |} in
  st ← train_steps (param_groups optimizer) (frozen net) debug_steps st0
        (enumerate loader);
  let len_loader := Z.of_nat (length loader) in
  epoch_loss ← py_div (epoch_loss st) len_loader;
  epoch_regression_loss ← py_div (epoch_regression_loss st) len_loader;
  epoch_classification_loss ← py_div (epoch_classification_loss st) len_loader;
  mret {| tr_losses := (epoch_loss, epoch_regression_loss, epoch_classification_loss);
          tr_weights := tl_weights st;
          tr_opt_state := tl_opt_state st;
          tr_progress := tl_progress st |}.

(** *** [test] *)

Definition test_step (w : Weights) (acc : Q * Q * Q * Z) (data : Batch)
  : Q * Q * Q * Z :=
  let '(running_loss, running_regression_loss, running_classification_loss, num) := acc in
  let num := (num + 1)%Z in
  let '(regression_loss, classification_loss) := forward_loss w data in
  let loss := (regression_loss + classification_loss)%Q in
  ((running_loss + loss)%Q,
   (running_regression_loss + regression_loss)%Q,
   (running_classification_loss + classification_loss)%Q, num).

Definition test (loader : list Batch) (net : Net) : result (Q * Q * Q) :=
  let '(running_loss, running_regression_loss, running_classification_loss, num) :=
    foldl (test_step (weights net)) (0%Q, 0%Q, 0%Q, 0%Z) loader in
  a ← py_div running_loss num;
  b ← py_div running_regression_loss num;
  c ← py_div running_classification_loss num;
  mret (a, b, c).

(** *** Start of the script: network, parameter groups, optimizer, resume *)

(** What the script finds when it starts: the time, the outcome of the
    preparation of the datasets (the number of classes), and the batches the
    two loaders yield (the training loader reshuffles for every pass). *)
Record Env := {
  start_time : string;
  prepare_data : result nat;
  train_loader : Z → list Batch;
  val_loader : list Batch
}.

Definition known_nets : list string :=
  ["vgg16-ssd"; "mb1-ssd"; "mb1-ssd-lite"; "sq-ssd-lite"; "mb2-ssd-lite"].

Definition select_net (a : Args) : result unit :=
  if bool_decide (net a ∈ known_nets) then Ok () else Raise (SystemExit 1).

Definition extra_parts : list NetPart := [part_source_layer_add_ons; part_extras].
Definition head_parts : list NetPart :=
  [part_regression_headers; part_classification_headers].

(** The [if args.freeze_base_net / elif args.freeze_net / else] chain: the
    parts frozen and the argument [params] of the optimizer. *)
Definition freeze_policy (a : Args) (base_net_lr extra_layers_lr : Q)
  : list NetPart * Params :=
  if freeze_base_net a then
    ([part_base_net],
     ParamDicts [(extra_parts, Some extra_layers_lr); (head_parts, None)])
  else if freeze_net a then
    ([part_base_net; part_source_layer_add_ons; part_extras],
     ParamIter head_parts)
  else
    ([],
     ParamDicts [([part_base_net], Some base_net_lr);
                 (extra_parts, Some extra_layers_lr);
                 (head_parts, None)]).

Definition parts_size (parts : list NetPart) : nat :=
  sum_list (num_parameters <$> parts).

(** [torch.optim.SGD(params, lr, momentum, weight_decay)]: an iterator makes
    one group; a list of dicts one group each, with the defaults filled in. *)
Definition SGD (params : Params) (lr momentum weight_decay : Q)
  : result Optimizer :=
  let group (parts : list NetPart) (own_lr : option Q) := {|
    pg_params := parts; pg_lr := default lr own_lr;
    pg_momentum := momentum; pg_weight_decay := weight_decay;
    pg_initial_lr := None |} in
  match params with
  | ParamIter parts =>
      if bool_decide (parts_size parts = 0) then Raise ValueError
      else Ok {| param_groups := [group parts None]; opt_state := no_buf |}
  | ParamDicts [] => Raise ValueError
  | ParamDicts gs =>
      Ok {| param_groups := (λ g, group g.1 g.2) <$> gs; opt_state := no_buf |}
  end.

(** [optimizer.load_state_dict]: the saved groups must match the current ones
    in number and in size; their options replace the current ones. *)
Definition load_state_dict (optimizer saved : Optimizer) : result Optimizer :=
  let groups := param_groups optimizer in
  let saved_groups := param_groups saved in
  if bool_decide (length groups ≠ length saved_groups) then Raise ValueError
  else if bool_decide ((parts_size ∘ pg_params) <$> groups
                       ≠ (parts_size ∘ pg_params) <$> saved_groups)
  then Raise ValueError
  else Ok {| param_groups :=
               zip_with (λ g sg, {| pg_params := pg_params g;
                                    pg_lr := pg_lr sg;
                                    pg_momentum := pg_momentum sg;
                                    pg_weight_decay := pg_weight_decay sg;
                                    pg_initial_lr := pg_initial_lr sg |})
                        groups saved_groups;
             opt_state := opt_state saved |}.

Definition torch_load (files : gmap string PthFile) (path : string)
  : result PthFile :=
  match files !! path with
  | Some f => Ok f
  | None => Raise FileNotFoundError
  end.

Definition checkpoint_of (key : string) (f : PthFile) : result Checkpoint :=
  match f with
  | FullCheckpoint c => Ok c
  | StateDict _ => Raise (KeyError key)
  end.

Definition weights_of (f : PthFile) : Weights :=
  match f with
  | FullCheckpoint c => model_state_dict c
  | StateDict w => w
  end.

Definition with_weights (n : Net) (w : Weights) : Net :=
  {| arch := arch n; weights := w; frozen := frozen n |}.

(** Modelled from the spec: [net.load] of vision/ssd/ssd.py, which is not
    among the sources.  It takes the model weights of a checkpoint file and
    fails if the file is missing or does not fit the architecture. *)
Definition net_load (files : gmap string PthFile) (n : Net) (path : string)
  : result Net :=
  f ← torch_load files path;
  c ← checkpoint_of "model_state_dict" f;
  if compatible (weights n) (model_state_dict c)
  then Ok (with_weights n (model_state_dict c))
  else Raise RuntimeError.

(** Modelled from the spec: [net.init_from_base_net], not among the sources:
    only the backbone weights come from the file. *)
Definition net_init_from_base_net (files : gmap string PthFile) (n : Net)
    (path : string) : result Net :=
  f ← torch_load files path;
  if compatible (weights n) (overlay_base_net (weights n) (weights_of f))
  then Ok (with_weights n (overlay_base_net (weights n) (weights_of f)))
  else Raise RuntimeError.

(** Modelled from the spec: [net.init_from_pretrained_ssd], not among the
    sources: the weights of a trained SSD, without optimizer state or epoch. *)
Definition net_init_from_pretrained_ssd (files : gmap string PthFile) (n : Net)
    (path : string) : result Net :=
  f ← torch_load files path;
  if compatible (weights n) (overlay_pretrained (weights n) (weights_of f))
  then Ok (with_weights n (overlay_pretrained (weights n) (weights_of f)))
  else Raise RuntimeError.

(** Modelled from the spec: [net.save(model_path, optimizer, epoch)], not
    among the sources: weights, optimizer state and epoch in one file. *)
Definition net_save (files : gmap string PthFile) (n : Net) (model_path : string)
    (optimizer : Optimizer) (epoch : Z) : gmap string PthFile :=
  <[model_path := FullCheckpoint {| model_state_dict := weights n;
                                    optimizer_state_dict := optimizer;
                                    training_epoch := epoch |}]> files.

(** [optimizer.param_groups[i]['lr']] *)
Definition group_lr (optimizer : Optimizer) (i : nat) : result Q :=
  g ← py_get (param_groups optimizer) i; mret (pg_lr g).

(** The epoch-based schedulers record ['initial_lr'] in every group when
    they start from scratch and demand it when they resume. *)
Definition scheduler_groups (last_epoch : Z) (groups : list ParamGroup)
  : result (list ParamGroup) :=
  if bool_decide (last_epoch = (-1)%Z) then
    Ok ((λ g, {| pg_params := pg_params g; pg_lr := pg_lr g;
                 pg_momentum := pg_momentum g;
                 pg_weight_decay := pg_weight_decay g;
                 pg_initial_lr := Some (default (pg_lr g) (pg_initial_lr g)) |})
        <$> groups)
  else if bool_decide (Forall (λ g, is_Some (pg_initial_lr g)) groups)
  then Ok groups
  else Raise (KeyError "initial_lr").

Definition with_groups (o : Optimizer) (groups : list ParamGroup) : Optimizer :=
  {| param_groups := groups; opt_state := opt_state o |}.

(** The constructor of an epoch-based scheduler ends with a call of its own
    [step()], which writes a rate into every group of the optimizer. *)
Definition initial_step (sch : Scheduler) (optimizer : Optimizer)
  : Scheduler * Optimizer :=
  let '(sch, groups) := scheduler_step sch PyNone (param_groups optimizer) in
  (sch, with_groups optimizer groups).

(** The choice of the learning-rate policy.  [ReduceLROnPlateau] takes no
    step when it is made and leaves the groups alone. *)
Definition make_scheduler (a : Args) (optimizer : Optimizer) (last_epoch : Z)
  : result (Scheduler * Optimizer) :=
  if bool_decide (scheduler a = "multi-step") then
    ms ← parse_milestones (milestones a);
    gs ← scheduler_groups last_epoch (param_groups optimizer);
    mret (initial_step (MultiStepLR ms (1 # 10)%Q last_epoch)
            (with_groups optimizer gs))
  else if bool_decide (scheduler a = "cosine") then
    gs ← scheduler_groups last_epoch (param_groups optimizer);
    mret (initial_step (CosineAnnealingLR (t_max a) last_epoch)
            (with_groups optimizer gs))
  else if bool_decide (scheduler a = "reduce-on-plateau") then
    mret (ReduceLROnPlateau (patience a), optimizer)
  else Raise (SystemExit 1).

(** Lines 307 to 342: the two rates with their fallback, then the groups. *)
Definition optimizer_params (a : Args) : list NetPart * Params :=
  let base_net_lr := default (lr a) (base_net_lr a) in
  let extra_layers_lr := default (lr a) (extra_layers_lr a) in
  freeze_policy a base_net_lr extra_layers_lr.

(** Line 363 *)
Definition new_optimizer (a : Args) : result Optimizer :=
  SGD (optimizer_params a).2 (lr a) (momentum a) (weight_decay a).

(** The rate of the group that holds the parameters of [part]. *)
Definition lr_of_part (o : Optimizer) (part : NetPart) : option Q :=
  (λ g, pg_lr g.2) <$> list_find (λ g, part ∈ pg_params g) (param_groups o).

(** The state the epoch loop works on: the local variables of the script
    that the loop reads or rebinds, the checkpoint files, the report, and
    the calls to the scheduler. *)
Record Session := {
  s_net : Net;
  s_optimizer : Optimizer;
  s_scheduler : Scheduler;
  s_last_epoch : Z;
  s_r_epoch : Z;
  s_model_path : option string;
  s_files : gmap string PthFile;
  s_report : list (Z * option Q * (Q * Q * Q) * (Q * Q * Q));
  s_saved : list (string * Z);
  s_scheduler_calls : list (Z * PyVal)
}.

(** Lines 299 to 369: the network with its initial weights, the optimizer,
    and what a resume restores: the optimizer state and the epoch counter. *)
Definition load_and_optimize (a : Args) (env : Env) (files : gmap string PthFile)
  : result (Net * Optimizer * Z * Z) :=
  num_classes ← prepare_data env;
  let the_net := {| arch := net a; weights := create_net (net a) num_classes;
                    frozen := (optimizer_params a).1 |} in
  the_net ←
    match truthy (resume a), truthy (base_net a), truthy (pretrained_ssd a) with
    | Some path, _, _ => net_load files the_net path
    | None, Some path, _ => net_init_from_base_net files the_net path
    | None, None, Some path => net_init_from_pretrained_ssd files the_net path
    | None, None, None => Ok the_net
    end;
  optimizer ← new_optimizer a;
  match truthy (resume a) with
  | Some path =>
      f ← torch_load files path;
      c ← checkpoint_of "optimizer_state_dict" f;
      optimizer ← load_state_dict optimizer (optimizer_state_dict c);
      f ← torch_load files path;
      c ← checkpoint_of "training_epoch" f;
      mret (the_net, optimizer, training_epoch c, training_epoch c)
  | None => mret (the_net, optimizer, 0%Z, (-1)%Z)
  end.

(** Lines 405 to 428: the three rates read for the log line, then the
    scheduler. *)
Definition report_rates_and_schedule (a : Args) (files : gmap string PthFile)
    (loaded : Net * Optimizer * Z * Z) : result Session :=
  let '(the_net, optimizer, r_epoch, last_epoch) := loaded in
  o_lr ← group_lr optimizer 2;
  o_b_lr ← group_lr optimizer 0;
  o_el_lr ← group_lr optimizer 1;
  '(the_scheduler, optimizer) ← make_scheduler a optimizer last_epoch;
  mret {| s_net := the_net; s_optimizer := optimizer;
          s_scheduler := the_scheduler;
          s_last_epoch := last_epoch; s_r_epoch := r_epoch;
          s_model_path := None; s_files := files; s_report := [];
          s_saved := []; s_scheduler_calls := [] |}.

(** The script from the choice of the architecture to the choice of the
    scheduler. *)
Definition startup (a : Args) (env : Env) (files : gmap string PthFile)
  : result Session :=
  _ ← select_net a;
  loaded ← load_and_optimize a env files;
  report_rates_and_schedule a files loaded.

(** *** The epoch loop *)

(** Computations over the session that keep the state reached when an
    exception stops them. *)
Definition Run (A : Type) : Type := Session → result A * Session.

Definition run_ret {A} (a : A) : Run A := λ s, (Ok a, s).
Definition run_bind {A B} (f : A → Run B) (m : Run A) : Run B :=
  λ s, match m s with
       | (Ok a, s') => f a s'
       | (Raise e, s') => (Raise e, s')
       end.
#[global] Instance Run_mret : MRet Run := @run_ret.
#[global] Instance Run_mbind : MBind Run := @run_bind.

Definition lift {A} (r : result A) : Run A := λ s, (r, s).
Definition get : Run Session := λ s, (Ok s, s).
Definition modify (f : Session → Session) : Run unit := λ s, (Ok (), f s).

Fixpoint ends_with_slash (s : string) : bool :=
  match s with
  | EmptyString => false
  | String c EmptyString => bool_decide (c = "/"%char)
  | String _ s' => ends_with_slash s'
  end.

(** [os.path.join] of a folder and a relative file name. *)
Definition path_join (folder name : string) : string :=
  if bool_decide (folder = "") then name
  else if ends_with_slash folder then folder +:+ name
  else folder +:+ "/" +:+ name.

Definition show_val (v : PyVal) : string :=
  match v with
  | PyNone => "None"
  | PyInt n => pretty n
  | PyFloat q => float_repr q
  end.

(** The checkpoint file name of line 454. *)
Definition checkpoint_name (a : Args) (env : Env) (epoch : Z) (val_loss : PyVal)
  : string :=
  path_join (checkpoint_folder a)
    (start_time env +:+ "_" +:+ net a +:+ "-Epoch-" +:+ pretty epoch
     +:+ "-Loss-" +:+ show_val val_loss +:+ ".pth").

(** [epoch % every == 0 or epoch == args.num_epochs - 1] *)
Definition interval_hit (epoch every num_epochs : Z) : result bool :=
  if bool_decide (every = 0%Z) then Raise ZeroDivisionError
  else Ok (bool_decide ((epoch `mod` every)%Z = 0%Z)
           || bool_decide (epoch = (num_epochs - 1)%Z)).

Definition after_train (tr : TrainResult) (s : Session) : Session :=
  {| s_net := with_weights (s_net s) (tr_weights tr);
     s_optimizer := {| param_groups := param_groups (s_optimizer s);
                       opt_state := tr_opt_state tr |};
     s_scheduler := s_scheduler s; s_last_epoch := s_last_epoch s;
     s_r_epoch := s_r_epoch s; s_model_path := s_model_path s;
     s_files := s_files s; s_report := s_report s; s_saved := s_saved s;
     s_scheduler_calls := s_scheduler_calls s |}.

Definition after_validation (a : Args) (env : Env) (epoch : Z)
    (train_losses val_losses : Q * Q * Q) (s : Session) : Session :=
  {| s_net := s_net s; s_optimizer := s_optimizer s;
     s_scheduler := s_scheduler s; s_last_epoch := s_last_epoch s;
     s_r_epoch := s_r_epoch s;
     s_model_path := Some (checkpoint_name a env epoch (PyFloat val_losses.1.1));
     s_files := s_files s;
     s_report := s_report s
                 ++ [(epoch, get_current_lr (s_optimizer s), train_losses, val_losses)];
     s_saved := s_saved s;
     s_scheduler_calls := s_scheduler_calls s |}.

Definition after_save (model_path : string) (epoch : Z) (s : Session) : Session :=
  {| s_net := s_net s; s_optimizer := s_optimizer s;
     s_scheduler := s_scheduler s; s_last_epoch := s_last_epoch s;
     s_r_epoch := s_r_epoch s; s_model_path := s_model_path s;
     s_files := net_save (s_files s) (s_net s) model_path (s_optimizer s) epoch;
     s_report := s_report s;
     s_saved := s_saved s ++ [(model_path, epoch)];
     s_scheduler_calls := s_scheduler_calls s |}.

Definition after_scheduler_step (epoch : Z) (val_loss : PyVal) (s : Session)
  : Session :=
  let '(sch, groups) :=
    scheduler_step (s_scheduler s) val_loss (param_groups (s_optimizer s)) in
  {| s_net := s_net s; s_optimizer := with_groups (s_optimizer s) groups;
     s_scheduler := sch; s_last_epoch := s_last_epoch s;
     s_r_epoch := s_r_epoch s; s_model_path := s_model_path s;
     s_files := s_files s; s_report := s_report s; s_saved := s_saved s;
     s_scheduler_calls := s_scheduler_calls s ++ [(epoch, val_loss)] |}.

(** One pass through the body of [for epoch in range(...)]. *)
Definition epoch_body (a : Args) (env : Env) (epoch : Z) : Run unit :=
  let val_loss := PyInt 0 in
  s ← get;
  tr ← lift (train (train_loader env epoch) (s_net s) (s_optimizer s)
               (debug_steps a));
  _ ← modify (after_train tr);
  validate ← lift (interval_hit epoch (validation_epochs a) (num_epochs a));
  val_loss ←
    (if validate : bool then
       s ← get;
       val_losses ← lift (test (val_loader env) (s_net s));
       _ ← modify (after_validation a env epoch (tr_losses tr) val_losses);
       mret (PyFloat val_losses.1.1)
     else mret val_loss);
  checkpoint ← lift (interval_hit epoch (checkpoint_epochs a) (num_epochs a));
  _ ← (if checkpoint : bool then
         s ← get;
         model_path ← lift (match s_model_path s with
                            | Some p => Ok p
                            | None => Raise (NameError "model_path")
                            end);
         modify (after_save model_path epoch)
       else mret ());
  modify (after_scheduler_step epoch val_loss).

(** [range(start, stop)] *)
Definition py_range (start stop : Z) : list Z :=
  (λ i, (start + Z.of_nat i)%Z) <$> seq 0 (Z.to_nat (stop - start)).

Fixpoint for_each (epochs : list Z) (body : Z → Run unit) : Run unit :=
  match epochs with
  | [] => mret ()
  | epoch :: epochs' => _ ← body epoch; for_each epochs' body
  end.

(** The epochs the loop of line 433 runs through. *)
Definition epochs_of (a : Args) (s : Session) : list Z :=
  py_range (s_last_epoch s + 1) (num_epochs a + s_r_epoch s + 1).

Definition epoch_loop (a : Args) (env : Env) : Run unit :=
  λ s, for_each (epochs_of a s) (epoch_body a env) s.

(** The script from the choice of the architecture (line 225) on: the
    outcome, and the session reached if it got that far. *)
Definition main (cl : CommandLine) (env : Env) (files : gmap string PthFile)
  : result unit * option Session :=
  let a := parse_args cl in
  match startup a env files with
  | Raise e => (Raise e, None)
  | Ok s => let '(r, s') := epoch_loop a env s in (r, Some s')
  end.

(** *** The script from its first line

    Lines 210 to 222 make the checkpoint folder and open the report; the file
    system is given by the outcome of each of these calls. *)
Record Os := {
  expanduser : string → string;
  path_exists : string → bool;
  mkdir : string → result unit;
  (** [open(report_path, 'a')] and the writing of the header *)
  open_report : string → result unit
}.

(** [args.checkpoint_folder = ...] *)
Definition with_checkpoint_folder (a : Args) (folder : string) : Args := {|
  net := net a; freeze_base_net := freeze_base_net a;
  freeze_net := freeze_net a; base_net := base_net a;
  pretrained_ssd := pretrained_ssd a; resume := resume a;
  lr := lr a; momentum := momentum a; weight_decay := weight_decay a;
  base_net_lr := base_net_lr a; extra_layers_lr := extra_layers_lr a;
  scheduler := scheduler a; milestones := milestones a; t_max := t_max a;
  patience := patience a; num_epochs := num_epochs a;
  validation_epochs := validation_epochs a;
  checkpoint_epochs := checkpoint_epochs a;
  debug_steps := debug_steps a; checkpoint_folder := folder |}.

(** Lines 210 to 214 *)
Definition make_checkpoint_folder (os : Os) (a : Args) : result Args :=
  if bool_decide (checkpoint_folder a = "") then Ok a
  else
    let folder := expanduser os (checkpoint_folder a) in
    _ ← (if path_exists os folder then Ok () else mkdir os folder);
    mret (with_checkpoint_folder a folder).

(** Line 219 *)
Definition report_path (a : Args) (env : Env) : string :=
  path_join (checkpoint_folder a) (start_time env +:+ "_loss.report.csv").

(** Lines 210 to 222 *)
Definition prelude (os : Os) (a : Args) (env : Env) : result Args :=
  a ← make_checkpoint_folder os a;
  _ ← open_report os (report_path a env);
  mret a.

(** Lines 205 to 463: what [main] does, after the folder and the report. *)
Definition script (os : Os) (cl : CommandLine) (env : Env)
    (files : gmap string PthFile) : result unit * option Session :=
  match prelude os (parse_args cl) env with
  | Raise e => (Raise e, None)
  | Ok a =>
      match startup a env files with
      | Raise e => (Raise e, None)
      | Ok s => let '(r, s') := epoch_loop a env s in (r, Some s')
      end
  end.

(** *** Notions for the statements about the script *)

(** The two losses the network yields on each batch of a training pass, the
    parameters being updated after every batch. *)
Fixpoint batch_losses (groups : list ParamGroup) (frz : list NetPart)
    (w : Weights) (buf : OptBuf) (loader : list Batch) : list (Q * Q) :=
  match loader with
  | [] => []
  | data :: loader' =>
      forward_loss w data
      :: batch_losses groups frz (sgd_step groups frz w buf data).1
           (sgd_step groups frz w buf data).2 loader'
  end.

Definition Qsum (l : list Q) : Q := foldr Qplus 0%Q l.

(** The epoch counter in the checkpoint file at [path], if there is one. *)
Definition stored_epoch (files : gmap string PthFile) (path : string)
  : option Z :=
  match files !! path with
  | Some (FullCheckpoint c) => Some (training_epoch c)
  | _ => None
  end.

(** "A rate that the command line does not give is the global rate." *)
Definition unconfigured_rates_are_global : Prop :=
  ∀ cl o,
    new_optimizer (parse_args cl) = Ok o →
    (cl_base_net_lr cl = None →
     ∀ r, lr_of_part o part_base_net = Some r → r = lr (parse_args cl))
    ∧ (cl_extra_layers_lr cl = None →
       ∀ r, lr_of_part o part_extras = Some r → r = lr (parse_args cl)).

(** Whether validation runs at [epoch]. *)
Definition validates (a : Args) (epoch : Z) : result bool :=
  interval_hit epoch (validation_epochs a) (num_epochs a).

(** *** Notions for further properties of the script *)

(** The weights and the optimizer state after one update for every batch of
    the loader, in its order. *)
Definition apply_updates (groups : list ParamGroup) (frz : list NetPart)
    (state : Weights * OptBuf) (loader : list Batch) : Weights * OptBuf :=
  foldl (λ st data, sgd_step groups frz st.1 st.2 data) state loader.

(** The parts of the network. *)
Definition all_parts : list NetPart :=
  [part_base_net; part_source_layer_add_ons; part_extras;
   part_regression_headers; part_classification_headers].

(** The parts that the argument of the optimizer holds. *)
Definition params_parts (params : Params) : list NetPart :=
  match params with
  | ParamIter parts => parts
  | ParamDicts groups => mjoin (fst <$> groups)
  end.

(** Whether a checkpoint is saved at [epoch]. *)
Definition checkpoints (a : Args) (epoch : Z) : result bool :=
  interval_hit epoch (checkpoint_epochs a) (num_epochs a).


(** The session after the first [n] passes of the loop that starts in [s]
    (the session the loop leaves, if an exception ends it earlier). *)
Definition session_after (a : Args) (env : Env) (s : Session) (n : nat)
  : Session :=
  (for_each (take n (epochs_of a s)) (epoch_body a env) s).2.


End Training.

(** ** A concrete instance of the collaborators

    Weights and optimizer buffers count the updates applied; a batch carries
    the two losses the network yields on it. *)
Module Toy.
Definition toy : Collaborators := {|
  Weights := nat;
  OptBuf := nat;
  Batch := Q * Q;
  create_net := λ _ _, 0;
  compatible := λ _ _, true;
  overlay_base_net := λ _ w, w;
  overlay_pretrained := λ _ w, w;
  no_buf := 0;
  forward_loss := λ _ b, b;
  sgd_step := λ _ _ w buf _, (S w, S buf);
  num_parameters := λ _, 1;
  parse_milestones := λ _, Ok [80%Z; 100%Z];
  scheduler_step := λ s _ gs, (s, gs);
  float_repr := λ q, pretty (Qnum q) +:+ ":" +:+ pretty (Z.pos (Qden q))
|}.

Definition no_options : CommandLine := {|
  cl_net := None; cl_freeze_base_net := false; cl_freeze_net := false;
  cl_base_net := None; cl_pretrained_ssd := None; cl_resume := None;
  cl_lr := None; cl_momentum := None; cl_weight_decay := None;
  cl_base_net_lr := None; cl_extra_layers_lr := None;
  cl_scheduler := None; cl_milestones := None; cl_t_max := None;
  cl_patience := None; cl_num_epochs := None;
  cl_validation_epochs := None; cl_checkpoint_epochs := None;
  cl_debug_steps := None; cl_checkpoint_folder := None |}.

(** [--epochs n --validation-epochs v --checkpoint-epochs c], with
    [--resume], [--freeze-base-net] and [--freeze-net] as given. *)
Definition options (n v c : Z) (resume : option string)
    (freeze_base_net freeze_net : bool) : CommandLine := {|
  cl_net := None; cl_freeze_base_net := freeze_base_net;
  cl_freeze_net := freeze_net;
  cl_base_net := None; cl_pretrained_ssd := None; cl_resume := resume;
  cl_lr := None; cl_momentum := None; cl_weight_decay := None;
  cl_base_net_lr := None; cl_extra_layers_lr := None;
  cl_scheduler := None; cl_milestones := None; cl_t_max := None;
  cl_patience := None; cl_num_epochs := Some n;
  cl_validation_epochs := Some v; cl_checkpoint_epochs := Some c;
  cl_debug_steps := None; cl_checkpoint_folder := None |}.

Definition batches (l : list (Q * Q)) : list (@Batch toy) := l.
Definition updates (n : nat) : @Weights toy := n.
Definition buffers (n : nat) : @OptBuf toy := n.

Definition env : @Env toy := {|
  start_time := "2020-01-01_0000.00";
  prepare_data := Ok 3;
  train_loader := λ _, batches [(1, 2)%Q; (3, 4)%Q];
  val_loader := batches [(1, 1)%Q]
|}.

Definition pretrained : string := "models/mobilenet-v1-ssd-mp-0_675.pth".

Definition group (parts : list NetPart) (rate : Q) : ParamGroup := {|
  pg_params := parts; pg_lr := rate; pg_momentum := (9 # 10)%Q;
  pg_weight_decay := (5 # 10000)%Q; pg_initial_lr := Some rate |}.

(** A checkpoint of a run without frozen layers, taken at epoch 5. *)
Definition checkpoint5 : @Checkpoint toy := {|
  model_state_dict := updates 12;
  optimizer_state_dict := {|
    param_groups := [group [part_base_net] (1 # 1000)%Q;
                     group extra_parts (1 # 100)%Q;
                     group head_parts (1 # 100)%Q];
    opt_state := buffers 12 |};
  training_epoch := 5 |}.

Definition files : gmap string (@PthFile toy) :=
  {[ pretrained := StateDict (updates 7);
     "models/ckpt5.pth" := FullCheckpoint checkpoint5 ]}.

Definition net0 : @Net toy :=
  {| arch := "mb1-ssd"; weights := updates 0; frozen := [] |}.
Definition optimizer0 : @Optimizer toy := {|
  param_groups := [group [part_base_net] (1 # 1000)%Q;
                   group extra_parts (1 # 100)%Q;
                   group head_parts (1 # 100)%Q];
  opt_state := buffers 0 |}.

(** The session of a fresh run, as the epoch loop finds it. *)
Definition session0 : @Session toy := {|
  s_net := net0; s_optimizer := optimizer0;
  s_scheduler := CosineAnnealingLR 100 (-1);
  s_last_epoch := (-1)%Z; s_r_epoch := 0%Z;
  s_model_path := None; s_files := files; s_report := [];
  s_saved := []; s_scheduler_calls := [] |}.

(** The checkpoint names of the epochs 0 and 2 of a run on [env]. *)
Definition name0 : string := "models/2020-01-01_0000.00_mb1-ssd-Epoch-0-Loss-2:1.pth".
Definition name2 : string := "models/2020-01-01_0000.00_mb1-ssd-Epoch-2-Loss-2:1.pth".

(** [--net name], the other options absent. *)
Definition net_option (name : string) : CommandLine := {|
  cl_net := Some name; cl_freeze_base_net := false; cl_freeze_net := false;
  cl_base_net := None; cl_pretrained_ssd := None; cl_resume := None;
  cl_lr := None; cl_momentum := None; cl_weight_decay := None;
  cl_base_net_lr := None; cl_extra_layers_lr := None;
  cl_scheduler := None; cl_milestones := None; cl_t_max := None;
  cl_patience := None; cl_num_epochs := None;
  cl_validation_epochs := None; cl_checkpoint_epochs := None;
  cl_debug_steps := None; cl_checkpoint_folder := None |}.

(** A file system on which every call works, and one without the parent
    of the checkpoint folder. *)
Definition os : Os := {|
  expanduser := λ p, p; path_exists := λ _, true;
  mkdir := λ _, Ok (); open_report := λ _, Ok () |}.
Definition os_no_parent : Os := {|
  expanduser := λ p, p; path_exists := λ _, false;
  mkdir := λ _, Raise FileNotFoundError; open_report := λ _, Ok () |}.

End Toy.


(** ** Auxiliary notions for further properties of the dataset loader *)

(** The order of strings by their characters, and the order in which
    [groupby] arranges the image identifiers. *)
Definition string_lt (a b : string) : Prop := String.compare a b = Lt.
Definition key_lt (numeric : bool) (a b : string) : Prop :=
  key_compare numeric a b = Lt.

(** The rows of the table that belong to the image [id], in table order. *)
Definition group_rows (id : string) (rows : list Row) : list Row :=
  filter (λ r, ImageID r = Some id) rows.

(** The number of boxes over all records. *)
Definition total_boxes (data : list ImageRecord) : nat :=
  sum_list ((λ record, length (boxes record)) <$> data).

(** ** [__repr__]

    A Python [dict] whose order of keys shows in the output is an
    association list with one entry for every key: an assignment to a key
    that is there changes its entry in place, a new key goes to the end. *)

Fixpoint alist_set (k : string) (v : nat) (d : list (string * nat))
  : list (string * nat) :=
  match d with
  | [] => [(k, v)]
  | (k', v') :: d' =>
      if bool_decide (k' = k) then (k', v) :: d' else (k', v') :: alist_set k v d'
  end.

Fixpoint alist_get (k : string) (d : list (string * nat)) : result nat :=
  match d with
  | [] => Raise (KeyError k)
  | (k', v') :: d' => if bool_decide (k' = k) then Ok v' else alist_get k d'
  end.

(** [{name: 0 for name in self.class_names}] *)
Definition zero_class_stat (class_names : list string) : list (string * nat) :=
  foldl (λ d name, alist_set name 0 d) [] class_names.

(** The loop over the labels of one example. *)
Fixpoint count_labels (class_names : list string) (ls : list nat)
    (class_stat : list (string * nat)) : result (list (string * nat)) :=
  match ls with
  | [] => Ok class_stat
  | class_index :: ls' =>
      class_name ← py_index class_names (Z.of_nat class_index - 1);
      num ← alist_get class_name class_stat;
      count_labels class_names ls' (alist_set class_name (num + 1) class_stat)
  end.

(** The loop over [self.data]. *)
Fixpoint count_examples (class_names : list string) (data : list ImageRecord)
    (class_stat : list (string * nat)) : result (list (string * nat)) :=
  match data with
  | [] => Ok class_stat
  | example :: data' =>
      class_stat' ← count_labels class_names (labels example) class_stat;
      count_examples class_names data' class_stat'
  end.

Definition tab : string := String (ascii_of_nat 9) "".
Definition newline : string := String (ascii_of_nat 10) "".

(** [sep.join(l)] *)
Fixpoint join (sep : string) (l : list string) : string :=
  match l with
  | [] => ""
  | [s] => s
  | s :: l' => s +:+ sep +:+ join sep l'
  end.

(** [__repr__].  The attribute [class_stat], [None] until the first call,
    is given and returned beside the dataset. *)
Definition dataset_repr (ds : OpenImagesDataset)
    (class_stat : option (list (string * nat)))
  : result (string * list (string * nat)) :=
  class_stat ←
    match class_stat with
    | None => count_examples (class_names ds) (data ds)
                (zero_class_stat (class_names ds))
    | Some class_stat => Ok class_stat
    end;
  let content :=
    ["Dataset Summary:" +:+ "Number of Images: " +:+ pretty (length (data ds));
     "Minimum Number of Images for a Class: " +:+ pretty (min_image_num ds);
     "Label Distribution:"]
    ++ ((λ item : string * nat, tab +:+ item.1 +:+ ": " +:+ pretty item.2)
        <$> class_stat) in
  mret (join newline content, class_stat).

(** The number of boxes of [data] with the label [c]. *)
Definition boxes_with_label (c : nat) (data : list ImageRecord) : nat :=
  sum_list ((λ example, length (filter (λ l, l = c) (labels example))) <$> data).

(** Labels from 1 to [N]. *)
Definition class_labels (N : nat) (data : list ImageRecord) : Prop :=
  Forall (λ example, Forall (λ l, 1 ≤ l ≤ N) (labels example)) data.


(** Outcomes can be compared. *)
#[global] Instance PyError_eq_dec : EqDecision PyError.
Proof. solve_decision. Defined.
#[global] Instance result_eq_dec {A} `{EqDecision A} : EqDecision (result A).
Proof. solve_decision. Defined.


(** ** Preparing the datasets ([train_ssd.py], lines 35-39 and 252-297)

    The part of the script that the field [prepare_data] of [Env] stands
    for.  The calls to [logging] are left out: a handler swallows what
    formatting a message raises, and the values below do not depend on
    them.  [ConcatDataset] and the two [DataLoader]s wrap the datasets made
    here and are not modelled, and the labels file is taken to be writable:
    what is said below is said of a preparation that gets through, not of
    the ways in which it can fail. *)

(** [--dataset-type], [--datasets] (one path or more) and [--balance-data]
    as given on the command line. *)
Record DataCommandLine := {
  cl_dataset_type : option string;
  cl_datasets : option (string * list string);
  cl_balance_data : bool
}.

Record DataArgs := {
  a_dataset_type : string;
  a_datasets : list string;
  a_balance_data : bool
}.

Definition parse_data_args (cl : DataCommandLine) : DataArgs := {|
  a_dataset_type := default "open_images" (cl_dataset_type cl);
  a_datasets := from_option (λ ps, ps.1 :: ps.2) ["data"] (cl_datasets cl);
  a_balance_data := cl_balance_data cl
|}.

(** Modelled from the spec: the labels file holds the class names, one on
    a line, in the order of the vocabulary. *)
Definition store_labels (path : string) (labels : list string)
    (files : gmap string (list string)) : gmap string (list string) :=
  <[path := labels]> files.

(** A name of the script that is read: unbound, it raises [NameError]. *)
Definition py_var {A} (name : string) (v : option A) : result A :=
  from_option Ok (Raise (NameError name)) v.

Section Preparation.
(** [VOCDataset] belongs to a module that is not part of these sources: its
    constructor and its class names are parameters. *)
Context {VOC : Type}.
Variable VOCDataset :
  string → option Transform → option TargetTransform → bool → result VOC.
Variable voc_class_names : VOC → list string.

(** The names the loop over [args.datasets] binds, the labels files written,
    and the generator of [numpy]. *)
Record Preparing := {
  dataset_path : option string;
  datasets : list (VOC + OpenImagesDataset);
  label_file : option string;
  num_classes : option nat;
  labels_files : gmap string (list string);
  rng : Rng
}.

(** One turn of the loop of lines 255-273. *)
Definition prepare_step (a : Args) (d : DataArgs) (disk : Disk)
    (train_transform : Transform) (target_transform : TargetTransform)
    (st : Preparing) (path : string) : result Preparing :=
  if bool_decide (a_dataset_type d = "voc") then
    dataset ← VOCDataset path (Some train_transform) (Some target_transform)
                false;
    let file := path_join (checkpoint_folder a) "labels.txt" in
    mret {| dataset_path := Some path;
            datasets := datasets st ++ [inl dataset];
            label_file := Some file;
            num_classes := Some (length (voc_class_names dataset));
            labels_files :=
              store_labels file (voc_class_names dataset) (labels_files st);
            rng := rng st |}
  else if bool_decide (a_dataset_type d = "open_images") then
    '(dataset, g) ← new_dataset disk (rng st) path (Some train_transform)
                      (Some target_transform) "train" (a_balance_data d);
    let file := path_join (checkpoint_folder a) "labels.txt" in
    mret {| dataset_path := Some path;
            datasets := datasets st ++ [inr dataset];
            label_file := Some file;
            num_classes := Some (length (class_names dataset));
            labels_files :=
              store_labels file (class_names dataset) (labels_files st);
            rng := g |}
  else Raise ValueError.

Fixpoint prepare_loop (a : Args) (d : DataArgs) (disk : Disk)
    (train_transform : Transform) (target_transform : TargetTransform)
    (st : Preparing) (paths : list string) : result Preparing :=
  match paths with
  | [] => Ok st
  | path :: paths =>
      st ← prepare_step a d disk train_transform target_transform st path;
      prepare_loop a d disk train_transform target_transform st paths
  end.

(** Lines 252-297: the training datasets, then the validation dataset, read
    from the directory the loop variable was left at. *)
Definition prepare_datasets (a : Args) (d : DataArgs) (disk : Disk)
    (g : Rng) (train_transform test_transform : Transform)
    (target_transform : TargetTransform)
  : result (Preparing * (VOC + OpenImagesDataset) * Rng) :=
  st ← prepare_loop a d disk train_transform target_transform
         {| dataset_path := None; datasets := []; label_file := None;
            num_classes := None; labels_files := ∅; rng := g |}
         (a_datasets d);
  _ ← py_var "label_file" (label_file st);
  val_dataset ←
    (if bool_decide (a_dataset_type d = "voc") then
       path ← py_var "dataset_path" (dataset_path st);
       dataset ← VOCDataset path (Some test_transform)
                   (Some target_transform) true;
       mret (inl dataset, rng st)
     else if bool_decide (a_dataset_type d = "open_images") then
       path ← py_var "dataset_path" (dataset_path st);
       '(dataset, g) ← new_dataset disk (rng st) path (Some test_transform)
                         (Some target_transform) "test" false;
       mret (inr dataset, g)
     else Raise (NameError "val_dataset"));
  mret (st, val_dataset.1, val_dataset.2).

End Preparation.


(** ** Auxiliary notions for the statements *)

(** Labels that [label_image_indexes] can be indexed with. *)
Definition valid_labels (N : nat) (data : list ImageRecord) : Prop :=
  Forall (λ image, Forall (λ l, l ≤ N) (labels image)) data.

(** Whether the image at position [j] of [data] has class [c]. *)
Definition has_class_at (c : nat) (data : list ImageRecord) (j : nat) : bool :=
  match data !! j with
  | Some image => has_class c image
  | None => false
  end.

Definition positions_with_class (c : nat) (data : list ImageRecord) : list nat :=
  filter (λ j, has_class_at c data j = true) (seq 0 (length data)).

(** ** Statements of the specification that the code does not satisfy *)

(** An annotation source that is missing, malformed or empty. *)
Definition unusable_source (f : AnnotationFile) : Prop :=
  match f with
  | NoFile | EmptyFile | BadCsv => True
  | Csv df =>
      "ClassName" ∉ df_columns df ∨ "ImageID" ∉ df_columns df
      ∨ groupby_ImageID (df_rows df) = []
      ∨ unique (ClassName <$> df_rows df) = []
  end.

(** "Every unusable source makes the construction of the dataset fail." *)
Definition unusable_source_always_fails : Prop :=
  ∀ disk g root t tt dtype bal,
    unusable_source (csv_at disk (annotation_path root (lower dtype))) →
    raises (new_dataset disk g root t tt dtype bal).

(** "After balancing, no class with a supporting image is in more images
    than the least class count of the original data." *)
Definition balanced_within_min_count : Prop :=
  ∀ names data g m balanced g' least c,
    _balance_data names data g = Ok (m, balanced, g') →
    min_class_count (length names) data = Ok least →
    1 ≤ c ≤ length names →
    0 < images_with_class c data →
    images_with_class c balanced ≤ least.

(** ** Facts about the error monad *)

Lemma bind_Ok {A B} (m : result A) (k : A → result B) (b : B) :
  (m ≫= k) = Ok b ↔ ∃ a, m = Ok a ∧ k a = Ok b.
Proof.
  destruct m as [a|e]; cbn; split.
  - eauto.
  - by intros (a' & [= <-] & ?).
  - done.
  - by intros (? & ? & ?).
Qed.

Lemma is_ok_returns {A} (r : result A) : is_ok r = true → returns r.
Proof. destruct r; [by eexists|done]. Qed.

Lemma bind_Raise {A B} (m : result A) (k : A → result B) (e : PyError) :
  m = Raise e → (m ≫= k) = Raise e.
Proof. by intros ->. Qed.

Lemma bind_of_Ok {A B} (m : result A) (k : A → result B) (a : A) :
  m = Ok a → (m ≫= k) = k a.
Proof. by intros ->. Qed.

Ltac inv_bind H :=
  repeat match type of H with
  | (_ ≫= _) = Ok _ =>
      let a := fresh "a" in
      let Ha := fresh "Ha" in
      apply bind_Ok in H as (a & Ha & H)
  | mret _ = Ok _ => injection H as H
  | Ok _ = Ok _ => injection H as H
  end.

Lemma py_get_Ok {A} (l : list A) i a : py_get l i = Ok a ↔ l !! i = Some a.
Proof. unfold py_get. destruct (l !! i); naive_solver. Qed.

Lemma py_get_ge {A} (l : list A) i : length l ≤ i → py_get l i = Raise IndexError.
Proof. intros H. unfold py_get. by rewrite lookup_ge_None_2. Qed.

(** ** Facts about the dataset *)

(** C8: a sample whose image file is missing or cannot be decoded
    ([cv2.imread] gives [None]) makes [__getitem__] raise: the fetch of that
    sample fails with an [AttributeError]. *)
Theorem getitem_unreadable_image_raises disk ds index image_info :
  py_index (data ds) index = Ok image_info →
  imread disk (image_path (root ds) (dataset_type ds) (image_id image_info)) = None →
  getitem disk ds index = Raise AttributeError.
Proof.
  intros Hidx Hread. unfold getitem.
  rewrite (bind_of_Ok _ _ _ Hidx). apply bind_Raise.
  unfold _read_image. by rewrite Hread.
Qed.

Lemma getitem_unreadable_image_raises_witness :
  py_index (data Scenario.dataset) 1 = Ok Scenario.img1
  ∧ getitem Scenario.disk Scenario.dataset 1 = Raise AttributeError.
Proof.
  split; [reflexivity|].
  apply (getitem_unreadable_image_raises Scenario.disk Scenario.dataset 1%Z
           Scenario.img1); reflexivity.
Defined.

(** C4 as stated fails: a file with a header and no row is read into an
    empty dataset without any error. *)
Lemma unusable_source_always_fails_counterexample :
  ¬ unusable_source_always_fails.
Proof.
  intros H.
  destruct (H Scenario.disk_header_only Scenario.zeros "data" None None
              "train" false) as [e He].
  - right; right; left. reflexivity.
  - vm_compute in He. discriminate.
Qed.

(** C4, amended: a source that [read_csv] rejects (missing, empty or
    unparseable file) or that lacks the [ClassName] or the [ImageID] column
    makes the construction raise that error; a table with both columns and no
    row gives an empty dataset without error unless balancing is asked for,
    in which case the construction raises [ValueError]. *)
Theorem new_dataset_source_errors disk g root t tt dtype bal file :
  csv_at disk (annotation_path root (lower dtype)) = file →
  match file with
  | NoFile => new_dataset disk g root t tt dtype bal = Raise FileNotFoundError
  | EmptyFile => new_dataset disk g root t tt dtype bal = Raise EmptyDataError
  | BadCsv => new_dataset disk g root t tt dtype bal = Raise ParserError
  | Csv df =>
      ("ClassName" ∉ df_columns df →
       new_dataset disk g root t tt dtype bal = Raise (KeyError "ClassName"))
      ∧ ("ClassName" ∈ df_columns df → "ImageID" ∉ df_columns df →
         new_dataset disk g root t tt dtype bal = Raise (KeyError "ImageID"))
      ∧ ("ClassName" ∈ df_columns df → "ImageID" ∈ df_columns df →
         df_rows df = [] →
         if bal then new_dataset disk g root t tt dtype bal = Raise ValueError
         else ∃ ds, new_dataset disk g root t tt dtype bal = Ok (ds, g)
                    ∧ data ds = [] ∧ class_names ds = [] ∧ dataset_len ds = 0)
  end.
Proof.
  intros Hfile. unfold new_dataset, _read_data. rewrite Hfile.
  destruct file as [| | |df]; try reflexivity.
  cbn [read_csv]. rewrite (bind_of_Ok _ _ df) by reflexivity.
  unfold require_column. repeat split.
  - intros Hc. by rewrite (bool_decide_eq_false_2 _ Hc).
  - intros Hc Hi. rewrite (bool_decide_eq_true_2 _ Hc). cbn.
    by rewrite (bool_decide_eq_false_2 _ Hi).
  - intros Hc Hi Hrows.
    rewrite (bool_decide_eq_true_2 _ Hc). cbn.
    rewrite (bool_decide_eq_true_2 _ Hi). cbn.
    rewrite Hrows. cbn. destruct bal; cbn; [reflexivity|].
    eexists. split; [reflexivity|]. done.
Qed.

Lemma new_dataset_source_errors_witness :
  csv_at Scenario.disk_header_only (annotation_path "data" (lower "train"))
    = Csv Scenario.header_only
  ∧ new_dataset Scenario.disk_header_only Scenario.zeros "data" None None
      "train" true = Raise ValueError.
Proof.
  split; [reflexivity|].
  pose proof (new_dataset_source_errors Scenario.disk_header_only Scenario.zeros
                "data" None None "train" true (Csv Scenario.header_only)
                eq_refl) as (_ & _ & H).
  apply H; [vm_compute; by repeat constructor.. | reflexivity].
Defined.

(** ** Facts about [_balance_data] *)

Lemma length_positions_with_class c data :
  length (positions_with_class c data) = images_with_class c data.
Proof.
  unfold positions_with_class, images_with_class.
  induction data as [|x data IH]; [done|].
  cbn [length seq]. rewrite <- fmap_S_seq.
  rewrite !filter_cons. unfold has_class_at at 1. cbn [lookup list_lookup].
  assert (length (filter (λ j, has_class_at c (x :: data) j = true)
                    (S <$> seq 0 (length data)))
          = length (filter (λ image, has_class c image = true) data)) as Hrest.
  { rewrite <- IH. clear IH.
    generalize (seq 0 (length data)) as l.
    induction l as [|j l IHl]; [done|].
    cbn [fmap list_fmap]. rewrite !filter_cons.
    change (has_class_at c (x :: data) (S j)) with (has_class_at c data j).
    destruct (decide (has_class_at c data j = true)); cbn; by rewrite IHl. }
  destruct (decide (has_class c x = true)); cbn [length]; by rewrite Hrest.
Qed.

Lemma elem_of_positions_with_class c data j :
  j ∈ positions_with_class c data
  ↔ ∃ image, data !! j = Some image ∧ c ∈ labels image.
Proof.
  unfold positions_with_class. rewrite list_elem_of_filter, elem_of_seq.
  unfold has_class_at, has_class. split.
  - intros [H _]. destruct (data !! j) as [image|]; [|done].
    exists image. split; [done|]. by apply bool_decide_eq_true in H.
  - intros (image & Hj & Hc). rewrite Hj. split.
    + by apply bool_decide_eq_true.
    + apply lookup_lt_Some in Hj. lia.
Qed.

(** A set with the members of [positions_with_class] has its size. *)
Lemma size_class_positions (S : gset nat) c data :
  (∀ j, j ∈ S ↔ ∃ image, data !! j = Some image ∧ c ∈ labels image) →
  size S = images_with_class c data.
Proof.
  intros HS. rewrite <- length_positions_with_class.
  unfold size, set_size. cbn. apply Permutation_length.
  apply NoDup_Permutation.
  - apply NoDup_elements.
  - apply NoDup_filter, NoDup_seq.
  - intros j. by rewrite elem_of_elements, HS, elem_of_positions_with_class.
Qed.

Lemma add_image_labels_spec i ls lii lii' :
  add_image_labels i ls lii = Ok lii' →
  length lii' = length lii
  ∧ ∀ c, c < length lii →
      ∃ S S', lii !! c = Some S ∧ lii' !! c = Some S'
              ∧ ∀ j, j ∈ S' ↔ j ∈ S ∨ (j = i ∧ c ∈ ls).
Proof.
  revert lii. induction ls as [|l ls IH]; intros lii H; cbn in H.
  - injection H as <-. split; [done|]. intros c Hc.
    destruct (lookup_lt_is_Some_2 lii c Hc) as [S HS].
    exists S, S. repeat split; try done; [by left|].
    by intros [?|[_ ?%elem_of_nil]].
  - inv_bind H. apply py_get_Ok in Ha.
    apply IH in H as [Hlen Hsets]. rewrite length_insert in Hlen.
    split; [done|]. intros c Hc.
    destruct (Hsets c) as (S1 & S' & H1 & H' & Hmem);
      [by rewrite length_insert|].
    destruct (decide (c = l)) as [->|Hne].
    + rewrite list_lookup_insert_eq in H1 by done. injection H1 as <-.
      exists a, S'. split; [done|]. split; [done|]. intros j.
      rewrite Hmem, elem_of_union, elem_of_singleton, elem_of_cons.
      naive_solver.
    + rewrite list_lookup_insert_ne in H1 by done.
      exists S1, S'. split; [done|]. split; [done|]. intros j.
      rewrite Hmem, elem_of_cons. naive_solver.
Qed.

Lemma add_image_labels_returns i ls lii :
  Forall (λ l, l < length lii) ls → returns (add_image_labels i ls lii).
Proof.
  revert lii. induction ls as [|l ls IH]; intros lii H; cbn.
  - by eexists.
  - apply Forall_cons in H as [Hl Hls].
    destruct (lookup_lt_is_Some_2 lii l Hl) as [S HS].
    rewrite (bind_of_Ok _ _ S) by by apply py_get_Ok.
    apply IH. by rewrite length_insert.
Qed.

Lemma index_labels_spec images lii lii' :
  index_labels images lii = Ok lii' →
  length lii' = length lii
  ∧ ∀ c, c < length lii →
      ∃ S S', lii !! c = Some S ∧ lii' !! c = Some S'
              ∧ ∀ j, j ∈ S' ↔ j ∈ S ∨ ∃ image, (j, image) ∈ images
                                                ∧ c ∈ labels image.
Proof.
  revert lii. induction images as [|[i image] images IH]; intros lii H; cbn in H.
  - injection H as <-. split; [done|]. intros c Hc.
    destruct (lookup_lt_is_Some_2 lii c Hc) as [S HS].
    exists S, S. repeat split; try done; [by left|].
    by intros [?|(? & ?%elem_of_nil & _)].
  - inv_bind H. apply add_image_labels_spec in Ha as [Hlen1 H1].
    apply IH in H as [Hlen2 H2]. split; [congruence|].
    intros c Hc.
    destruct (H1 c Hc) as (S & S1 & HS & HS1 & Hm1).
    destruct (H2 c) as (S1' & S' & HS1' & HS' & Hm2); [congruence|].
    assert (S1' = S1) as -> by congruence.
    exists S, S'. repeat split; try done.
    + intros Hj. apply Hm2 in Hj as [Hj|(im & Hin & Hc')].
      * apply Hm1 in Hj as [Hj|[-> Hc']]; [by left|].
        right. exists image. split; [left|done].
      * right. exists im. split; [by right|done].
    + intros [Hj|(im & Hin & Hc')]; apply Hm2.
      * left. apply Hm1. by left.
      * apply elem_of_cons in Hin as [[= -> ->]|Hin].
        -- left. apply Hm1. by right.
        -- right. by exists im.
Qed.

Lemma index_labels_returns images lii :
  Forall (λ p, Forall (λ l, l < length lii) (labels p.2)) images →
  returns (index_labels images lii).
Proof.
  revert lii. induction images as [|[i image] images IH]; intros lii H; cbn.
  - by eexists.
  - apply Forall_cons in H as [Hl Hls]. cbn in Hl.
    destruct (add_image_labels_returns i (labels image) lii Hl) as [lii1 H1].
    rewrite (bind_of_Ok _ _ _ H1).
    apply add_image_labels_spec in H1 as [Hlen _].
    apply IH. by rewrite Hlen.
Qed.

Lemma elem_of_enumerate {A} (l : list A) j x :
  (j, x) ∈ enumerate l ↔ l !! j = Some x.
Proof.
  unfold enumerate. rewrite list_elem_of_lookup. split.
  - intros (i & Hi). apply lookup_zip_with_Some in Hi as (j' & x' & [= <- <-] & Hs & Hx).
    apply lookup_seq in Hs as [-> _]. done.
  - intros Hx. exists j. apply lookup_zip_with_Some.
    exists j, x. repeat split; [|done].
    apply lookup_seq. split; [done|]. by apply lookup_lt_Some in Hx.
Qed.

Lemma foldl_min_spec (l : list nat) (x : nat) :
  (foldl Nat.min x l = x ∨ foldl Nat.min x l ∈ l)
  ∧ foldl Nat.min x l ≤ x
  ∧ ∀ y, y ∈ l → foldl Nat.min x l ≤ y.
Proof.
  revert x. induction l as [|z l IH]; intros x; cbn.
  - split; [by left|]. split; [done|]. by intros y ?%elem_of_nil.
  - destruct (IH (x `min` z)) as (Hin & Hle & Hall). repeat split.
    + destruct Hin as [Hin|Hin]; [|right; by right].
      rewrite Hin. destruct (Nat.min_spec x z) as [[_ ->]|[_ ->]];
        [by left|right; by left].
    + lia.
    + intros y [->|Hy]%elem_of_cons; [lia|by apply Hall].
Qed.

Lemma py_min_spec (l : list nat) (m : nat) :
  py_min l = Ok m → m ∈ l ∧ ∀ y, y ∈ l → m ≤ y.
Proof.
  destruct l as [|x l]; [done|]. intros [= <-].
  destruct (foldl_min_spec l x) as (Hin & Hle & Hall). split.
  - destruct Hin as [->|Hin]; [by left|by right].
  - intros y [->|Hy]%elem_of_cons; [done|by apply Hall].
Qed.

Lemma py_min_returns (l : list nat) : l ≠ [] → returns (py_min l).
Proof. destruct l; [done|]. intros _. by eexists. Qed.

Lemma choice_spec a k g chosen g' :
  choice a k g = Ok (chosen, g') →
  length chosen = k ∧ Forall (λ i, i < a) chosen.
Proof.
  unfold choice. case_bool_decide as Hz; [done|]. intros [= <- <-].
  split; [by rewrite length_fmap, length_seq|].
  apply Forall_fmap, Forall_forall. intros j Hj. cbn.
  apply elem_of_seq in Hj.
  apply Nat.mod_upper_bound. intros ->. apply Hz. split; [done|lia].
Qed.

Lemma choice_returns a k g : (a = 0 → k = 0) → returns (choice a k g).
Proof.
  intros H. unfold choice. rewrite bool_decide_eq_false_2; [by eexists|].
  intros [Ha Hk]. auto.
Qed.

Lemma size_add_one (X : gset nat) (x : nat) : size (X ∪ {[x]}) ≤ size X + 1.
Proof.
  rewrite size_union_alt.
  assert (size ({[x]} ∖ X : gset nat) ≤ size ({[x]} : gset nat)) as H.
  { apply subseteq_size. apply subseteq_difference_l. done. }
  rewrite size_singleton in H. lia.
Qed.

Lemma add_choices_spec image_indexes chosen sample sample' :
  add_choices image_indexes chosen sample = Ok sample' →
  (∀ j, j ∈ sample' → j ∈ sample ∨ j ∈ image_indexes)
  ∧ size sample' ≤ size sample + length chosen.
Proof.
  revert sample. induction chosen as [|i chosen IH]; intros sample H; cbn in H.
  - injection H as <-. split; [by left|lia].
  - inv_bind H. apply py_get_Ok in Ha.
    apply IH in H as [Hin Hsize]. split.
    + intros j Hj. apply Hin in Hj as [Hj|Hj]; [|by right].
      apply elem_of_union in Hj as [Hj|Hj]; [by left|].
      apply elem_of_singleton in Hj as ->. right.
      by apply list_elem_of_lookup_2 in Ha.
    + pose proof (size_add_one sample a). cbn [length]. lia.
Qed.

Lemma add_choices_returns image_indexes chosen sample :
  Forall (λ i, i < length image_indexes) chosen →
  returns (add_choices image_indexes chosen sample).
Proof.
  revert sample. induction chosen as [|i chosen IH]; intros sample H; cbn.
  - by eexists.
  - apply Forall_cons in H as [Hi H].
    destruct (lookup_lt_is_Some_2 image_indexes i Hi) as [x Hx].
    rewrite (bind_of_Ok _ _ x) by by apply py_get_Ok.
    by apply IH.
Qed.

Lemma sample_classes_spec per_class m sample g sample' g' :
  sample_classes per_class m sample g = Ok (sample', g') →
  (∀ j, j ∈ sample' → j ∈ sample ∨ ∃ s, s ∈ per_class ∧ j ∈ s)
  ∧ size sample' ≤ size sample + length per_class * m.
Proof.
  revert sample g. induction per_class as [|s per_class IH]; intros sample g H;
    cbn in H.
  - injection H as <- <-. split; [by left|lia].
  - inv_bind H. destruct a as [chosen g1]. inv_bind H.
    apply choice_spec in Ha as [Hlen _].
    apply add_choices_spec in Ha0 as [Hin1 Hsize1].
    apply IH in H as [Hin2 Hsize2]. split.
    + intros j Hj. apply Hin2 in Hj as [Hj|(s' & Hs' & Hj)].
      * apply Hin1 in Hj as [Hj|Hj]; [by left|].
        right. exists s. split; [by left|]. by apply elem_of_elements.
      * right. exists s'. split; [by right|done].
    + cbn [length]. lia.
Qed.

Lemma sample_classes_returns per_class m sample g :
  Forall (λ s : gset nat, m ≤ size s) per_class →
  returns (sample_classes per_class m sample g).
Proof.
  revert sample g. induction per_class as [|s per_class IH]; intros sample g H;
    cbn.
  - by eexists.
  - apply Forall_cons in H as [Hs H].
    destruct (choice_returns (length (elements s)) m g) as [[chosen g1] Hc].
    { intros Hz. change (size s = 0) in Hz. lia. }
    rewrite (bind_of_Ok _ _ _ Hc). cbn.
    apply choice_spec in Hc as [_ Hlt].
    destruct (add_choices_returns (elements s) chosen sample Hlt) as [s1 H1].
    rewrite (bind_of_Ok _ _ _ H1). by apply IH.
Qed.

(** With a cap of zero nothing is drawn. *)
Lemma sample_classes_zero per_class sample g :
  ∃ g', sample_classes per_class 0 sample g = Ok (sample, g').
Proof.
  revert g. induction per_class as [|s per_class IH]; intros g; cbn.
  - by eexists.
  - unfold choice. rewrite bool_decide_eq_false_2 by (by intros [_ ?]).
    cbn. apply IH.
Qed.

Lemma collect_images_spec data idx l :
  collect_images data idx = Ok l →
  Forall2 (λ j x, data !! j = Some x) idx l.
Proof.
  revert l. induction idx as [|j idx IH]; intros l H; cbn in H.
  - injection H as <-. constructor.
  - inv_bind H. subst l. constructor; [by apply py_get_Ok|by apply IH].
Qed.

Lemma collect_images_returns data idx :
  Forall (λ j, j < length data) idx → returns (collect_images data idx).
Proof.
  induction idx as [|j idx IH]; intros H; cbn.
  - by eexists.
  - apply Forall_cons in H as [Hj H].
    destruct (lookup_lt_is_Some_2 data j Hj) as [x Hx].
    rewrite (bind_of_Ok _ _ x) by by apply py_get_Ok.
    destruct (IH H) as [rest ->]. by eexists.
Qed.

(** Images collected at distinct positions: each class is in no more of
    them than in the data they come from. *)
Lemma images_with_class_collected c data idx l :
  Forall2 (λ j x, data !! j = Some x) idx l → NoDup idx →
  images_with_class c l ≤ images_with_class c data
  ∧ images_with_class c l ≤ length idx.
Proof.
  intros HF Hnd.
  assert (images_with_class c l
          = length (filter (λ j, has_class_at c data j = true) idx)) as ->.
  { unfold images_with_class. clear Hnd.
    induction HF as [|j x idx l Hj HF IH]; [done|].
    rewrite !filter_cons.
    assert (has_class_at c data j = has_class c x) as E
      by (unfold has_class_at; by rewrite Hj).
    destruct (decide (has_class c x = true)),
             (decide (has_class_at c data j = true));
      cbn [length]; rewrite ?IH; try done; congruence. }
  split; [|apply length_filter].
  rewrite <- length_positions_with_class.
  apply submseteq_length, NoDup_submseteq; [by apply NoDup_filter|].
  intros j [Hc Hj]%list_elem_of_filter.
  apply list_elem_of_filter. split; [done|].
  apply elem_of_seq. split; [lia|]. cbn.
  unfold has_class_at in Hc.
  destruct (data !! j) eqn:E; [|done]. by apply lookup_lt_Some in E.
Qed.

(** What the first loop of [_balance_data] leaves in [label_image_indexes]:
    entry [c] is the set of the positions of the images with class [c]. *)
Lemma label_image_indexes_spec (names : list string) data lii :
  index_labels (enumerate data) (replicate (length names + 1) ∅) = Ok lii →
  length lii = length names + 1
  ∧ ∀ c, c ≤ length names →
      ∃ S : gset nat, lii !! c = Some S
        ∧ (∀ j, j ∈ S ↔ ∃ image, data !! j = Some image ∧ c ∈ labels image)
        ∧ size S = images_with_class c data.
Proof.
  intros H. apply index_labels_spec in H as [Hlen Hsets].
  rewrite length_replicate in Hlen, Hsets. split; [done|].
  intros c Hc. destruct (Hsets c) as (S0 & S & H0 & HS & Hmem); [lia|].
  apply lookup_replicate in H0 as [-> _].
  assert (∀ j, j ∈ S ↔ ∃ image, data !! j = Some image ∧ c ∈ labels image)
    as Hchar.
  { intros j. rewrite Hmem. split.
    - intros [Hj|(image & Hin & Hl)]; [by apply not_elem_of_empty in Hj|].
      exists image. by rewrite <- elem_of_enumerate.
    - intros (image & Hj & Hl). right. exists image.
      by rewrite elem_of_enumerate. }
  exists S. split; [done|]. split; [done|]. by apply size_class_positions.
Qed.

Lemma label_stat_spec (names : list string) data lii :
  index_labels (enumerate data) (replicate (length names + 1) ∅) = Ok lii →
  drop 1 (size <$> lii)
  = (λ c, images_with_class c data) <$> seq 1 (length names).
Proof.
  intros H. apply label_image_indexes_spec in H as [Hlen Hsets].
  apply list_eq. intros i. rewrite lookup_drop, !list_lookup_fmap.
  destruct (decide (i < length names)) as [Hi|Hi].
  - rewrite lookup_seq_lt by done.
    destruct (Hsets (1 + i)) as (S & -> & _ & Hsize); [lia|].
    cbn. by rewrite Hsize.
  - rewrite lookup_seq_ge by lia.
    rewrite lookup_ge_None_2 by lia. done.
Qed.

Lemma valid_labels_enumerate N data :
  valid_labels N data →
  Forall (λ p : nat * ImageRecord,
            Forall (λ l, l < length (replicate (N + 1) (∅ : gset nat)))
                   (labels p.2)) (enumerate data).
Proof.
  intros H. apply Forall_forall. intros [j image] Hin. cbn.
  apply elem_of_enumerate in Hin.
  rewrite length_replicate.
  eapply Forall_impl; [apply (Forall_lookup_1 _ _ _ _ H Hin)|].
  cbn. intros l Hl. lia.
Qed.

Lemma _balance_data_inv names data g m balanced g' :
  _balance_data names data g = Ok (m, balanced, g') →
  ∃ lii sample,
    index_labels (enumerate data) (replicate (length names + 1) ∅) = Ok lii
    ∧ py_min (drop 1 (size <$> lii)) = Ok m
    ∧ sample_classes (drop 1 lii) m ∅ g = Ok (sample, g')
    ∧ collect_images data (elements sample) = Ok balanced.
Proof.
  unfold _balance_data. intros H. inv_bind H.
  destruct a1 as [sample g1]. inv_bind H. subst.
  by exists a, sample.
Qed.

(** The positions sampled are positions of the data. *)
Lemma sampled_positions_in_range (names : list string) data lii m sample g g' :
  index_labels (enumerate data) (replicate (length names + 1) ∅) = Ok lii →
  sample_classes (drop 1 lii) m ∅ g = Ok (sample, g') →
  Forall (λ j, j < length data) (elements sample).
Proof.
  intros Hidx Hsample. apply Forall_forall. intros j Hj.
  apply elem_of_elements in Hj.
  apply label_image_indexes_spec in Hidx as [Hlen Hsets].
  apply sample_classes_spec in Hsample as [Hin _].
  apply Hin in Hj as [Hj|(s & Hs & Hj)]; [by apply not_elem_of_empty in Hj|].
  apply list_elem_of_lookup in Hs as [i Hi]. rewrite lookup_drop in Hi.
  assert (1 + i ≤ length names) as Hc.
  { apply lookup_lt_Some in Hi. lia. }
  destruct (Hsets (1 + i) Hc) as (S & HS & Hchar & _).
  assert (S = s) as -> by congruence.
  apply Hchar in Hj as (image & Himage & _). by apply lookup_lt_Some in Himage.
Qed.

(** [_balance_data] returns for every vocabulary with at least one class and
    every data whose labels lie within it. *)
Lemma _balance_data_returns names data g :
  names ≠ [] → valid_labels (length names) data →
  returns (_balance_data names data g).
Proof.
  intros Hnames Hvalid. unfold _balance_data.
  destruct (index_labels_returns _ _ (valid_labels_enumerate _ _ Hvalid))
    as [lii Hlii].
  rewrite (bind_of_Ok _ _ _ Hlii).
  pose proof (label_stat_spec _ _ _ Hlii) as Hstat.
  destruct (py_min_returns (drop 1 (size <$> lii))) as [m Hm].
  { rewrite Hstat. destruct names; [done|]. done. }
  rewrite (bind_of_Ok _ _ _ Hm).
  destruct (sample_classes_returns (drop 1 lii) m ∅ g) as [[sample g'] Hs].
  { apply py_min_spec in Hm as [_ Hle]. apply Forall_forall. intros s Hs.
    apply Hle. rewrite <- fmap_drop. by apply list_elem_of_fmap_2. }
  rewrite (bind_of_Ok _ _ _ Hs). cbn.
  destruct (collect_images_returns data (elements sample)) as [balanced Hb].
  { by eapply sampled_positions_in_range. }
  rewrite (bind_of_Ok _ _ _ Hb). by eexists.
Qed.

(** C1 as stated fails on the scenario of the specification itself: class A
    is in both images, B and C in one each, so the cap is 1, and whatever is
    drawn both images are kept, with A in two of them. *)
Lemma balanced_within_min_count_counterexample : ¬ balanced_within_min_count.
Proof.
  intros H.
  specialize (H Scenario.names Scenario.images Scenario.zeros 1
                [Scenario.img1; Scenario.img0]
                {| tape := tape Scenario.zeros; cursor := 3 |} 1 1).
  assert (2 ≤ 1) as Habs; [|lia].
  apply H; [reflexivity|reflexivity|cbn; lia|vm_compute; lia].
Qed.

(** The cap is the least class count of the data, and at most that many
    images are kept for each class of the vocabulary. *)
Lemma _balance_data_cap names data g m balanced g' :
  _balance_data names data g = Ok (m, balanced, g') →
  min_class_count (length names) data = Ok m
  ∧ length balanced ≤ length names * m.
Proof.
  intros H.
  apply _balance_data_inv in H as (lii & sample & Hidx & Hmin & Hsample & Hcol).
  pose proof (label_image_indexes_spec _ _ _ Hidx) as [Hlen _].
  split.
  - unfold min_class_count. by rewrite <- (label_stat_spec _ _ _ Hidx).
  - rewrite <- (Forall2_length _ _ _ (collect_images_spec _ _ _ Hcol)).
    apply sample_classes_spec in Hsample as [_ Hsize].
    rewrite size_empty, length_drop, Hlen in Hsize.
    change (size sample ≤ length names * m).
    replace (length names + 1 - 1) with (length names) in Hsize by lia. lia.
Qed.

(** C1, amended: the cap [min_image_num] is the least class count of the
    original data; the balanced data has at most [N * min_image_num] images
    ([N] the number of classes), and a class is in no more images of it than
    that, nor than in the original data. *)
Theorem balanced_class_counts names data g m balanced g' :
  _balance_data names data g = Ok (m, balanced, g') →
  min_class_count (length names) data = Ok m
  ∧ length balanced ≤ length names * m
  ∧ ∀ c, images_with_class c balanced ≤ images_with_class c data
         ∧ images_with_class c balanced ≤ length names * m.
Proof.
  intros H. destruct (_balance_data_cap _ _ _ _ _ _ H) as [Hmin Hlen].
  split; [done|]. split; [done|]. intros c.
  apply _balance_data_inv in H as (lii & sample & _ & _ & _ & Hcol).
  pose proof (collect_images_spec _ _ _ Hcol) as HF.
  destruct (images_with_class_collected c data _ _ HF (NoDup_elements sample))
    as [Hdata _].
  split; [done|].
  etrans; [apply length_filter|done].
Qed.

Lemma balanced_class_counts_witness :
  _balance_data Scenario.names Scenario.images Scenario.zeros
    = Ok (1, [Scenario.img1; Scenario.img0],
          {| tape := tape Scenario.zeros; cursor := 3 |})
  ∧ min_class_count 3 Scenario.images = Ok 1
  ∧ images_with_class 1 [Scenario.img1; Scenario.img0] ≤ 3 * 1.
Proof.
  split; [reflexivity|].
  destruct (balanced_class_counts Scenario.names Scenario.images Scenario.zeros
              1 [Scenario.img1; Scenario.img0]
              {| tape := tape Scenario.zeros; cursor := 3 |} eq_refl)
    as (Hmin & _ & Hc).
  split; [exact Hmin|exact (proj2 (Hc 1))].
Defined.

(** C5: when some class of the vocabulary has no image, the cap is 0 and
    balancing returns the empty dataset, without an error. *)
Theorem balance_with_empty_class names data g c :
  valid_labels (length names) data →
  1 ≤ c ≤ length names →
  images_with_class c data = 0 →
  min_class_count (length names) data = Ok 0
  ∧ ∃ g', _balance_data names data g = Ok (0, [], g').
Proof.
  intros Hvalid Hc Hzero.
  assert (names ≠ []) as Hnames by (destruct names; cbn in Hc; [lia|done]).
  destruct (_balance_data_returns names data g Hnames Hvalid)
    as [[[m balanced] g'] Hret].
  pose proof (_balance_data_cap _ _ _ _ _ _ Hret) as (Hmin & Hlen).
  assert (m = 0) as ->.
  { unfold min_class_count in Hmin. apply py_min_spec in Hmin as [_ Hle].
    specialize (Hle (images_with_class c data)). rewrite Hzero in Hle.
    apply Nat.le_0_r, Hle.
    apply (list_elem_of_fmap_2' _ _ c); [apply elem_of_seq; lia|done]. }
  split; [done|]. exists g'.
  rewrite Nat.mul_0_r in Hlen. destruct balanced; [done|cbn in Hlen; lia].
Qed.

Lemma balance_with_empty_class_witness :
  valid_labels 3 Scenario.sparse_images
  ∧ images_with_class 3 Scenario.sparse_images = 0
  ∧ min_class_count 3 Scenario.sparse_images = Ok 0
  ∧ ∃ g', _balance_data Scenario.names Scenario.sparse_images Scenario.zeros
          = Ok (0, [], g').
Proof.
  assert (valid_labels 3 Scenario.sparse_images) as Hv.
  { repeat constructor. }
  split; [exact Hv|]. split; [reflexivity|].
  apply (balance_with_empty_class Scenario.names Scenario.sparse_images
           Scenario.zeros 3 Hv); [cbn; lia|reflexivity].
Defined.

(** *** The labels that [_read_data] assigns *)

Lemma make_class_dict_range names n v :
  make_class_dict names !! n = Some v → 1 ≤ v ≤ length names.
Proof.
  unfold make_class_dict.
  assert (∀ (l : list (nat * string)) (d : gmap string nat),
            (∀ n v, d !! n = Some v → 1 ≤ v ≤ length names) →
            Forall (λ p, p.1 < length names) l →
            ∀ n v, foldl (λ d p, <[p.2 := p.1 + 1]> d) d l !! n = Some v →
                   1 ≤ v ≤ length names) as Hfold.
  { induction l as [|p l IH]; intros d Hd Hl k w; cbn; [by apply Hd|].
    apply Forall_cons in Hl as [Hp Hl]. apply IH; [|done].
    intros k' w' [[_ <-]|[_ Hk]]%lookup_insert_Some; [lia|by eapply Hd]. }
  apply Hfold.
  - intros k w Hk. by rewrite lookup_empty in Hk.
  - apply Forall_forall. intros [j x] Hin. cbn.
    apply elem_of_enumerate in Hin. by apply lookup_lt_Some in Hin.
Qed.

Lemma lookup_labels_range d names ls N :
  (∀ n v, d !! n = Some v → 1 ≤ v ≤ N) →
  lookup_labels d names = Ok ls → Forall (λ l, l ≤ N) ls.
Proof.
  intros Hd. revert ls. induction names as [|n names IH]; intros ls H; cbn in H.
  - injection H as <-. constructor.
  - inv_bind H. subst ls. constructor; [|by apply IH].
    unfold dict_get in Ha. destruct (d !! n) as [v|] eqn:E; [|done].
    injection Ha as <-. apply Hd in E. lia.
Qed.

Lemma read_groups_valid_labels df d groups data N :
  (∀ n v, d !! n = Some v → 1 ≤ v ≤ N) →
  read_groups df d groups = Ok data → valid_labels N data.
Proof.
  intros Hd. revert data.
  induction groups as [|[id rows] groups IH]; intros data H; cbn in H.
  - injection H as <-. constructor.
  - inv_bind H. subst data. constructor; [|by apply IH].
    cbn. by eapply lookup_labels_range.
Qed.

(** The labels of the records that [_read_data] returns lie within the
    vocabulary it returns. *)
Lemma _read_data_valid_labels disk root dataset_type data names dict :
  _read_data disk root dataset_type = Ok (data, names, dict) →
  valid_labels (length names) data.
Proof.
  unfold _read_data. intros H. inv_bind H. subst.
  eapply read_groups_valid_labels; [|done].
  apply make_class_dict_range.
Qed.

(** A class without an image does come out of [_read_data]: a row without
    [ImageID] adds its class to the vocabulary and to no image, and the
    balanced dataset is then empty. *)
Lemma new_dataset_orphan_class :
  (λ r, (data r.1, class_names r.1, min_image_num r.1))
    <$> (match new_dataset Scenario.disk_orphan Scenario.zeros "data" None None
                 "train" true with
         | Ok r => Some r
         | Raise _ => None
         end)
  = Some ([], ["A"; "B"], 0%Z).
Proof. vm_compute. reflexivity. Qed.

(** ** Facts about the training script *)

Section TrainingFacts.
Context `{C : Collaborators}.

Lemma train_step_spec groups frz debug_steps st i data st' :
  train_step groups frz debug_steps st i data = Ok st' →
  epoch_loss st'
    = (epoch_loss st + ((forward_loss (tl_weights st) data).1
                        + (forward_loss (tl_weights st) data).2))%Q
  ∧ epoch_regression_loss st'
    = (epoch_regression_loss st + (forward_loss (tl_weights st) data).1)%Q
  ∧ epoch_classification_loss st'
    = (epoch_classification_loss st + (forward_loss (tl_weights st) data).2)%Q
  ∧ tl_weights st' = (sgd_step groups frz (tl_weights st) (tl_opt_state st) data).1
  ∧ tl_opt_state st' = (sgd_step groups frz (tl_weights st) (tl_opt_state st) data).2
  ∧ epoch_steps st' = epoch_steps st + 1.
Proof.
  unfold train_step.
  destruct (forward_loss (tl_weights st) data) as [r c].
  destruct (sgd_step groups frz (tl_weights st) (tl_opt_state st) data) as [w buf].
  repeat case_bool_decide; intros [= <-]; cbn; done.
Qed.

Lemma train_step_returns groups frz debug_steps st i data :
  debug_steps ≠ 0%Z → returns (train_step groups frz debug_steps st i data).
Proof.
  intros Hd. unfold train_step.
  destruct (forward_loss (tl_weights st) data) as [r c].
  destruct (sgd_step groups frz (tl_weights st) (tl_opt_state st) data) as [w buf].
  repeat case_bool_decide; try done; by eexists.
Qed.

Lemma train_steps_returns groups frz debug_steps st batches :
  debug_steps ≠ 0%Z → returns (train_steps groups frz debug_steps st batches).
Proof.
  intros Hd. revert st. induction batches as [|[i data] batches IH]; intros st; cbn.
  - by eexists.
  - destruct (train_step_returns groups frz debug_steps st i data Hd) as [st1 H1].
    rewrite (bind_of_Ok _ _ _ H1). apply IH.
Qed.

Lemma Qsum_cons x l : Qsum (x :: l) = (x + Qsum l)%Q.
Proof. reflexivity. Qed.

(** The epoch totals grow by the losses of the batches, whatever the
    short-window totals do. *)
Lemma train_steps_spec groups frz debug_steps st batches st' :
  train_steps groups frz debug_steps st batches = Ok st' →
  let L := batch_losses groups frz (tl_weights st) (tl_opt_state st) batches.*2 in
  (epoch_loss st' == epoch_loss st + Qsum ((λ p, p.1 + p.2) <$> L))%Q
  ∧ (epoch_regression_loss st' == epoch_regression_loss st + Qsum (fst <$> L))%Q
  ∧ (epoch_classification_loss st'
     == epoch_classification_loss st + Qsum (snd <$> L))%Q
  ∧ epoch_steps st' = epoch_steps st + length batches.
Proof.
  revert st. induction batches as [|[i data] batches IH]; intros st H; cbn in H.
  - injection H as <-.
    cbn [fmap list_fmap batch_losses Qsum foldr length].
    repeat split; try ring. lia.
  - inv_bind H. apply train_step_spec in Ha as (E1 & E2 & E3 & Ew & Eb & Es).
    apply IH in H as (H1 & H2 & H3 & H4). rewrite Ew, Eb in H1, H2, H3.
    cbn [fmap list_fmap batch_losses length snd fst] in *.
    rewrite !Qsum_cons. cbn [fst snd].
    rewrite E1 in H1. rewrite E2 in H2. rewrite E3 in H3.
    repeat split.
    + rewrite H1. ring.
    + rewrite H2. ring.
    + rewrite H3. ring.
    + lia.
Qed.

Lemma snd_enumerate {A} (l : list A) : (enumerate l).*2 = l.
Proof. unfold enumerate. apply snd_zip. by rewrite length_seq. Qed.

Lemma py_div_Ok x n q : py_div x n = Ok q → n ≠ 0%Z ∧ q = (x / Q_of_Z n)%Q.
Proof. unfold py_div. case_bool_decide; [done|]. by intros [= <-]. Qed.

(** C7: on a loader with at least one batch, the three values [train]
    returns are the sums of the per-batch total, regression and
    classification losses, each divided by the number of batches; and
    [train] does return them when [debug_steps] is not zero. *)
Theorem train_epoch_average loader net optimizer debug_steps :
  loader ≠ [] →
  let L := batch_losses (param_groups optimizer) (frozen net) (weights net)
             (opt_state optimizer) loader in
  let n := Q_of_nat (length loader) in
  (∀ r, train loader net optimizer debug_steps = Ok r →
     (r.(tr_losses).1.1 == Qsum ((λ p, p.1 + p.2) <$> L) / n)%Q
     ∧ (r.(tr_losses).1.2 == Qsum (fst <$> L) / n)%Q
     ∧ (r.(tr_losses).2 == Qsum (snd <$> L) / n)%Q)
  ∧ (debug_steps ≠ 0%Z → returns (train loader net optimizer debug_steps)).
Proof.
  intros Hne L n. split.
  - intros r H. unfold train in H. inv_bind H. subst r. cbn.
    apply train_steps_spec in Ha as (H1 & H2 & H3 & _).
    rewrite snd_enumerate in H1, H2, H3. cbn in H1, H2, H3.
    apply py_div_Ok in Ha0 as [_ ->].
    apply py_div_Ok in Ha1 as [_ ->].
    apply py_div_Ok in Ha2 as [_ ->].
    fold L in H1, H2, H3. unfold n, Q_of_nat, Q_of_Z.
    rewrite H1, H2, H3. repeat split; apply Qdiv_comp; try reflexivity; ring.
  - intros Hd. unfold train.
    destruct (train_steps_returns (param_groups optimizer) (frozen net)
                debug_steps
                {| running_loss := 0; running_regression_loss := 0;
                   running_classification_loss := 0;
                   epoch_loss := 0; epoch_regression_loss := 0;
                   epoch_classification_loss := 0; epoch_steps := 0;
                   tl_weights := weights net;
                   tl_opt_state := opt_state optimizer;
                   tl_progress := [] |} (enumerate loader) Hd) as [st Hst].
    rewrite (bind_of_Ok _ _ _ Hst).
    assert (Z.of_nat (length loader) ≠ 0%Z) as Hn
      by (destruct loader; [done|cbn; lia]).
    unfold py_div. rewrite (bool_decide_eq_false_2 _ Hn). cbn. by eexists.
Qed.

End TrainingFacts.

Section StartupFacts.
Context `{C : Collaborators}.

Lemma new_optimizer_groups a o :
  new_optimizer a = Ok o →
  param_groups o
  = if freeze_base_net a then
      [ {| pg_params := extra_parts; pg_lr := default (lr a) (extra_layers_lr a);
           pg_momentum := momentum a; pg_weight_decay := weight_decay a;
           pg_initial_lr := None |};
        {| pg_params := head_parts; pg_lr := lr a;
           pg_momentum := momentum a; pg_weight_decay := weight_decay a;
           pg_initial_lr := None |} ]
    else if freeze_net a then
      [ {| pg_params := head_parts; pg_lr := lr a;
           pg_momentum := momentum a; pg_weight_decay := weight_decay a;
           pg_initial_lr := None |} ]
    else
      [ {| pg_params := [part_base_net]; pg_lr := default (lr a) (base_net_lr a);
           pg_momentum := momentum a; pg_weight_decay := weight_decay a;
           pg_initial_lr := None |};
        {| pg_params := extra_parts; pg_lr := default (lr a) (extra_layers_lr a);
           pg_momentum := momentum a; pg_weight_decay := weight_decay a;
           pg_initial_lr := None |};
        {| pg_params := head_parts; pg_lr := lr a;
           pg_momentum := momentum a; pg_weight_decay := weight_decay a;
           pg_initial_lr := None |} ].
Proof.
  unfold new_optimizer, optimizer_params, freeze_policy.
  destruct (freeze_base_net a); [by intros [= <-]|].
  destruct (freeze_net a); [|by intros [= <-]].
  cbn. case_bool_decide; [done|]. by intros [= <-].
Qed.

(** C2, amended: a run that does not give [--extra-layers-lr] creates the
    group of the extra layers with the global rate; a run that does not give
    [--base-net-lr] creates the group of the backbone with the default of that
    option, 0.001.  Without a freeze flag both groups exist. *)
Theorem unconfigured_rates cl o :
  new_optimizer (parse_args cl) = Ok o →
  (cl_extra_layers_lr cl = None →
   ∀ part r, part ∈ extra_parts → lr_of_part o part = Some r →
             r = lr (parse_args cl))
  ∧ (cl_base_net_lr cl = None →
     ∀ r, lr_of_part o part_base_net = Some r → r = (1 # 1000)%Q)
  ∧ (cl_freeze_base_net cl = false → cl_freeze_net cl = false →
     is_Some (lr_of_part o part_base_net)
     ∧ is_Some (lr_of_part o part_source_layer_add_ons)
     ∧ is_Some (lr_of_part o part_extras)).
Proof.
  intros H. apply new_optimizer_groups in H. unfold lr_of_part. rewrite H.
  cbn [parse_args freeze_base_net freeze_net extra_layers_lr base_net_lr lr
       momentum weight_decay].
  split; [|split].
  - intros -> part r Hpart.
    apply elem_of_cons in Hpart as [->|Hpart];
      [|apply list_elem_of_singleton in Hpart as ->];
      destruct (cl_freeze_base_net cl), (cl_freeze_net cl); cbn;
      by intros [= <-].
  - intros -> r.
    destruct (cl_freeze_base_net cl), (cl_freeze_net cl); cbn; by intros [= <-].
  - intros -> ->. cbn. repeat split; by eexists.
Qed.

Lemma load_state_dict_length o saved o' :
  load_state_dict o saved = Ok o' →
  length (param_groups o') = length (param_groups o)
  ∧ length (param_groups saved) = length (param_groups o)
  ∧ opt_state o' = opt_state saved
  ∧ pg_lr <$> param_groups o' = pg_lr <$> param_groups saved
  ∧ pg_momentum <$> param_groups o' = pg_momentum <$> param_groups saved
  ∧ pg_weight_decay <$> param_groups o' = pg_weight_decay <$> param_groups saved
  ∧ pg_initial_lr <$> param_groups o' = pg_initial_lr <$> param_groups saved.
Proof.
  unfold load_state_dict. case_bool_decide as Hlen; [done|].
  case_bool_decide; [done|]. intros [= <-]. cbn.
  assert (length (param_groups o) = length (param_groups saved)) as Hl.
  { destruct (decide (length (param_groups o) = length (param_groups saved)));
      [done|]. by destruct Hlen. }
  clear Hlen. revert Hl.
  generalize (param_groups o) (param_groups saved).
  induction l as [|g l IH]; intros [|sg l0] Hl; try done.
  cbn in *. injection Hl as Hl. destruct (IH l0 Hl) as (E1 & E2 & _ & E3 & E4 & E5 & E6).
  repeat split; try congruence; by f_equal.
Qed.

(** The optimizer that leaves [load_and_optimize] has as many groups as the
    freeze flags make. *)
Lemma load_and_optimize_groups a env files n o r l :
  load_and_optimize a env files = Ok (n, o, r, l) →
  length (param_groups o)
  = if freeze_base_net a then 2 else if freeze_net a then 1 else 3.
Proof.
  unfold load_and_optimize. intros H. inv_bind H.
  apply new_optimizer_groups in Ha1.
  assert (length (param_groups a2)
          = if freeze_base_net a then 2 else if freeze_net a then 1 else 3) as Hl.
  { rewrite Ha1. by destruct (freeze_base_net a), (freeze_net a). }
  destruct (truthy (resume a)) as [path|].
  - inv_bind H. subst. apply load_state_dict_length in Ha4 as [-> _]. done.
  - inv_bind H. by subst.
Qed.

(** C10: with [--freeze-base-net] the optimizer has two groups, with
    [--freeze-net] alone one, and only without them the three that the read
    of [optimizer.param_groups[2]] needs.  Under either flag that read raises
    [IndexError] whenever the script gets to it (and so would the read of
    [param_groups[1]] under [--freeze-net] alone), so the start always fails
    and [main] ends before any epoch. *)
Theorem frozen_run_fails_at_start cl env files :
  let a := parse_args cl in
  (∀ o, new_optimizer a = Ok o →
     length (param_groups o)
     = if cl_freeze_base_net cl then 2 else if cl_freeze_net cl then 1 else 3)
  ∧ (cl_freeze_base_net cl = true ∨ cl_freeze_net cl = true →
     (∀ loaded, load_and_optimize a env files = Ok loaded →
        group_lr loaded.1.1.2 2 = Raise IndexError
        ∧ report_rates_and_schedule a files loaded = Raise IndexError)
     ∧ (cl_freeze_base_net cl = false →
        ∀ loaded, load_and_optimize a env files = Ok loaded →
                  group_lr loaded.1.1.2 1 = Raise IndexError)
     ∧ (select_net a = Ok () → returns (load_and_optimize a env files) →
        startup a env files = Raise IndexError)
     ∧ raises (startup a env files)
     ∧ ∃ e, main cl env files = (Raise e, None)).
Proof.
  intros a. split.
  { intros o Ho. apply new_optimizer_groups in Ho. rewrite Ho.
    change (freeze_base_net a) with (cl_freeze_base_net cl).
    change (freeze_net a) with (cl_freeze_net cl).
    by destruct (cl_freeze_base_net cl), (cl_freeze_net cl). }
  intros Hfrozen.
  assert (∀ loaded, load_and_optimize a env files = Ok loaded →
            group_lr loaded.1.1.2 2 = Raise IndexError
            ∧ report_rates_and_schedule a files loaded = Raise IndexError)
    as Hread.
  { intros [[[n o] r] l] Hl. apply load_and_optimize_groups in Hl.
    change (freeze_base_net a) with (cl_freeze_base_net cl) in Hl.
    change (freeze_net a) with (cl_freeze_net cl) in Hl.
    assert (group_lr o 2 = Raise IndexError) as Hg.
    { unfold group_lr. rewrite py_get_ge; [done|].
      destruct Hfrozen as [Hf|Hf]; rewrite Hf in Hl;
        destruct (cl_freeze_base_net cl); lia. }
    split; [done|]. unfold report_rates_and_schedule. by rewrite Hg. }
  assert (raises (startup a env files)) as Hraises.
  { unfold startup. destruct (select_net a) as [[]|e]; [|by exists e].
    cbn. destruct (load_and_optimize a env files) as [loaded|e] eqn:Hl;
      [|by exists e].
    cbn. exists IndexError. by apply Hread. }
  split; [done|]. split; [|split; [|split; [done|]]].
  - intros Hbase [[[n o] r] l] Hl. apply load_and_optimize_groups in Hl.
    change (freeze_base_net a) with (cl_freeze_base_net cl) in Hl.
    change (freeze_net a) with (cl_freeze_net cl) in Hl.
    destruct Hfrozen as [Hf|Hf]; [congruence|].
    rewrite Hbase, Hf in Hl.
    unfold group_lr. rewrite py_get_ge; [done|]. cbn. lia.
  - intros Hsel [loaded Hl]. unfold startup. rewrite Hsel, Hl. cbn.
    by apply Hread.
  - destruct Hraises as [e He]. exists e. unfold main. fold a. by rewrite He.
Qed.

Lemma scheduler_groups_options last_epoch groups gs :
  scheduler_groups last_epoch groups = Ok gs →
  pg_lr <$> gs = pg_lr <$> groups
  ∧ pg_momentum <$> gs = pg_momentum <$> groups
  ∧ pg_weight_decay <$> gs = pg_weight_decay <$> groups.
Proof.
  unfold scheduler_groups. repeat case_bool_decide; try done;
    intros [= <-]; try done.
  by rewrite <- !list_fmap_compose.
Qed.

(** Making the scheduler leaves the state of the optimizer as it finds it;
    only the groups can change, and [ReduceLROnPlateau] leaves these too. *)
Lemma make_scheduler_state a o last_epoch sch o' :
  make_scheduler a o last_epoch = Ok (sch, o') →
  opt_state o' = opt_state o
  ∧ (scheduler a = "reduce-on-plateau" → o' = o).
Proof.
  unfold make_scheduler, initial_step. intros H.
  repeat case_bool_decide; try done; inv_bind H;
    try (destruct (scheduler_step _ _ _) as [sch1 gs1] eqn:Hstep;
         injection H as <- <-; cbn; split; [done|congruence]).
  by subst.
Qed.

Lemma head_py_range start stop :
  (start < stop)%Z → head (py_range start stop) = Some start.
Proof.
  intros H. unfold py_range.
  destruct (Z.to_nat (stop - start)) as [|n] eqn:E; [lia|].
  cbn. f_equal. lia.
Qed.


(** The scheduler is called with [val_loss] at the end of the pass and
    nowhere else: a pass that completes adds one call, a pass that raises
    adds none.  At an epoch with validation the value is the loss that [test]
    gives for the network as the pass leaves it. *)
Lemma epoch_body_scheduler_call a env epoch s r s' :
  epoch_body a env epoch s = (r, s') →
  match r with
  | Ok _ =>
      ∃ v, s_scheduler_calls s' = s_scheduler_calls s ++ [(epoch, v)]
           ∧ v ≠ PyNone
           ∧ (validates a epoch = Ok false → v = PyInt 0)
           ∧ (validates a epoch = Ok true →
              ∃ val_losses, test (val_loader env) (s_net s') = Ok val_losses
                            ∧ v = PyFloat val_losses.1.1)
  | Raise _ => s_scheduler_calls s' = s_scheduler_calls s
  end.
Proof.
  unfold epoch_body, validates, mbind, Run_mbind, run_bind, get, lift, modify,
    mret, Run_mret, run_ret.
  destruct (train _ _ _ _) as [tr|e]; [|by intros [= <- <-]].
  destruct (interval_hit epoch (validation_epochs a) (num_epochs a))
    as [[|]|e]; [| |by intros [= <- <-]].
  - destruct (test _ _) as [val_losses|e] eqn:Htest; [|by intros [= <- <-]].
    destruct (interval_hit epoch (checkpoint_epochs a) (num_epochs a))
      as [[|]|e]; [| |by intros [= <- <-]].
    + cbn [s_model_path after_validation].
      unfold after_scheduler_step. destruct (scheduler_step _ _ _).
      intros [= <- <-]. cbn. eexists. repeat split; try done.
      intros _. by exists val_losses.
    + unfold after_scheduler_step. destruct (scheduler_step _ _ _).
      intros [= <- <-]. cbn. eexists. repeat split; try done.
      intros _. by exists val_losses.
  - destruct (interval_hit epoch (checkpoint_epochs a) (num_epochs a))
      as [[|]|e]; [| |by intros [= <- <-]].
    + cbn [s_model_path after_train].
      destruct (s_model_path s); [|by intros [= <- <-]].
      unfold after_scheduler_step. destruct (scheduler_step _ _ _).
      intros [= <- <-]. cbn. eexists. repeat split; done.
    + unfold after_scheduler_step. destruct (scheduler_step _ _ _).
      intros [= <- <-]. cbn. eexists. repeat split; done.
Qed.

(** The session after the first pass, and after a further one. *)
Lemma for_each_take_S epoch epochs (body : Z → Run unit) s s1 n :
  body epoch s = (Ok (), s1) →
  (for_each (take (S n) (epoch :: epochs)) body s).2
  = (for_each (take n epochs) body s1).2.
Proof.
  intros H. cbn. unfold mbind, Run_mbind, run_bind. by rewrite H.
Qed.

Lemma for_each_scheduler_calls a env epochs s r s' :
  for_each epochs (epoch_body a env) s = (r, s') →
  ∃ calls,
    s_scheduler_calls s' = s_scheduler_calls s ++ calls
    ∧ calls.*1 `prefix_of` epochs
    ∧ (r = Ok () → calls.*1 = epochs)
    ∧ Forall (λ call, call.2 ≠ PyNone
                      ∧ (validates a call.1 = Ok false → call.2 = PyInt 0)) calls
    ∧ ∀ i epoch v,
        calls !! i = Some (epoch, v) → validates a epoch = Ok true →
        ∃ val_losses,
          test (val_loader env)
            (s_net (for_each (take (S i) epochs) (epoch_body a env) s).2)
          = Ok val_losses
          ∧ v = PyFloat val_losses.1.1.
Proof.
  revert s. induction epochs as [|epoch epochs IH]; intros s H; cbn in H.
  - injection H as <- <-. exists []. rewrite app_nil_r.
    repeat split; try done.
  - unfold mbind, Run_mbind, run_bind in H.
    destruct (epoch_body a env epoch s) as [[[]|e] s1] eqn:Hbody;
      pose proof (epoch_body_scheduler_call _ _ _ _ _ _ Hbody) as Hcall.
    + destruct Hcall as (v & Hcalls & Hnone & Hzero & Hval).
      apply IH in H as (calls & Hc & Hpre & Hall & HF & Hpin).
      exists ((epoch, v) :: calls). rewrite Hc, Hcalls, <- app_assoc.
      repeat split; try done.
      * cbn. by apply prefix_cons.
      * intros Hr. cbn. f_equal. by apply Hall.
      * by constructor.
      * intros i epoch' v' Hi Hv. rewrite (for_each_take_S _ _ _ _ _ _ Hbody).
        destruct i as [|i]; cbn in Hi.
        -- injection Hi as <- <-. rewrite take_0. cbn. by apply Hval.
        -- by apply (Hpin i epoch' v').
    + injection H as <- <-. exists []. rewrite app_nil_r.
      repeat split; try done. apply prefix_nil.
Qed.

(** C9: every pass of the epoch loop that runs to its end calls
    [scheduler.step] once, with the [val_loss] of that pass: the calls are
    those of the epochs of the loop, one each and in order (of the epochs
    completed, if an exception ends the run).  The value is never [None]; it
    is the integer 0 for every epoch at which validation did not run, and for
    an epoch with validation it is the loss that [test] gives on the
    validation loader for the network of that pass. *)
Theorem scheduler_stepped_once_per_epoch a env s r s' :
  epoch_loop a env s = (r, s') →
  ∃ calls,
    s_scheduler_calls s' = s_scheduler_calls s ++ calls
    ∧ calls.*1 `prefix_of` epochs_of a s
    ∧ (r = Ok () → calls.*1 = epochs_of a s)
    ∧ Forall (λ call, call.2 ≠ PyNone
                      ∧ (validates a call.1 = Ok false → call.2 = PyInt 0)) calls
    ∧ ∀ i epoch v,
        calls !! i = Some (epoch, v) → validates a epoch = Ok true →
        ∃ val_losses,
          test (val_loader env) (s_net (session_after a env s (S i)))
          = Ok val_losses
          ∧ v = PyFloat val_losses.1.1.
Proof. unfold epoch_loop, session_after. apply for_each_scheduler_calls. Qed.

End StartupFacts.

(** ** The statements at concrete runs *)

Lemma train_epoch_average_witness :
  Toy.batches [(1, 2)%Q; (3, 4)%Q] ≠ []
  ∧ ∃ r, @train Toy.toy (Toy.batches [(1, 2)%Q; (3, 4)%Q]) Toy.net0
           Toy.optimizer0 10 = Ok r
         ∧ (r.(tr_losses).1.1 == 5)%Q ∧ (r.(tr_losses).1.2 == 2)%Q
         ∧ (r.(tr_losses).2 == 3)%Q.
Proof.
  assert (Toy.batches [(1, 2)%Q; (3, 4)%Q] ≠ []) as Hne by done.
  split; [exact Hne|].
  destruct (train_epoch_average (C := Toy.toy) _ Toy.net0 Toy.optimizer0 10 Hne)
    as [Hval Hret].
  destruct Hret as [r Hr]; [done|].
  exists r. split; [exact Hr|].
  destruct (Hval r Hr) as (H1 & H2 & H3).
  rewrite H1, H2, H3. repeat split; reflexivity.
Defined.

(** C2 as stated fails: with no option given, the group of the backbone
    has the rate 0.001, and the global rate is 0.01. *)
Lemma unconfigured_rates_are_global_counterexample :
  ¬ @unconfigured_rates_are_global Toy.toy.
Proof.
  intros H.
  destruct (H Toy.no_options _ eq_refl) as [Hbase _].
  specialize (Hbase eq_refl (1 # 1000)%Q eq_refl).
  vm_compute in Hbase. discriminate Hbase.
Qed.

Lemma unconfigured_rates_witness :
  ∃ o, @new_optimizer Toy.toy (parse_args Toy.no_options) = Ok o
       ∧ lr_of_part o part_extras = Some (lr (parse_args Toy.no_options))
       ∧ lr_of_part o part_base_net = Some (1 # 1000)%Q.
Proof.
  eexists. split; [reflexivity|].
  destruct (unconfigured_rates (C := Toy.toy) Toy.no_options _ eq_refl)
    as (Hextra & Hbase & Hsome).
  destruct (Hsome eq_refl eq_refl) as ([rb Hb] & _ & [re He]).
  split.
  - rewrite He. f_equal. apply (Hextra eq_refl part_extras re); [|exact He].
    apply elem_of_cons. right. apply elem_of_cons. by left.
  - rewrite Hb. f_equal. exact (Hbase eq_refl rb Hb).
Defined.

Lemma frozen_run_fails_at_start_witness :
  cl_freeze_net (Toy.options 2 1 1 None false true) = true
  ∧ @main Toy.toy (Toy.options 2 1 1 None false true) Toy.env Toy.files
    = (Raise IndexError, None).
Proof.
  split; [reflexivity|].
  destruct (frozen_run_fails_at_start (C := Toy.toy)
              (Toy.options 2 1 1 None false true) Toy.env Toy.files)
    as [_ H].
  destruct (H (or_intror eq_refl)) as (_ & _ & Hstart & _).
  unfold main. rewrite Hstart; [reflexivity|reflexivity|].
  apply is_ok_returns. vm_compute. reflexivity.
Defined.


Lemma scheduler_stepped_once_per_epoch_witness :
  ∃ calls,
    s_scheduler_calls
      (@epoch_loop Toy.toy (parse_args (Toy.options 3 2 1 None false false))
         Toy.env Toy.session0).2
    = s_scheduler_calls Toy.session0 ++ calls
    ∧ calls.*1 = [0; 1; 2; 3]%Z
    ∧ ∃ v, calls !! 0 = Some (0%Z, v) ∧ v = PyFloat 2.
Proof.
  pose proof (surjective_pairing
                (@epoch_loop Toy.toy
                   (parse_args (Toy.options 3 2 1 None false false))
                   Toy.env Toy.session0)) as Hloop.
  destruct (scheduler_stepped_once_per_epoch (C := Toy.toy) _ _ _ _ _ Hloop)
    as (calls & Hcalls & _ & Hall & _ & Hpin).
  exists calls. split; [exact Hcalls|].
  assert (calls.*1 = [0; 1; 2; 3]%Z) as Hepochs
    by (rewrite Hall; vm_compute; reflexivity).
  split; [exact Hepochs|].
  destruct calls as [|[epoch v] calls]; [done|].
  injection Hepochs as -> _. exists v. split; [reflexivity|].
  destruct (Hpin 0 0%Z v eq_refl eq_refl) as (val_losses & Htest & ->).
  vm_compute in Htest. by injection Htest as <-.
Defined.

(** C6 at a run with [--epochs 3 --validation-epochs 2 --checkpoint-epochs 1]:
    the checkpoint of epoch 1 is saved under the name made at epoch 0, with
    the epoch and the validation loss of epoch 0 in it, and replaces the
    checkpoint of epoch 0; the same happens to epoch 3 with the name of
    epoch 2. *)
Theorem checkpoint_name_of_earlier_epoch :
  let '(r, s) :=
    @main Toy.toy (Toy.options 3 2 1 None false false) Toy.env Toy.files in
  r = Ok ()
  ∧ s_saved <$> s
    = Some [(Toy.name0, 0%Z); (Toy.name0, 1%Z); (Toy.name2, 2%Z); (Toy.name2, 3%Z)]
  ∧ (s ≫= λ s, stored_epoch (s_files s) Toy.name0) = Some 1%Z
  ∧ s_scheduler_calls <$> s
    = Some [(0%Z, PyFloat 2); (1%Z, PyInt 0); (2%Z, PyFloat 2); (3%Z, PyInt 0)].
Proof. vm_compute. repeat split. Qed.

(** A resumed run whose first epoch is a checkpoint epoch without
    validation stops with a [NameError]: no name has been made yet. *)
Lemma checkpoint_before_first_validation :
  (@main Toy.toy (Toy.options 3 4 1 (Some "models/ckpt5.pth") false false)
     Toy.env Toy.files).1
  = Raise (NameError "model_path").
Proof. vm_compute. reflexivity. Qed.

(** ** Further properties of the dataset loader *)

(** *** The vocabulary *)

Lemma unique_from_spec seen l :
  NoDup (unique_from seen l)
  ∧ ∀ x, x ∈ unique_from seen l ↔ x ∈ l ∧ x ∉ seen.
Proof.
  revert seen. induction l as [|y l IH]; intros seen; cbn.
  - split; [constructor|]. intros x. rewrite elem_of_nil. tauto.
  - case_bool_decide as Hy.
    + destruct (IH seen) as [Hnd Hin]. split; [done|].
      intros x. rewrite Hin, elem_of_cons. split; [tauto|].
      intros [[->|Hx] Hns]; [done|tauto].
    + destruct (IH (y :: seen)) as [Hnd Hin]. split.
      * constructor; [|done]. rewrite Hin, elem_of_cons. tauto.
      * intros x. rewrite !elem_of_cons, Hin, elem_of_cons.
        destruct (decide (x = y)) as [->|Hne]; [tauto|]. tauto.
Qed.

Lemma foldl_class_dict_other (ps : list (nat * string)) (d : gmap string nat) n :
  n ∉ ps.*2 →
  foldl (λ d p, <[p.2 := p.1 + 1]> d) d ps !! n = d !! n.
Proof.
  revert d. induction ps as [|[i m] ps IH]; intros d Hn; cbn; [done|].
  cbn in Hn. apply not_elem_of_cons in Hn as [Hne Hn].
  rewrite IH by done. by rewrite lookup_insert_ne.
Qed.

Lemma foldl_class_dict_elem (ps : list (nat * string)) (d : gmap string nat) i n :
  NoDup ps.*2 → (i, n) ∈ ps →
  foldl (λ d p, <[p.2 := p.1 + 1]> d) d ps !! n = Some (i + 1).
Proof.
  revert d. induction ps as [|[j m] ps IH]; intros d Hnd Hin; cbn.
  - by apply elem_of_nil in Hin.
  - cbn in Hnd. apply NoDup_cons in Hnd as [Hm Hnd].
    apply elem_of_cons in Hin as [[= -> ->]|Hin].
    + rewrite foldl_class_dict_other by done. by rewrite lookup_insert_eq.
    + by apply IH.
Qed.

Lemma make_class_dict_lookup names i n :
  NoDup names → names !! i = Some n → make_class_dict names !! n = Some (i + 1).
Proof.
  intros Hnd Hi. unfold make_class_dict. apply foldl_class_dict_elem.
  - by rewrite snd_enumerate.
  - by apply elem_of_enumerate.
Qed.

Lemma make_class_dict_Some names n v :
  NoDup names → make_class_dict names !! n = Some v →
  ∃ i, v = i + 1 ∧ names !! i = Some n.
Proof.
  intros Hnd Hv. destruct (decide (n ∈ names)) as [Hin|Hin].
  - apply list_elem_of_lookup in Hin as [i Hi]. exists i. split; [|done].
    rewrite (make_class_dict_lookup _ _ _ Hnd Hi) in Hv. by injection Hv.
  - unfold make_class_dict in Hv. rewrite foldl_class_dict_other in Hv.
    + by rewrite lookup_empty in Hv.
    + by rewrite snd_enumerate.
Qed.

Lemma _read_data_inv disk root dataset_type data names dict :
  _read_data disk root dataset_type = Ok (data, names, dict) →
  ∃ df, csv_at disk (annotation_path root dataset_type) = Csv df
        ∧ names = unique (ClassName <$> df_rows df)
        ∧ dict = make_class_dict names
        ∧ read_groups df dict (groupby_ImageID (df_rows df)) = Ok data.
Proof.
  unfold _read_data. intros H. inv_bind H. subst.
  destruct (csv_at disk (annotation_path root dataset_type)) as [| | |df];
    try done.
  injection Ha as <-. by exists df.
Qed.

(** Names come into the vocabulary in the order in which the column shows
    them first. *)
Lemma unique_from_order seen l i j a b :
  i < j →
  unique_from seen l !! i = Some a → unique_from seen l !! j = Some b →
  ∃ k, l !! k = Some a ∧ b ∉ take k l.
Proof.
  revert seen i j. induction l as [|y l IH]; intros seen i j Hij Ha Hb;
    [done|].
  cbn in Ha, Hb. case_bool_decide as Hy.
  - destruct (IH seen i j Hij Ha Hb) as (k & Hk & Hnot).
    exists (S k). split; [done|]. cbn. apply not_elem_of_cons. split; [|done].
    intros ->. apply list_elem_of_lookup_2 in Hb.
    apply unique_from_spec in Hb as [_ Hb]. done.
  - destruct i as [|i].
    + injection Ha as ->. exists 0. split; [done|]. cbn. apply not_elem_of_nil.
    + destruct j as [|j]; [lia|]. cbn in Ha, Hb.
      destruct (IH (y :: seen) i j ltac:(lia) Ha Hb) as (k & Hk & Hnot).
      exists (S k). split; [done|]. cbn. apply not_elem_of_cons. split; [|done].
      intros ->. apply list_elem_of_lookup_2 in Hb.
      apply unique_from_spec in Hb as [_ Hb]. apply Hb. by left.
Qed.

(** The vocabulary that [_read_data] builds lists every class name of the
    rows of the table, and nothing else, once, in the order of first
    appearance: of two names, the one that comes first in the vocabulary is in
    a row before any row with the other.  [class_dict] maps the name at
    position [i] to the label [i + 1] and nothing else. *)
Theorem _read_data_vocabulary disk root dataset_type data names dict :
  _read_data disk root dataset_type = Ok (data, names, dict) →
  ∃ df,
    csv_at disk (annotation_path root dataset_type) = Csv df
    ∧ (∀ n, n ∈ names ↔ ∃ r, r ∈ df_rows df ∧ ClassName r = n)
    ∧ (∀ i j a b, i < j → names !! i = Some a → names !! j = Some b →
         ∃ k, (ClassName <$> df_rows df) !! k = Some a
              ∧ b ∉ take k (ClassName <$> df_rows df))
    ∧ NoDup names
    ∧ (∀ i n, names !! i = Some n → dict !! n = Some (i + 1))
    ∧ (∀ n v, dict !! n = Some v → 1 ≤ v ∧ names !! (v - 1) = Some n)
    ∧ size dict = length names.
Proof.
  intros H. apply _read_data_inv in H as (df & Hcsv & Hnames & -> & _).
  assert (NoDup names) as Hnd.
  { rewrite Hnames. apply unique_from_spec. }
  exists df. split; [done|]. split; [|split; [|split; [done|split; [|split]]]].
  - intros n. rewrite Hnames. unfold unique.
    destruct (unique_from_spec [] (ClassName <$> df_rows df)) as [_ ->].
    rewrite list_elem_of_fmap. split.
    + intros [(r & -> & Hr) _]. by exists r.
    + intros (r & Hr & <-). split; [by exists r|apply not_elem_of_nil].
  - intros i j a b Hij Ha Hb. rewrite Hnames in Ha, Hb.
    by apply (unique_from_order [] _ i j).
  - intros i n. by apply make_class_dict_lookup.
  - intros n v Hv.
    apply make_class_dict_Some in Hv as (i & -> & Hi); [|done].
    split; [lia|]. by replace (i + 1 - 1) with i by lia.
  - rewrite <- size_dom.
    assert (dom (make_class_dict names) = list_to_set (C := gset string) names)
      as ->.
    { apply set_eq. intros n. rewrite elem_of_dom, elem_of_list_to_set. split.
      - intros [v Hv]. apply make_class_dict_Some in Hv as (i & _ & Hi); [|done].
        by apply list_elem_of_lookup_2 in Hi.
      - intros [i Hi]%list_elem_of_lookup.
        rewrite (make_class_dict_lookup _ _ _ Hnd Hi). by eexists. }
    by apply size_list_to_set.
Qed.

Lemma _read_data_vocabulary_witness :
  _read_data Scenario.disk "data" "train"
    = Ok (Scenario.images, Scenario.names, make_class_dict Scenario.names)
  ∧ make_class_dict Scenario.names !! "C" = Some 3
  ∧ ∃ r, r ∈ df_rows Scenario.table ∧ ClassName r = "C".
Proof.
  assert (_read_data Scenario.disk "data" "train"
          = Ok (Scenario.images, Scenario.names, make_class_dict Scenario.names))
    as H by (vm_compute; reflexivity).
  split; [exact H|].
  destruct (_read_data_vocabulary _ _ _ _ _ _ H)
    as (df & Hcsv & Hin & _ & _ & Hlookup & _).
  split; [exact (Hlookup 2 "C" eq_refl)|].
  assert (csv_at Scenario.disk (annotation_path "data" "train")
          = Csv Scenario.table) as Htable by (vm_compute; reflexivity).
  rewrite Htable in Hcsv. injection Hcsv as <-.
  apply Hin. vm_compute. do 2 right. by left.
Defined.

(** *** The grouping of the rows by image *)

Lemma string_compare_refl a : String.compare a a = Eq.
Proof.
  pose proof (String.compare_antisym a a) as H.
  destruct (String.compare a a); cbn in H; congruence.
Qed.

Lemma string_lt_irrefl a : ¬ string_lt a a.
Proof. unfold string_lt. by rewrite string_compare_refl. Qed.

Lemma ascii_compare_lt_trans x y z :
  Ascii.compare x y = Lt → Ascii.compare y z = Lt → Ascii.compare x z = Lt.
Proof.
  unfold Ascii.compare. rewrite !N.compare_lt_iff. apply N.lt_trans.
Qed.

#[global] Instance string_lt_trans : Transitive string_lt.
Proof.
  unfold string_lt. intros a.
  induction a as [|x a IH]; intros [|y b] [|z c]; cbn; try done.
  destruct (Ascii.compare x y) eqn:Exy; try done;
    destruct (Ascii.compare y z) eqn:Eyz; try done.
  - apply Ascii.compare_eq_iff in Exy as ->. rewrite Eyz. apply IH.
  - apply Ascii.compare_eq_iff in Exy as ->. by rewrite Eyz.
  - apply Ascii.compare_eq_iff in Eyz as <-. by rewrite Exy.
  - by rewrite (ascii_compare_lt_trans _ _ _ Exy Eyz).
Qed.

Lemma string_compare_Gt a b : String.compare a b = Gt → string_lt b a.
Proof.
  unfold string_lt. rewrite (String.compare_antisym b a). by intros ->.
Qed.

Lemma key_compare_eq numeric a b : key_compare numeric a b = Eq → a = b.
Proof.
  unfold key_compare.
  destruct (Qcompare _ _); try done. apply String.compare_eq_iff.
Qed.

Lemma key_lt_irrefl numeric a : ¬ key_lt numeric a a.
Proof.
  unfold key_lt, key_compare.
  destruct (Qcompare_spec (key_value numeric a) (key_value numeric a));
    [by rewrite string_compare_refl|lra|lra].
Qed.

#[global] Instance key_lt_trans numeric : Transitive (key_lt numeric).
Proof.
  unfold key_lt, key_compare. intros a b c.
  destruct (Qcompare_spec (key_value numeric a) (key_value numeric b)),
    (Qcompare_spec (key_value numeric b) (key_value numeric c)),
    (Qcompare_spec (key_value numeric a) (key_value numeric c));
    try done; try lra.
  apply string_lt_trans.
Qed.

Lemma key_compare_Gt numeric a b :
  key_compare numeric a b = Gt → key_lt numeric b a.
Proof.
  unfold key_lt, key_compare.
  destruct (Qcompare_spec (key_value numeric a) (key_value numeric b)),
    (Qcompare_spec (key_value numeric b) (key_value numeric a));
    try done; try lra.
  apply string_compare_Gt.
Qed.

Lemma StronglySorted_key_lt_NoDup numeric l :
  StronglySorted (key_lt numeric) l → NoDup l.
Proof.
  induction 1 as [|a l _ IH Hall]; constructor; [|done].
  intros Hin. rewrite Forall_forall in Hall.
  by apply (key_lt_irrefl numeric a), Hall.
Qed.

(** [group_insert] on groups with increasing keys: the keys stay
    increasing; the group of [k] gets [r] at its end, or is made of [r]
    alone; the other groups stay. *)
Lemma group_insert_spec numeric k r gs :
  StronglySorted (key_lt numeric) gs.*1 →
  StronglySorted (key_lt numeric) (group_insert numeric k r gs).*1
  ∧ ∀ k' rs', (k', rs') ∈ group_insert numeric k r gs ↔
      (k' ≠ k ∧ (k', rs') ∈ gs)
      ∨ (k' = k ∧ ((∃ rs, (k, rs) ∈ gs ∧ rs' = rs ++ [r])
                   ∨ (rs' = [r] ∧ k ∉ gs.*1))).
Proof.
  induction gs as [|[k0 rs0] gs IH]; intros Hs; cbn.
  { split; [repeat constructor|]. intros k' rs'.
    rewrite list_elem_of_singleton. split.
    - intros [= -> ->]. right. split; [done|]. right. split; [done|].
      apply not_elem_of_nil.
    - intros [[_ []%elem_of_nil]|[-> [(rs & []%elem_of_nil & _)|[-> _]]]]. done. }
  cbn in Hs. apply StronglySorted_inv in Hs as [Hs Hall].
  assert (∀ rs, (k0, rs) ∉ gs) as Hk0.
  { intros rs Hin. rewrite Forall_forall in Hall.
    apply (key_lt_irrefl numeric k0), Hall.
    apply list_elem_of_fmap. by exists (k0, rs). }
  destruct (key_compare numeric k k0) eqn:E.
  - apply key_compare_eq in E as ->. cbn. split.
    { by constructor. }
    intros k' rs'. rewrite !elem_of_cons. split.
    + intros [[= -> ->]|Hin].
      * right. split; [done|]. left. exists rs0. split; [by left|done].
      * left. split; [|by right]. intros ->. by apply (Hk0 rs').
    + intros [[Hne [[= -> ->]|Hin]]
             |[-> [(rs & [[= <-]|Hin]%elem_of_cons & ->)|[-> Hno]]]];
        try done; [by right|by left|by apply Hk0 in Hin|].
      destruct Hno. by left.
  - cbn. split.
    { constructor; [by constructor|].
      constructor; [done|].
      eapply Forall_impl; [exact Hall|]. intros k1 Hk1. by etrans. }
    assert (k ∉ k0 :: gs.*1) as Hnew.
    { intros [->|Hin]%elem_of_cons; [by apply (key_lt_irrefl numeric k0)|].
      rewrite Forall_forall in Hall.
      apply (key_lt_irrefl numeric k). etrans; [exact E|]. by apply Hall. }
    intros k' rs'. rewrite elem_of_cons. split.
    + intros [[= -> ->]|Hin].
      * right. split; [done|]. by right.
      * left. split; [|done]. intros ->. apply Hnew.
        apply (list_elem_of_fmap_2 fst) in Hin. done.
    + intros [[Hne Hin]|[-> [(rs & Hin & ->)|[-> _]]]]; [by right| |by left].
      destruct Hnew. by apply (list_elem_of_fmap_2 fst) in Hin.
  - apply key_compare_Gt in E. destruct (IH Hs) as [IHs IHin]. cbn. split.
    { constructor; [done|]. apply Forall_forall. intros k1 Hk1.
      apply list_elem_of_fmap in Hk1 as ([k2 rs2] & -> & Hin). cbn.
      apply IHin in Hin as [[_ Hin]|[-> _]]; [|done].
      rewrite Forall_forall in Hall. apply Hall.
      by apply (list_elem_of_fmap_2 fst) in Hin. }
    assert (k ≠ k0) as Hne0.
    { intros ->. by apply (key_lt_irrefl numeric k0). }
    intros k' rs'. rewrite !elem_of_cons, IHin. split.
    + intros [[= -> ->]|[[Hne Hin]|[-> H]]].
      * left. split; [done|by left].
      * left. split; [done|by right].
      * right. split; [done|].
        destruct H as [(rs & Hin & ->)|[-> Hno]].
        -- left. exists rs. split; [by right|done].
        -- right. split; [done|]. by intros [?|?].
    + intros [[Hne [[= -> ->]|Hin]]|[-> H]]; [by left|right; by left|].
      right. right. split; [done|].
      destruct H as [(rs & [[= ->]|Hin]%elem_of_cons & ->)|[-> Hno]]; [done| |].
      * left. by exists rs.
      * right. split; [done|]. intros Hin. apply Hno. cbn. by right.
Qed.

Lemma group_rows_snoc id rows r :
  group_rows id (rows ++ [r])
  = group_rows id rows ++ (if decide (ImageID r = Some id) then [r] else []).
Proof.
  unfold group_rows. by rewrite filter_app.
Qed.

(** [groupby]: one group for every identifier that occurs, the identifiers
    increasing, with the rows of that identifier in table order. *)
Lemma group_by_key_spec numeric rows :
  StronglySorted (key_lt numeric) (group_by_key numeric rows).*1
  ∧ ∀ id rs, (id, rs) ∈ group_by_key numeric rows ↔
             rs = group_rows id rows ∧ rs ≠ [].
Proof.
  unfold group_by_key.
  induction rows as [|r rows IH] using rev_ind.
  { cbn. split; [constructor|]. intros id rs. rewrite elem_of_nil.
    split; [done|]. by intros [-> ?]. }
  rewrite foldl_snoc. destruct IH as [IHs IHin].
  destruct (ImageID r) as [k|] eqn:Ek.
  - destruct (group_insert_spec numeric k r _ IHs) as [Hs Hin]. split; [done|].
    intros id rs. rewrite Hin, group_rows_snoc, Ek. split.
    + intros [[Hne Hold]|[-> [(rs0 & Hold & ->)|[-> Hno]]]].
      * apply IHin in Hold as [-> Hnn].
        rewrite decide_False by congruence. by rewrite app_nil_r.
      * apply IHin in Hold as [-> _]. rewrite decide_True by done.
        split; [done|]. by intros [_ ?]%app_eq_nil.
      * rewrite decide_True by done.
        assert (group_rows k rows = []) as ->; [|done].
        destruct (group_rows k rows) as [|r0 l] eqn:Eg; [done|].
        destruct Hno. apply (list_elem_of_fmap_2' fst _ (k, r0 :: l)); [|done].
        apply IHin. by rewrite Eg.
    + intros [-> Hnn]. destruct (decide (Some k = Some id)) as [[= ->]|Hne].
      * right. split; [done|].
        destruct (group_rows id rows) as [|r0 l] eqn:Eg.
        -- right. split; [done|].
           intros ([k1 rs1] & -> & Hin1)%list_elem_of_fmap. cbn in *.
           apply IHin in Hin1 as [-> Hnn1]. by rewrite Eg in Hnn1.
        -- left. exists (r0 :: l). split; [|done]. apply IHin. by rewrite Eg.
      * left. split; [congruence|]. apply IHin.
        rewrite app_nil_r in Hnn |- *. done.
  - split; [done|]. intros id rs. rewrite IHin, group_rows_snoc, Ek.
    rewrite decide_False by done. by rewrite app_nil_r.
Qed.

Lemma groupby_ImageID_spec rows :
  NoDup (groupby_ImageID rows).*1
  ∧ ∀ id rs, (id, rs) ∈ groupby_ImageID rows ↔
             rs = group_rows id rows ∧ rs ≠ [].
Proof.
  unfold groupby_ImageID.
  destruct (group_by_key_spec (numeric_keys rows) rows) as [Hs Hin].
  split; [by eapply StronglySorted_key_lt_NoDup|done].
Qed.

Lemma lookup_labels_spec d names ls :
  lookup_labels d names = Ok ls → Forall2 (λ n l, d !! n = Some l) names ls.
Proof.
  revert ls. induction names as [|n names IH]; intros ls H; cbn in H.
  - injection H as <-. constructor.
  - inv_bind H. subst ls. constructor; [|by apply IH].
    unfold dict_get in Ha. by destruct (d !! n) as [v|]; [injection Ha as ->|].
Qed.

Lemma read_groups_spec df d groups data :
  read_groups df d groups = Ok data →
  Forall2 (λ (g : string * list Row) record,
             image_id record = g.1
             ∧ boxes record = row_box <$> g.2
             ∧ Forall2 (λ r l, d !! ClassName r = Some l) g.2 (labels record))
          groups data.
Proof.
  revert data. induction groups as [|[id rows] groups IH]; intros data H;
    cbn in H.
  - injection H as <-. constructor.
  - inv_bind H. subst data. constructor; [|by apply IH]. cbn.
    split; [done|]. split; [done|].
    apply lookup_labels_spec in Ha0. by apply Forall2_fmap_l in Ha0.
Qed.

Lemma group_insert_total numeric k r gs :
  sum_list ((λ g, length g.2) <$> group_insert numeric k r gs)
  = S (sum_list ((λ g : string * list Row, length g.2) <$> gs)).
Proof.
  induction gs as [|[k0 rs0] gs IH]; cbn; [done|].
  destruct (key_compare numeric k k0); cbn.
  - rewrite length_app. cbn. lia.
  - done.
  - rewrite IH. lia.
Qed.

Lemma groupby_ImageID_total rows :
  sum_list ((λ g, length g.2) <$> groupby_ImageID rows)
  = length (filter (λ r, is_Some (ImageID r)) rows).
Proof.
  unfold groupby_ImageID, group_by_key. generalize (numeric_keys rows).
  intros numeric. induction rows as [|r rows IH] using rev_ind; [done|].
  rewrite foldl_snoc, filter_app, length_app, <- IH.
  rewrite filter_cons, filter_nil.
  destruct (ImageID r) as [k|].
  - rewrite group_insert_total. rewrite decide_True by by eexists. cbn. lia.
  - rewrite decide_False by by intros [? ?]. cbn. lia.
Qed.

(** Every record that [_read_data] returns holds the rows of its image in
    table order: the boxes are the boxes of these rows, and the label of each
    box is one more than the position of the row's class name in the
    vocabulary.  Boxes and labels have the same length, and it is not zero. *)
Theorem _read_data_records disk root dataset_type data names dict :
  _read_data disk root dataset_type = Ok (data, names, dict) →
  ∃ df, csv_at disk (annotation_path root dataset_type) = Csv df
    ∧ Forall (λ record,
        let rows := group_rows (image_id record) (df_rows df) in
        boxes record = row_box <$> rows
        ∧ Forall2 (λ r l, ∃ i, names !! i = Some (ClassName r) ∧ l = i + 1)
                  rows (labels record)
        ∧ length (boxes record) = length (labels record)
        ∧ 0 < length (boxes record)) data.
Proof.
  intros H. apply _read_data_inv in H as (df & Hcsv & Hnames & -> & Hgroups).
  assert (NoDup names) as Hnd by (rewrite Hnames; apply unique_from_spec).
  exists df. split; [done|].
  apply read_groups_spec in Hgroups.
  destruct (groupby_ImageID_spec (df_rows df)) as [_ Hin].
  apply Forall_forall. intros record Hrec.
  apply list_elem_of_lookup in Hrec as [j Hj].
  destruct (Forall2_lookup_r _ _ _ _ _ Hgroups Hj)
    as ([id rows] & Hg & Hid & Hboxes & Hlabels).
  cbn in Hid, Hboxes, Hlabels.
  apply list_elem_of_lookup_2, Hin in Hg as [-> Hne]. rewrite Hid.
  cbn. split; [done|]. split; [|split].
  - eapply Forall2_impl; [exact Hlabels|]. cbn. intros r l Hl.
    apply make_class_dict_Some in Hl as (i & -> & Hi); [|done]. by exists i.
  - rewrite Hboxes, length_fmap. by apply Forall2_length in Hlabels.
  - rewrite Hboxes, length_fmap.
    destruct (group_rows id (df_rows df)); [done|cbn; lia].
Qed.

Lemma _read_data_records_witness :
  _read_data Scenario.disk "data" "train"
    = Ok (Scenario.images, Scenario.names, make_class_dict Scenario.names)
  ∧ Forall (λ record, length (boxes record) = length (labels record))
           Scenario.images.
Proof.
  assert (_read_data Scenario.disk "data" "train"
          = Ok (Scenario.images, Scenario.names, make_class_dict Scenario.names))
    as H by (vm_compute; reflexivity).
  split; [exact H|].
  destruct (_read_data_records _ _ _ _ _ _ H) as (df & _ & Hall).
  eapply Forall_impl; [exact Hall|]. cbn. tauto.
Defined.

(** The records that [_read_data] returns are one for every image
    identifier of the table and no image comes twice; their boxes are as many
    as the rows that have an identifier: no such row is lost or taken
    twice. *)
Theorem _read_data_images disk root dataset_type data names dict :
  _read_data disk root dataset_type = Ok (data, names, dict) →
  ∃ df, csv_at disk (annotation_path root dataset_type) = Csv df
    ∧ NoDup (image_id <$> data)
    ∧ (∀ id, id ∈ image_id <$> data
             ↔ ∃ r, r ∈ df_rows df ∧ ImageID r = Some id)
    ∧ total_boxes data
      = length (filter (λ r, is_Some (ImageID r)) (df_rows df)).
Proof.
  intros H. apply _read_data_inv in H as (df & Hcsv & Hnames & -> & Hgroups).
  exists df. split; [done|].
  apply read_groups_spec in Hgroups.
  destruct (groupby_ImageID_spec (df_rows df)) as [Hnodup Hin].
  assert (image_id <$> data = (groupby_ImageID (df_rows df)).*1) as Hids.
  { clear -Hgroups. induction Hgroups as [|g record gs data (Hid & _) _ IH];
      [done|]. cbn. by rewrite Hid, IH. }
  assert (total_boxes data
          = sum_list ((λ g, length g.2) <$> groupby_ImageID (df_rows df)))
    as Htotal.
  { unfold total_boxes. clear -Hgroups.
    induction Hgroups as [|g record gs data (_ & Hb & _) _ IH]; [done|].
    cbn. by rewrite Hb, length_fmap, IH. }
  rewrite Hids. split; [done|]. split.
  - intros id. rewrite list_elem_of_fmap. split.
    + intros ([id' rs] & -> & Hg). apply Hin in Hg as [-> Hne]. cbn.
      destruct (group_rows id' (df_rows df)) as [|r l] eqn:E; [done|].
      exists r.
      assert (r ∈ group_rows id' (df_rows df)) as Hr by (rewrite E; by left).
      by apply list_elem_of_filter in Hr as [? ?].
    + intros (r & Hr & Hid). exists (id, group_rows id (df_rows df)).
      split; [done|]. apply Hin. split; [done|].
      intros Hnil.
      assert (r ∈ group_rows id (df_rows df)) as Hr'
        by by apply list_elem_of_filter.
      rewrite Hnil in Hr'. by apply elem_of_nil in Hr'.
  - by rewrite Htotal, groupby_ImageID_total.
Qed.

Lemma _read_data_images_witness :
  _read_data Scenario.disk_orphan "data" "train"
    = Ok ([ {| image_id := "img0"; boxes := [Scenario.unit_box];
               labels := [1] |} ],
          ["A"; "B"], make_class_dict ["A"; "B"])
  ∧ total_boxes [ {| image_id := "img0"; boxes := [Scenario.unit_box];
                     labels := [1] |} ] = 1.
Proof.
  assert (_read_data Scenario.disk_orphan "data" "train"
          = Ok ([ {| image_id := "img0"; boxes := [Scenario.unit_box];
                     labels := [1] |} ],
                ["A"; "B"], make_class_dict ["A"; "B"]))
    as H by (vm_compute; reflexivity).
  split; [exact H|].
  destruct (_read_data_images _ _ _ _ _ _ H) as (df & Hcsv & _ & _ & Ht).
  rewrite Ht. injection Hcsv as <-. reflexivity.
Defined.

(** *** Indexing the dataset *)

Lemma py_index_out_of_range {A} (l : list A) (i : Z) :
  (i < - Z.of_nat (length l) ∨ Z.of_nat (length l) ≤ i)%Z →
  py_index l i = Raise IndexError.
Proof.
  intros H. unfold py_index.
  destruct (i <? 0)%Z eqn:E.
  - apply Z.ltb_lt in E.
    destruct ((0 <=? Z.of_nat (length l) + i)%Z) eqn:E1; [|done].
    apply Z.leb_le in E1. lia.
  - apply Z.ltb_ge in E.
    destruct ((0 <=? i)%Z); [|done].
    destruct ((i <? Z.of_nat (length l))%Z) eqn:E2; [|done].
    apply Z.ltb_lt in E2. lia.
Qed.

Lemma py_index_negative {A} (l : list A) (i : Z) :
  (- Z.of_nat (length l) ≤ i < 0)%Z →
  py_index l i = py_index l (i + Z.of_nat (length l)).
Proof.
  intros H. unfold py_index.
  replace (i <? 0)%Z with true by (symmetry; apply Z.ltb_lt; lia).
  replace (i + Z.of_nat (length l) <? 0)%Z with false
    by (symmetry; apply Z.ltb_ge; lia).
  by rewrite (Z.add_comm i).
Qed.

(** [__getitem__] follows Python's indexing: an index outside
    [-len, len) raises [IndexError], and a negative index within it gives
    the sample that the index plus [len] gives. *)
Theorem getitem_index disk ds index :
  let n := Z.of_nat (dataset_len ds) in
  ((index < - n ∨ n ≤ index)%Z → getitem disk ds index = Raise IndexError)
  ∧ ((- n ≤ index < 0)%Z → getitem disk ds index = getitem disk ds (index + n)).
Proof.
  cbn. unfold getitem, dataset_len. split; intros H.
  - by rewrite py_index_out_of_range.
  - by rewrite py_index_negative.
Qed.

Lemma getitem_index_witness :
  getitem Scenario.disk Scenario.dataset 2 = Raise IndexError
  ∧ getitem Scenario.disk Scenario.dataset (-1)
    = getitem Scenario.disk Scenario.dataset (-1 + 2).
Proof.
  destruct (getitem_index Scenario.disk Scenario.dataset 2) as [H1 _].
  destruct (getitem_index Scenario.disk Scenario.dataset (-1)) as [_ H2].
  split; [apply H1; cbn; lia|apply H2; cbn; lia].
Defined.

(** Without transforms, [__getitem__] gives the boxes and the labels of the
    record as they are stored, with the image of the record's file turned
    into three channels; an image that has neither one nor three nor four
    channels makes the conversion fail. *)
Theorem getitem_without_transforms disk ds index record raw :
  transform ds = None → target_transform ds = None →
  py_index (data ds) index = Ok record →
  imread disk (image_path (root ds) (dataset_type ds) (image_id record))
    = Some raw →
  if bool_decide (im_channels raw ∈ [1; 3; 4]) then
    ∃ image, getitem disk ds index = Ok (image, boxes record, labels record)
             ∧ im_channels image = 3
             ∧ length (im_pixels image) = length (im_pixels raw)
  else getitem disk ds index = Raise CvError.
Proof.
  intros Ht Htt Hidx Hread. unfold getitem.
  rewrite (bind_of_Ok _ _ _ Hidx), Ht, Htt.
  unfold _read_image. rewrite Hread.
  case_bool_decide as Hc.
  - assert (im_channels raw = 1 ∨ im_channels raw = 3 ∨ im_channels raw = 4)
      as Hc' by (rewrite !elem_of_cons, elem_of_nil in Hc; tauto).
    case_bool_decide as H1; cbn [cvtColor].
    + rewrite bool_decide_eq_true_2 by done. cbn.
      eexists. split; [done|]. cbn. split; [done|]. by rewrite length_fmap.
    + rewrite bool_decide_eq_true_2 by tauto. cbn.
      eexists. split; [done|]. cbn. split; [done|]. by rewrite length_fmap.
  - rewrite !elem_of_cons, elem_of_nil in Hc.
    rewrite bool_decide_eq_false_2 by tauto. cbn [cvtColor].
    rewrite bool_decide_eq_false_2 by tauto. done.
Qed.

Lemma getitem_without_transforms_witness :
  ∃ image, getitem Scenario.disk_blue Scenario.dataset 0
           = Ok (image, boxes Scenario.img0, labels Scenario.img0)
           ∧ im_channels image = 3
           ∧ length (im_pixels image) = 1.
Proof.
  exact (getitem_without_transforms Scenario.disk_blue Scenario.dataset 0
           Scenario.img0 Scenario.blue eq_refl eq_refl eq_refl eq_refl).
Defined.

(** *** More about balancing *)

Lemma omap_lookup_seq {A} (l : list A) :
  omap (l !!.) (seq 0 (length l)) = l.
Proof.
  induction l as [|x l IH]; [done|].
  cbn [length seq]. rewrite <- fmap_S_seq. cbn. f_equal.
  etrans; [|exact IH].
  generalize (seq 0 (length l)) as idx.
  induction idx as [|j idx IHidx]; [done|]. cbn. by rewrite IHidx.
Qed.

(** Images collected at distinct positions are a part of the data. *)
Lemma collected_submseteq {A} (data : list A) idx l :
  Forall2 (λ j x, data !! j = Some x) idx l → NoDup idx → l ⊆+ data.
Proof.
  intros HF Hnd.
  assert (omap (data !!.) idx = l) as <-.
  { clear Hnd. induction HF as [|j x idx l Hj _ IH]; [done|].
    cbn. by rewrite Hj, IH. }
  assert (idx ⊆+ seq 0 (length data)) as Hsub.
  { apply NoDup_submseteq; [done|]. intros j Hj. apply elem_of_seq.
    apply list_elem_of_lookup in Hj as [i Hi].
    destruct (Forall2_lookup_l _ _ _ _ _ HF Hi) as (x & _ & Hx).
    apply lookup_lt_Some in Hx. lia. }
  apply submseteq_Permutation in Hsub as [k Hk].
  assert (omap (data !!.) idx ⊆+ omap (data !!.) (seq 0 (length data))) as H.
  { rewrite Hk, omap_app. by apply submseteq_inserts_r. }
  by rewrite omap_lookup_seq in H.
Qed.

(** The balanced data is a part of the data: every image of it is an image
    of the data, none more often than there. *)
Theorem balanced_is_part_of_data names data g m balanced g' :
  _balance_data names data g = Ok (m, balanced, g') →
  balanced ⊆+ data ∧ length balanced ≤ length data.
Proof.
  intros H.
  apply _balance_data_inv in H as (lii & sample & _ & _ & _ & Hcol).
  assert (balanced ⊆+ data) as Hsub.
  { eapply collected_submseteq; [by apply collect_images_spec|].
    apply NoDup_elements. }
  split; [done|]. by apply submseteq_length.
Qed.

Lemma balanced_is_part_of_data_witness :
  _balance_data Scenario.names Scenario.images Scenario.zeros
    = Ok (1, [Scenario.img1; Scenario.img0],
          {| tape := tape Scenario.zeros; cursor := 3 |})
  ∧ [Scenario.img1; Scenario.img0] ⊆+ Scenario.images.
Proof.
  split; [reflexivity|].
  exact (proj1 (balanced_is_part_of_data Scenario.names Scenario.images
                  Scenario.zeros 1 [Scenario.img1; Scenario.img0]
                  {| tape := tape Scenario.zeros; cursor := 3 |} eq_refl)).
Defined.

Lemma add_choices_covers image_indexes chosen sample sample' :
  add_choices image_indexes chosen sample = Ok sample' →
  sample ⊆ sample'
  ∧ ∀ i, i ∈ chosen → ∃ x, image_indexes !! i = Some x ∧ x ∈ sample'.
Proof.
  revert sample. induction chosen as [|i chosen IH]; intros sample H; cbn in H.
  - injection H as <-. split; [done|]. by intros i ?%elem_of_nil.
  - inv_bind H. apply py_get_Ok in Ha. apply IH in H as [Hsub Hin]. split.
    + etrans; [|exact Hsub]. apply union_subseteq_l.
    + intros j [->|Hj]%elem_of_cons; [|by apply Hin].
      exists a. split; [done|]. apply Hsub.
      apply elem_of_union_r. by apply elem_of_singleton.
Qed.

Lemma sample_classes_covers per_class m sample g sample' g' :
  sample_classes per_class m sample g = Ok (sample', g') → 0 < m →
  sample ⊆ sample'
  ∧ ∀ s, s ∈ per_class → ∃ j, j ∈ s ∧ j ∈ sample'.
Proof.
  intros H Hm. revert sample g H.
  induction per_class as [|s per_class IH]; intros sample g H; cbn in H.
  - injection H as <- <-. split; [done|]. by intros s ?%elem_of_nil.
  - inv_bind H. destruct a as [chosen g1]. inv_bind H.
    apply choice_spec in Ha as [Hlen _].
    apply add_choices_covers in Ha0 as [Hsub1 Hin1].
    apply IH in H as [Hsub2 Hin2]. split; [by etrans|].
    intros s' [->|Hs']%elem_of_cons; [|by apply Hin2].
    destruct chosen as [|i chosen]; [cbn in Hlen; lia|].
    destruct (Hin1 i) as (x & Hx & Hxs); [by left|].
    exists x. split; [|by apply Hsub2].
    apply elem_of_elements. by apply list_elem_of_lookup_2 in Hx.
Qed.

Lemma collect_images_elem data idx l j x :
  collect_images data idx = Ok l → j ∈ idx → data !! j = Some x → x ∈ l.
Proof.
  intros H Hj Hx. apply collect_images_spec in H.
  apply list_elem_of_lookup in Hj as [i Hi].
  destruct (Forall2_lookup_l _ _ _ _ _ H Hi) as (y & Hy & Hjy).
  assert (y = x) as -> by congruence.
  by apply list_elem_of_lookup_2 in Hy.
Qed.

(** When every class has an image (the cap is not zero), every class of the
    vocabulary is still in an image after balancing. *)
Theorem balanced_keeps_every_class names data g m balanced g' c :
  _balance_data names data g = Ok (m, balanced, g') →
  0 < m → 1 ≤ c ≤ length names →
  1 ≤ images_with_class c balanced.
Proof.
  intros H Hm Hc.
  apply _balance_data_inv in H as (lii & sample & Hidx & _ & Hsample & Hcol).
  apply label_image_indexes_spec in Hidx as [Hlen Hsets].
  destruct (Hsets c) as (S & HS & Hchar & _); [lia|].
  apply sample_classes_covers in Hsample as [_ Hcover]; [|done].
  destruct (Hcover S) as (j & HjS & Hj).
  { apply list_elem_of_lookup. exists (c - 1). rewrite lookup_drop.
    by replace (1 + (c - 1)) with c by lia. }
  apply Hchar in HjS as (image & Himage & Hclass).
  assert (image ∈ balanced) as Hin.
  { eapply collect_images_elem; [exact Hcol| |exact Himage].
    by apply elem_of_elements. }
  unfold images_with_class.
  assert (image ∈ filter (λ image, has_class c image = true) balanced) as Hf.
  { apply list_elem_of_filter. split; [|done].
    unfold has_class. by apply bool_decide_eq_true. }
  destruct (filter _ balanced); [by apply elem_of_nil in Hf|cbn; lia].
Qed.

Lemma balanced_keeps_every_class_witness :
  _balance_data Scenario.names Scenario.images Scenario.zeros
    = Ok (1, [Scenario.img1; Scenario.img0],
          {| tape := tape Scenario.zeros; cursor := 3 |})
  ∧ 1 ≤ images_with_class 3 [Scenario.img1; Scenario.img0].
Proof.
  split; [reflexivity|].
  apply (balanced_keeps_every_class Scenario.names Scenario.images
           Scenario.zeros 1 [Scenario.img1; Scenario.img0]
           {| tape := tape Scenario.zeros; cursor := 3 |} 3 eq_refl);
    cbn; lia.
Defined.

Lemma add_image_labels_outcome i ls lii :
  match add_image_labels i ls lii with
  | Ok _ => Forall (λ l, l < length lii) ls
  | Raise e => e = IndexError ∧ ¬ Forall (λ l, l < length lii) ls
  end.
Proof.
  revert lii. induction ls as [|l ls IH]; intros lii; cbn; [constructor|].
  unfold py_get. destruct (lii !! l) as [s|] eqn:E; cbn.
  - specialize (IH (<[l := s ∪ {[i]}]> lii)). rewrite length_insert in IH.
    apply lookup_lt_Some in E.
    destruct (add_image_labels i ls _) as [lii'|e].
    + by constructor.
    + destruct IH as [-> IH]. split; [done|]. by intros [_ ?]%Forall_cons.
  - split; [done|]. intros [Hl _]%Forall_cons.
    apply lookup_ge_None in E. lia.
Qed.

Lemma index_labels_outcome images lii :
  match index_labels images lii with
  | Ok _ => Forall (λ p, Forall (λ l, l < length lii) (labels p.2)) images
  | Raise e =>
      e = IndexError
      ∧ ¬ Forall (λ p, Forall (λ l, l < length lii) (labels p.2)) images
  end.
Proof.
  revert lii. induction images as [|[i image] images IH]; intros lii; cbn;
    [constructor|].
  pose proof (add_image_labels_outcome i (labels image) lii) as H1.
  destruct (add_image_labels i (labels image) lii) as [lii1|e] eqn:E1; cbn.
  - apply add_image_labels_spec in E1 as [Hlen _].
    specialize (IH lii1). rewrite Hlen in IH.
    destruct (index_labels images lii1) as [lii2|e].
    + by constructor.
    + destruct IH as [-> IH]. split; [done|]. by intros [_ ?]%Forall_cons.
  - destruct H1 as [-> H1]. split; [done|]. by intros [? _]%Forall_cons.
Qed.

Lemma enumerate_valid_labels N data :
  Forall (λ p : nat * ImageRecord,
            Forall (λ l, l < length (replicate (N + 1) (∅ : gset nat)))
                   (labels p.2)) (enumerate data) →
  valid_labels N data.
Proof.
  intros H. apply Forall_lookup. intros j image Hj.
  apply elem_of_enumerate in Hj.
  rewrite Forall_forall in H. specialize (H _ Hj). cbn in H.
  rewrite length_replicate in H.
  eapply Forall_impl; [exact H|]. cbn. intros l Hl. lia.
Qed.

(** When [_balance_data] fails and with what: it raises [IndexError] if
    some label is greater than the number of class names, [ValueError] if the
    labels are within it and there is no class name at all, and it returns in
    every other case. *)
Theorem _balance_data_outcome names data g :
  match _balance_data names data g with
  | Ok _ => names ≠ [] ∧ valid_labels (length names) data
  | Raise e =>
      (e = IndexError ∧ ¬ valid_labels (length names) data)
      ∨ (e = ValueError ∧ names = [] ∧ valid_labels (length names) data)
  end.
Proof.
  pose proof (index_labels_outcome (enumerate data)
                (replicate (length names + 1) ∅)) as Hidx.
  destruct (index_labels (enumerate data) (replicate (length names + 1) ∅))
    as [lii|e] eqn:E.
  - apply enumerate_valid_labels in Hidx.
    destruct names as [|n names].
    + unfold _balance_data. rewrite (bind_of_Ok _ _ _ E).
      apply label_image_indexes_spec in E as [Hlen _]. cbn in Hlen.
      destruct lii as [|s [|? ?]]; try done. cbn. by right.
    + destruct (_balance_data_returns (n :: names) data g) as [r ->]; done.
  - unfold _balance_data. rewrite E. cbn. destruct Hidx as [-> Hidx].
    left. split; [done|]. intros Hv. by apply Hidx, valid_labels_enumerate.
Qed.

(** [__init__] with and without [balance_data] on the same source: the
    vocabulary is the same, the balanced data is a part of the other, the
    generator is only used for balancing, and [min_image_num] is [-1] without
    balancing and the least class count with it. *)
Theorem new_dataset_balanced_and_plain disk g root t tt dtype ds g1 ds' g2 :
  new_dataset disk g root t tt dtype false = Ok (ds, g1) →
  new_dataset disk g root t tt dtype true = Ok (ds', g2) →
  g1 = g
  ∧ class_names ds' = class_names ds
  ∧ class_dict ds' = class_dict ds
  ∧ data ds' ⊆+ data ds
  ∧ dataset_len ds' ≤ dataset_len ds
  ∧ min_image_num ds = (-1)%Z
  ∧ ∃ m, min_image_num ds' = Z.of_nat m
         ∧ min_class_count (length (class_names ds)) (data ds) = Ok m.
Proof.
  unfold new_dataset. intros H H'.
  destruct (_read_data disk root (lower dtype)) as [[[d names] dict]|e];
    [|done].
  cbn in H, H'. injection H as <- <-. cbn.
  apply bind_Ok in H' as ([[z kept] g'] & Ha & H').
  apply bind_Ok in Ha as ([[m balanced] g3] & Ha & Hm).
  injection Hm as <- <- <-. cbn in H'. injection H' as <- <-. cbn.
  assert (balanced ⊆+ d) as Hsub.
  { apply _balance_data_inv in Ha as (lii & sample & _ & _ & _ & Hcol).
    eapply collected_submseteq; [by apply collect_images_spec|].
    apply NoDup_elements. }
  repeat split; try done.
  - by apply submseteq_length.
  - exists m. split; [done|]. by apply _balance_data_cap in Ha as [? _].
Qed.

Lemma new_dataset_balanced_and_plain_witness :
  ∃ ds ds' g2,
    new_dataset Scenario.disk Scenario.zeros "data" None None "train" false
      = Ok (ds, Scenario.zeros)
    ∧ new_dataset Scenario.disk Scenario.zeros "data" None None "train" true
      = Ok (ds', g2)
    ∧ class_names ds' = class_names ds
    ∧ dataset_len ds' ≤ dataset_len ds.
Proof.
  destruct (new_dataset Scenario.disk Scenario.zeros "data" None None "train"
              false) as [[ds g1]|e] eqn:H;
    [|vm_compute in H; discriminate H].
  destruct (new_dataset Scenario.disk Scenario.zeros "data" None None "train"
              true) as [[ds' g2]|e] eqn:H';
    [|vm_compute in H'; discriminate H'].
  destruct (new_dataset_balanced_and_plain _ _ _ _ _ _ _ _ _ _ H H')
    as (-> & Hn & _ & _ & Hlen & _).
  by exists ds, ds', g2.
Defined.

(** *** The label distribution of [__repr__] *)

Lemma alist_get_imap (names : list string) (f : nat → nat) i n :
  NoDup names → names !! i = Some n →
  alist_get n (imap (λ j name, (name, f j)) names) = Ok (f i).
Proof.
  revert f i. induction names as [|n0 names IH]; intros f i Hnd Hi; [done|].
  apply NoDup_cons in Hnd as [Hn0 Hnd]. cbn.
  destruct i as [|i]; cbn in Hi.
  - injection Hi as ->. by rewrite bool_decide_eq_true_2.
  - rewrite bool_decide_eq_false_2.
    + apply (IH (f ∘ S) i Hnd Hi).
    + intros ->. apply Hn0. by apply list_elem_of_lookup_2 in Hi.
Qed.

Lemma alist_set_imap (names : list string) (f g : nat → nat) i n v :
  NoDup names → names !! i = Some n →
  g i = v → (∀ j, j ≠ i → g j = f j) →
  alist_set n v (imap (λ j name, (name, f j)) names)
  = imap (λ j name, (name, g j)) names.
Proof.
  revert f g i. induction names as [|n0 names IH]; intros f g i Hnd Hi Hv Hg;
    [done|].
  apply NoDup_cons in Hnd as [Hn0 Hnd]. cbn.
  destruct i as [|i]; cbn in Hi.
  - injection Hi as ->. rewrite bool_decide_eq_true_2 by done.
    rewrite Hv. f_equal. apply imap_ext. intros j x _. cbn.
    by rewrite Hg.
  - rewrite bool_decide_eq_false_2.
    + rewrite (Hg 0) by done. f_equal.
      apply (IH (f ∘ S) (g ∘ S) i Hnd Hi); [done|].
      intros j Hj. cbn. apply Hg. lia.
    + intros ->. apply Hn0. by apply list_elem_of_lookup_2 in Hi.
Qed.

Lemma alist_set_new k v (d : list (string * nat)) :
  k ∉ d.*1 → alist_set k v d = d ++ [(k, v)].
Proof.
  induction d as [|[k' v'] d IH]; intros Hk; cbn; [done|].
  cbn in Hk. apply not_elem_of_cons in Hk as [Hne Hk].
  rewrite bool_decide_eq_false_2 by done. by rewrite IH.
Qed.

Lemma imap_keys (names : list string) (f : nat → nat) :
  (imap (λ j name, (name, f j)) names).*1 = names.
Proof.
  revert f. induction names as [|n names IH]; intros f; [done|].
  cbn. f_equal. apply (IH (f ∘ S)).
Qed.

Lemma imap_values (names : list string) (f : nat → nat) :
  (imap (λ j name, (name, f j)) names).*2 = f <$> seq 0 (length names).
Proof.
  revert f. induction names as [|n names IH]; intros f; [done|].
  cbn. f_equal. etrans; [apply (IH (f ∘ S))|].
  by rewrite <- fmap_S_seq, <- list_fmap_compose.
Qed.

Lemma zero_class_stat_imap names :
  NoDup names → zero_class_stat names = imap (λ _ name, (name, 0)) names.
Proof.
  unfold zero_class_stat.
  induction names as [|n names IH] using rev_ind; intros Hnd; [done|].
  apply NoDup_app in Hnd as (Hnd & Hn & _).
  rewrite foldl_snoc, imap_app, IH by done. cbn.
  apply alist_set_new.
  rewrite (imap_keys names (λ _, 0)).
  intros Hin. by apply (Hn n); [|left].
Qed.

Lemma py_index_nat {A} (l : list A) (i : nat) x :
  l !! i = Some x → py_index l (Z.of_nat i) = Ok x.
Proof.
  intros Hi. unfold py_index.
  pose proof (lookup_lt_Some _ _ _ Hi) as Hlt.
  replace (Z.of_nat i <? 0)%Z with false by (symmetry; apply Z.ltb_ge; lia).
  replace (0 <=? Z.of_nat i)%Z with true by (symmetry; apply Z.leb_le; lia).
  replace (Z.of_nat i <? Z.of_nat (length l))%Z with true
    by (symmetry; apply Z.ltb_lt; lia).
  cbn. by rewrite Nat2Z.id, Hi.
Qed.

Lemma count_labels_imap names ls (f : nat → nat) :
  NoDup names → Forall (λ l, 1 ≤ l ≤ length names) ls →
  count_labels names ls (imap (λ j name, (name, f j)) names)
  = Ok (imap (λ j name,
                (name, f j + length (filter (λ l, l = j + 1) ls))) names).
Proof.
  intros Hnd. revert f. induction ls as [|l ls IH]; intros f Hls; cbn.
  - f_equal. apply imap_ext. intros j x _. cbn. by rewrite Nat.add_0_r.
  - apply Forall_cons in Hls as [Hl Hls].
    destruct (lookup_lt_is_Some_2 names (l - 1)) as [n Hn]; [lia|].
    replace (Z.of_nat l - 1)%Z with (Z.of_nat (l - 1)) by lia.
    rewrite (py_index_nat _ _ _ Hn). cbn.
    rewrite (alist_get_imap _ _ _ _ Hnd Hn). cbn.
    rewrite (alist_set_imap names f
               (λ j, if decide (j = l - 1) then f j + 1 else f j)
               (l - 1) n (f (l - 1) + 1) Hnd Hn).
    + rewrite IH by done. f_equal. apply imap_ext. intros j x _.
      destruct (decide (j = l - 1)) as [->|Hne].
      * rewrite decide_True by lia. cbn [length].
        apply (f_equal (pair x)). unfold filter. lia.
      * rewrite decide_False by lia. done.
    + by rewrite decide_True.
    + intros j Hj. by rewrite decide_False.
Qed.

Lemma count_examples_imap names data (f : nat → nat) :
  NoDup names → class_labels (length names) data →
  count_examples names data (imap (λ j name, (name, f j)) names)
  = Ok (imap (λ j name, (name, f j + boxes_with_label (j + 1) data)) names).
Proof.
  intros Hnd. revert f. induction data as [|example data IH]; intros f Hd; cbn.
  - f_equal. apply imap_ext. intros j x _. cbn.
    unfold boxes_with_label. cbn. by rewrite Nat.add_0_r.
  - apply Forall_cons in Hd as [Hex Hd].
    rewrite count_labels_imap by done. cbn.
    rewrite IH by done. f_equal. apply imap_ext. intros j x _. cbn.
    unfold boxes_with_label. cbn. f_equal. lia.
Qed.

Lemma sum_list_snoc (l : list nat) (x : nat) :
  sum_list (l ++ [x]) = sum_list l + x.
Proof. induction l as [|y l IH]; cbn; lia. Qed.

Lemma sum_list_indicator (l N : nat) :
  1 ≤ l ≤ N →
  sum_list ((λ j, if decide (l = j + 1) then 1 else 0) <$> seq 0 N) = 1.
Proof.
  induction N as [|N IH]; intros Hl; [lia|].
  rewrite seq_S, fmap_app. cbn [fmap list_fmap]. rewrite sum_list_snoc.
  cbn [Nat.add].
  destruct (decide (l = N + 1)) as [->|Hne].
  - assert (sum_list ((λ j, if decide (N + 1 = j + 1) then 1 else 0)
                        <$> seq 0 N) = 0) as ->; [|done].
    clear. assert (∀ j, j ∈ seq 0 N → j < N) as Hlt
      by (intros j ?%elem_of_seq; lia).
    induction (seq 0 N) as [|j s IHs]; [done|]. cbn.
    rewrite decide_False by (specialize (Hlt j (list_elem_of_here _ _)); lia).
    apply IHs. intros k Hk. apply Hlt. by right.
  - rewrite IH by lia. done.
Qed.

Lemma sum_list_label_counts (ls : list nat) (N : nat) :
  Forall (λ l, 1 ≤ l ≤ N) ls →
  sum_list ((λ j, length (filter (λ l, l = j + 1) ls)) <$> seq 0 N) = length ls.
Proof.
  induction ls as [|l ls IH]; intros Hls.
  - change (sum_list ((λ _ : nat, 0) <$> seq 0 N) = 0).
    rewrite sum_list_fmap_const. lia.
  - apply Forall_cons in Hls as [Hl Hls]. cbn [length].
    assert (∀ s : list nat,
              sum_list ((λ j, length (filter (λ l0, l0 = j + 1) (l :: ls))) <$> s)
              = sum_list ((λ j, if decide (l = j + 1) then 1 else 0) <$> s)
                + sum_list ((λ j, length (filter (λ l0, l0 = j + 1) ls)) <$> s))
      as Hsplit.
    { induction s as [|j s IHs]; [done|].
      cbn [fmap list_fmap sum_list]. rewrite IHs, filter_cons.
      destruct (decide (l = j + 1)); cbn [length]; unfold filter, id; lia. }
    rewrite Hsplit, (IH Hls), (sum_list_indicator l N Hl). done.
Qed.

Lemma sum_list_boxes_with_label data N :
  class_labels N data →
  sum_list ((λ j, boxes_with_label (j + 1) data) <$> seq 0 N)
  = sum_list ((λ example, length (labels example)) <$> data).
Proof.
  induction data as [|example data IH]; intros Hd.
  - change (sum_list ((λ _ : nat, 0) <$> seq 0 N) = 0).
    rewrite sum_list_fmap_const. lia.
  - apply Forall_cons in Hd as [Hex Hd]. cbn [fmap list_fmap sum_list].
    rewrite <- (IH Hd), <- (sum_list_label_counts _ _ Hex).
    unfold boxes_with_label. cbn [fmap list_fmap sum_list].
    generalize (seq 0 N) as s. induction s as [|j s IHs]; [done|].
    cbn [fmap list_fmap sum_list]. rewrite IHs. unfold id. lia.
Qed.

(** The first [__repr__] of a dataset with distinct class names and labels
    from 1 to their number returns, and leaves in [class_stat] one entry for
    every class name, in vocabulary order, with the number of boxes of that
    class (boxes, not images); the numbers add up to the number of all
    labels of the data. *)
Theorem dataset_repr_class_stat ds :
  NoDup (class_names ds) →
  class_labels (length (class_names ds)) (data ds) →
  ∃ text class_stat,
    dataset_repr ds None = Ok (text, class_stat)
    ∧ class_stat
      = imap (λ j name, (name, boxes_with_label (j + 1) (data ds)))
             (class_names ds)
    ∧ sum_list class_stat.*2
      = sum_list ((λ example, length (labels example)) <$> data ds).
Proof.
  intros Hnd Hlabels. unfold dataset_repr.
  rewrite zero_class_stat_imap by done.
  rewrite (count_examples_imap _ _ (λ _, 0)) by done. cbn.
  eexists _, _. split; [done|]. split; [done|].
  rewrite (imap_values _ (λ j, boxes_with_label (j + 1) (data ds))).
  by apply sum_list_boxes_with_label.
Qed.

Lemma dataset_repr_class_stat_witness :
  ∃ text, dataset_repr Scenario.dataset None
          = Ok (text, [("A", 2); ("B", 1); ("C", 1)]).
Proof.
  assert (NoDup (class_names Scenario.dataset)) as Hnd.
  { apply (bool_decide_unpack _). vm_compute. exact I. }
  assert (class_labels 3 (data Scenario.dataset)) as Hl.
  { cbn. repeat constructor. }
  destruct (dataset_repr_class_stat Scenario.dataset Hnd Hl)
    as (text & stat & H & -> & _).
  by exists text.
Defined.

(** ** Further properties of the training script *)

Section PassFacts.
Context `{C : Collaborators}.

(** *** [test] *)

Lemma foldl_test_step w loader x y z k :
  ∃ x' y' z',
    foldl (test_step w) (x, y, z, k) loader
    = (x', y', z', (k + Z.of_nat (length loader))%Z)
    ∧ (x' == x + Qsum ((λ p, p.1 + p.2) <$> (forward_loss w <$> loader)))%Q
    ∧ (y' == y + Qsum (fst <$> (forward_loss w <$> loader)))%Q
    ∧ (z' == z + Qsum (snd <$> (forward_loss w <$> loader)))%Q.
Proof.
  revert x y z k. induction loader as [|data loader IH]; intros x y z k.
  - exists x, y, z. cbn [foldl length fmap list_fmap Qsum foldr].
    rewrite Z.add_0_r. repeat split; try done; ring.
  - cbn [foldl]. unfold test_step at 2.
    destruct (forward_loss w data) as [r c] eqn:E.
    destruct (IH (x + (r + c))%Q (y + r)%Q (z + c)%Q (k + 1)%Z)
      as (x' & y' & z' & Hfold & Hx & Hy & Hz).
    exists x', y', z'. rewrite Hfold.
    cbn [fmap list_fmap length]. rewrite E, !Qsum_cons. cbn [fst snd].
    split; [f_equal; lia|]. rewrite Hx, Hy, Hz. repeat split; ring.
Qed.

(** [test] on an empty loader raises [ZeroDivisionError]; on any other
    loader it returns the sums of the total, regression and classification
    losses of the batches, all taken with the weights it was given, divided by
    the number of batches. *)
Theorem test_average loader net :
  (loader = [] → test loader net = Raise ZeroDivisionError)
  ∧ (loader ≠ [] →
     let L := forward_loss (weights net) <$> loader in
     let n := Q_of_nat (length loader) in
     ∃ a b c, test loader net = Ok (a, b, c)
              ∧ (a == Qsum ((λ p, p.1 + p.2) <$> L) / n)%Q
              ∧ (b == Qsum (fst <$> L) / n)%Q
              ∧ (c == Qsum (snd <$> L) / n)%Q).
Proof.
  split.
  - intros ->. reflexivity.
  - intros Hne L n. unfold test.
    destruct (foldl_test_step (weights net) loader 0 0 0 0)
      as (x & y & z & -> & Hx & Hy & Hz).
    assert (Z.of_nat (length loader) ≠ 0%Z) as Hn
      by (destruct loader; [done|cbn; lia]).
    unfold py_div. rewrite Z.add_0_l, (bool_decide_eq_false_2 _ Hn). cbn.
    eexists _, _, _. split; [done|]. fold L in Hx, Hy, Hz.
    unfold n, Q_of_nat, Q_of_Z. rewrite Hx, Hy, Hz.
    repeat split; apply Qdiv_comp; try reflexivity; ring.
Qed.

(** *** [train] *)

Lemma train_step_outcome groups frz debug_steps st i data :
  match train_step groups frz debug_steps st i data with
  | Ok _ => i = 0 ∨ debug_steps ≠ 0%Z
  | Raise e => e = ZeroDivisionError ∧ i ≠ 0 ∧ debug_steps = 0%Z
  end.
Proof.
  unfold train_step.
  destruct (forward_loss (tl_weights st) data) as [r c].
  destruct (sgd_step groups frz (tl_weights st) (tl_opt_state st) data) as [w buf].
  repeat case_bool_decide; tauto.
Qed.

Lemma train_steps_outcome groups frz debug_steps st batches :
  match train_steps groups frz debug_steps st batches with
  | Ok _ => Forall (λ p, p.1 = 0 ∨ debug_steps ≠ 0%Z) batches
  | Raise e =>
      e = ZeroDivisionError
      ∧ debug_steps = 0%Z ∧ ¬ Forall (λ p, p.1 = 0) batches
  end.
Proof.
  revert st. induction batches as [|[i data] batches IH]; intros st; cbn;
    [constructor|].
  pose proof (train_step_outcome groups frz debug_steps st i data) as H1.
  destruct (train_step groups frz debug_steps st i data) as [st1|e]; cbn.
  - specialize (IH st1).
    destruct (train_steps groups frz debug_steps st1 batches) as [st2|e].
    + by constructor.
    + destruct IH as (-> & Hd & Hno). repeat split; try done.
      by intros [_ ?]%Forall_cons.
  - destruct H1 as (-> & Hi & Hd). repeat split; try done.
    by intros [? _]%Forall_cons.
Qed.

Lemma enumerate_first_only {A} (l : list A) :
  Forall (λ p : nat * A, p.1 = 0) (enumerate l) ↔ length l ≤ 1.
Proof.
  rewrite Forall_forall. split.
  - intros H. destruct l as [|x [|y l]]; cbn; try lia.
    specialize (H (1, y)). cbn in H.
    assert ((1, y) ∈ enumerate (x :: y :: l)) as Hin
      by by apply elem_of_enumerate.
    specialize (H Hin). lia.
  - intros Hlen [i x] Hin. cbn. apply elem_of_enumerate in Hin.
    apply lookup_lt_Some in Hin. lia.
Qed.

Lemma train_cases loader net optimizer debug_steps :
  match train loader net optimizer debug_steps with
  | Ok _ => loader ≠ [] ∧ (debug_steps ≠ 0%Z ∨ length loader = 1)
  | Raise e =>
      e = ZeroDivisionError
      ∧ (loader = [] ∨ (debug_steps = 0%Z ∧ 2 ≤ length loader))
  end.
Proof.
  unfold train.
  match goal with
  | |- context [train_steps ?g ?f ?d ?st ?b] =>
      pose proof (train_steps_outcome g f d st b) as Hsteps;
      destruct (train_steps g f d st b) as [st'|e]
  end; cbn.
  - unfold py_div. case_bool_decide as Hn; cbn.
    + split; [done|]. left. destruct loader; [done|cbn in Hn; lia].
    + assert (loader ≠ []) as Hne by (intros ->; by apply Hn).
      split; [done|].
      destruct (decide (debug_steps = 0%Z)) as [Hd|Hd]; [|by left]. right.
      assert (Forall (λ p : nat * Batch, p.1 = 0) (enumerate loader)) as H0.
      { eapply Forall_impl; [exact Hsteps|]. cbn. tauto. }
      apply enumerate_first_only in H0.
      destruct loader as [|? [|? ?]]; cbn in *; try done; lia.
  - destruct Hsteps as (-> & Hd & Hno). split; [done|]. right.
    split; [done|]. rewrite enumerate_first_only in Hno. lia.
Qed.

(** The divisions of [train] by zero, on the batches that the loader
    yields: without a batch it raises [ZeroDivisionError] (the division by
    [len(loader)] at the end); with [debug_steps = 0] and two batches or more
    it raises it too (the [i % debug_steps] at the second batch); with
    [debug_steps = 0] and one batch it returns, since [i and ...] does not
    take the remainder at [i = 0]. *)
Theorem train_zero_division loader net optimizer debug_steps :
  (loader = [] →
   train loader net optimizer debug_steps = Raise ZeroDivisionError)
  ∧ (debug_steps = 0%Z → 2 ≤ length loader →
     train loader net optimizer debug_steps = Raise ZeroDivisionError)
  ∧ (debug_steps = 0%Z → length loader = 1 →
     returns (train loader net optimizer debug_steps)).
Proof.
  pose proof (train_cases loader net optimizer debug_steps) as H.
  destruct (train loader net optimizer debug_steps) as [r|e].
  - destruct H as [Hne [Hd|Hlen]]; repeat split; try done;
      try (intros; lia); intros; by eexists.
  - destruct H as [-> H]. repeat split; try done.
    intros Hd Hlen. destruct H as [->|[_ H2]]; [done|lia].
Qed.

Lemma train_steps_updates groups frz debug_steps st batches st' :
  train_steps groups frz debug_steps st batches = Ok st' →
  (tl_weights st', tl_opt_state st')
  = apply_updates groups frz (tl_weights st, tl_opt_state st) batches.*2.
Proof.
  revert st. induction batches as [|[i data] batches IH]; intros st H; cbn in H.
  - by injection H as <-.
  - inv_bind H. apply train_step_spec in Ha as (_ & _ & _ & Ew & Eb & _).
    rewrite (IH _ H). cbn. rewrite Ew, Eb. unfold apply_updates. cbn.
    by destruct (sgd_step groups frz (tl_weights st) (tl_opt_state st) data).
Qed.

(** The weights and the optimizer state that [train] returns are those
    after one update for every batch, in the order of the loader, whatever
    [debug_steps] is. *)
Theorem train_updates loader net optimizer debug_steps r :
  train loader net optimizer debug_steps = Ok r →
  (tr_weights r, tr_opt_state r)
  = apply_updates (param_groups optimizer) (frozen net)
      (weights net, opt_state optimizer) loader.
Proof.
  unfold train. intros H. inv_bind H. subst r. cbn.
  apply train_steps_updates in Ha. by rewrite snd_enumerate in Ha.
Qed.

End PassFacts.

Lemma test_average_witness :
  ∃ a b c, @test Toy.toy (Toy.batches [(1, 2)%Q; (3, 4)%Q]) Toy.net0
           = Ok (a, b, c)
           ∧ (a == 5)%Q ∧ (b == 2)%Q ∧ (c == 3)%Q.
Proof.
  destruct (test_average (C := Toy.toy) (Toy.batches [(1, 2)%Q; (3, 4)%Q])
              Toy.net0) as [_ H].
  destruct H as (a & b & c & Ht & Ha & Hb & Hc); [done|].
  exists a, b, c. split; [exact Ht|].
  rewrite Ha, Hb, Hc. repeat split; reflexivity.
Defined.

Lemma train_zero_division_witness :
  @train Toy.toy (Toy.batches [(1, 2)%Q; (3, 4)%Q]) Toy.net0 Toy.optimizer0 0
  = Raise ZeroDivisionError.
Proof.
  destruct (train_zero_division (C := Toy.toy)
              (Toy.batches [(1, 2)%Q; (3, 4)%Q]) Toy.net0 Toy.optimizer0 0)
    as (_ & H & _).
  apply H; [reflexivity|cbn; lia].
Defined.

Lemma train_updates_witness :
  ∃ r, @train Toy.toy (Toy.batches [(1, 2)%Q; (3, 4)%Q]) Toy.net0
         Toy.optimizer0 1 = Ok r
       ∧ (tr_weights r, tr_opt_state r) = (Toy.updates 2, Toy.buffers 2).
Proof.
  assert (returns (@train Toy.toy (Toy.batches [(1, 2)%Q; (3, 4)%Q]) Toy.net0
                     Toy.optimizer0 1)) as [r Hr]
    by (apply is_ok_returns; vm_compute; reflexivity).
  exists r. split; [exact Hr|].
  rewrite (train_updates (C := Toy.toy) _ _ _ _ _ Hr). reflexivity.
Defined.

Section LoopFacts.
Context `{C : Collaborators}.

Lemma test_raises loader net e :
  test loader net = Raise e → e = ZeroDivisionError.
Proof.
  unfold test. destruct (foldl _ _ loader) as [[[x y] z] k].
  unfold py_div. case_bool_decide; cbn; [by intros [= <-]|done].
Qed.

Lemma train_raises loader net optimizer debug_steps e :
  train loader net optimizer debug_steps = Raise e → e = ZeroDivisionError.
Proof.
  unfold train.
  match goal with
  | |- context [train_steps ?g ?f ?d ?st ?b] =>
      pose proof (train_steps_outcome g f d st b) as Hsteps;
      destruct (train_steps g f d st b) as [st'|e']
  end; cbn.
  - unfold py_div. case_bool_decide; cbn; [by intros [= <-]|done].
  - destruct Hsteps as (-> & _). by intros [= <-].
Qed.

Lemma interval_hit_raises epoch every n e :
  interval_hit epoch every n = Raise e → e = ZeroDivisionError.
Proof. unfold interval_hit. case_bool_decide; [by intros [= <-]|done]. Qed.

(** What one pass of the loop leaves behind. *)
Lemma epoch_body_effects a env epoch s r s' :
  epoch_body a env epoch s = (r, s') →
  match r with
  | Ok _ =>
      ∃ v c : bool,
        validates a epoch = Ok v ∧ checkpoints a epoch = Ok c
        ∧ (λ row, row.1.1.1) <$> s_report s'
          = ((λ row, row.1.1.1) <$> s_report s) ++ (if v then [epoch] else [])
        ∧ (if v then
             ∃ val_losses,
               test (val_loader env) (s_net s') = Ok val_losses
               ∧ s_model_path s'
                 = Some (checkpoint_name a env epoch (PyFloat val_losses.1.1))
           else s_model_path s' = s_model_path s)
        ∧ (if c then ∃ p, s_model_path s' = Some p
                          ∧ s_saved s' = s_saved s ++ [(p, epoch)]
           else s_saved s' = s_saved s)
  | Raise e =>
      e = ZeroDivisionError
      ∨ (e = NameError "model_path" ∧ s_model_path s = None
         ∧ validates a epoch = Ok false ∧ checkpoints a epoch = Ok true)
  end.
Proof.
  unfold epoch_body, validates, checkpoints, mbind, Run_mbind, run_bind, get,
    lift, modify, mret, Run_mret, run_ret.
  destruct (train _ _ _ _) as [tr|e] eqn:Etrain;
    [|intros [= <- <-]; left; by eapply train_raises].
  destruct (interval_hit epoch (validation_epochs a) (num_epochs a))
    as [[|]|e] eqn:Ev;
    [| |intros [= <- <-]; left; by eapply interval_hit_raises].
  - destruct (test _ _) as [val_losses|e] eqn:Etest;
      [|intros [= <- <-]; left; by eapply test_raises].
    destruct (interval_hit epoch (checkpoint_epochs a) (num_epochs a))
      as [[|]|e] eqn:Ec;
      [| |intros [= <- <-]; left; by eapply interval_hit_raises].
    + cbn [s_model_path after_validation].
      unfold after_scheduler_step. destruct (scheduler_step _ _ _).
      intros [= <- <-]. cbn. exists true, true.
      rewrite fmap_app. repeat split; try done; by eexists.
    + unfold after_scheduler_step. destruct (scheduler_step _ _ _).
      intros [= <- <-]. cbn. exists true, false.
      rewrite fmap_app. repeat split; try done; by eexists.
  - destruct (interval_hit epoch (checkpoint_epochs a) (num_epochs a))
      as [[|]|e] eqn:Ec;
      [| |intros [= <- <-]; left; by eapply interval_hit_raises].
    + cbn [s_model_path after_train].
      destruct (s_model_path s) as [p|] eqn:Ep; [|intros [= <- <-]; by right].
      unfold after_scheduler_step. destruct (scheduler_step _ _ _).
      intros [= <- <-]. cbn. exists false, true.
      rewrite app_nil_r. repeat split; try done. by exists p.
    + unfold after_scheduler_step. destruct (scheduler_step _ _ _).
      intros [= <- <-]. cbn. exists false, false.
      rewrite app_nil_r. by repeat split.
Qed.

Lemma for_each_errors a env epochs s e s' :
  for_each epochs (epoch_body a env) s = (Raise e, s') →
  (e = ZeroDivisionError ∨ e = NameError "model_path")
  ∧ (is_Some (s_model_path s) ∨ (∃ v, head epochs = Some 0%Z
                                      ∧ validation_epochs a = v) →
     e = ZeroDivisionError).
Proof.
  assert (∀ epochs s, is_Some (s_model_path s) →
            for_each epochs (epoch_body a env) s = (Raise e, s') →
            e = ZeroDivisionError) as Hbound.
  { clear epochs s. induction epochs as [|epoch epochs IH]; intros s Hp H;
      cbn in H; [done|].
    unfold mbind, Run_mbind, run_bind in H.
    destruct (epoch_body a env epoch s) as [[[]|e1] s1] eqn:Hbody;
      apply epoch_body_effects in Hbody.
    - destruct Hbody as (v & c & _ & _ & _ & Hpath & _).
      apply (IH s1); [|done].
      destruct v; [destruct Hpath as (vl & _ & ->); by eexists|by rewrite Hpath].
    - injection H as -> _.
      destruct Hbody as [->|(_ & Hnone & _)]; [done|].
      rewrite Hnone in Hp. by destruct Hp. }
  revert s. induction epochs as [|epoch epochs IH]; intros s H; cbn in H;
    [done|].
  unfold mbind, Run_mbind, run_bind in H.
  destruct (epoch_body a env epoch s) as [[[]|e1] s1] eqn:Hbody;
    pose proof (epoch_body_effects _ _ _ _ _ _ Hbody) as Heff.
  - destruct Heff as (v & c & Hv & _ & _ & Hpath & _).
    destruct (IH s1 H) as [Hkind _]. split; [done|].
    intros Hstart. apply (Hbound epochs s1); [|done].
    destruct v; [destruct Hpath as (vl & _ & ->); by eexists|].
    rewrite Hpath. destruct Hstart as [Hsome|(v' & [= ->] & _)]; [done|].
    unfold validates, interval_hit in Hv.
    case_bool_decide; [done|]. by injection Hv.
  - injection H as -> _. destruct Heff as [->|(-> & Hnone & Hv & _)].
    + split; [by left|done].
    + split; [by right|].
      intros [Hsome|(v' & [= ->] & _)].
      * rewrite Hnone in Hsome. by destruct Hsome.
      * unfold validates, interval_hit in Hv.
        case_bool_decide; [done|]. by injection Hv.
Qed.

(** A run that starts at epoch 0, or with a checkpoint name at hand,
    never stops for want of [model_path]: whatever ends its loop, it is not
    the [NameError] of line 458. *)
Theorem fresh_run_binds_model_path a env s e s' :
  epoch_loop a env s = (Raise e, s') →
  s_last_epoch s = (-1)%Z ∨ is_Some (s_model_path s) →
  e ≠ NameError "model_path".
Proof.
  unfold epoch_loop. intros H Hstart.
  destruct (for_each_errors _ _ _ _ _ _ H) as [_ Hfresh].
  assert (e = ZeroDivisionError) as ->; [|done].
  destruct Hstart as [Hlast|Hsome]; apply Hfresh; [|by left].
  right. exists (validation_epochs a). split; [|done].
  destruct (epochs_of a s) as [|epoch epochs] eqn:E; [by cbn in H|].
  unfold epochs_of, py_range in E. rewrite Hlast in E.
  destruct (Z.to_nat _) as [|n]; [done|].
  cbn in E. by injection E as <- _.
Qed.

Lemma for_each_effects a env epochs s s' :
  for_each epochs (epoch_body a env) s = (Ok (), s') →
  (λ row, row.1.1.1) <$> s_report s'
  = ((λ row, row.1.1.1) <$> s_report s)
    ++ filter (λ epoch, validates a epoch = Ok true) epochs
  ∧ (s_saved s').*2
    = (s_saved s).*2 ++ filter (λ epoch, checkpoints a epoch = Ok true) epochs.
Proof.
  revert s. induction epochs as [|epoch epochs IH]; intros s H; cbn in H.
  - injection H as <-. by rewrite !app_nil_r.
  - unfold mbind, Run_mbind, run_bind in H.
    destruct (epoch_body a env epoch s) as [[[]|e1] s1] eqn:Hbody; [|done].
    apply epoch_body_effects in Hbody
      as (v & c & Hv & Hc & Hrep & _ & Hsaved).
    destruct (IH s1 H) as [IHr IHs]. rewrite IHr, IHs, Hrep, !filter_cons.
    rewrite Hv, Hc. split.
    + destruct v; [rewrite decide_True by done|rewrite decide_False by done];
        by rewrite <- app_assoc.
    + destruct c.
      * destruct Hsaved as (p & _ & ->). rewrite decide_True by done.
        by rewrite fmap_app, <- app_assoc.
      * by rewrite Hsaved, decide_False.
Qed.

(** A loop that runs to its end has added one row to the report for every
    epoch at which validation ran, and made one call of [net.save] for every
    epoch at which a checkpoint was due, in the order of the epochs. *)
Theorem epoch_loop_writes a env s s' :
  epoch_loop a env s = (Ok (), s') →
  (λ row, row.1.1.1) <$> s_report s'
  = ((λ row, row.1.1.1) <$> s_report s)
    ++ filter (λ epoch, validates a epoch = Ok true) (epochs_of a s)
  ∧ (s_saved s').*2
    = (s_saved s).*2
      ++ filter (λ epoch, checkpoints a epoch = Ok true) (epochs_of a s).
Proof. unfold epoch_loop. apply for_each_effects. Qed.

Lemma for_each_names a env epochs s r s' :
  for_each epochs (epoch_body a env) s = (r, s') →
  (∀ epoch, epoch ∈ epochs → checkpoints a epoch = Ok true →
            validates a epoch = Ok true) →
  ∃ saves,
    s_saved s' = s_saved s ++ saves
    ∧ Forall (λ save,
        ∃ i val_losses,
          epochs !! i = Some save.2
          ∧ test (val_loader env)
              (s_net (for_each (take (S i) epochs) (epoch_body a env) s).2)
            = Ok val_losses
          ∧ save.1 = checkpoint_name a env save.2 (PyFloat val_losses.1.1))
        saves.
Proof.
  revert s. induction epochs as [|epoch epochs IH]; intros s H Hall; cbn in H.
  - injection H as <- <-. exists []. by rewrite app_nil_r.
  - unfold mbind, Run_mbind, run_bind in H.
    destruct (epoch_body a env epoch s) as [[[]|e1] s1] eqn:Hbody.
    + pose proof (epoch_body_effects _ _ _ _ _ _ Hbody)
        as (v & c & Hv & Hc & _ & Hpath & Hsaved).
      destruct (IH s1 H) as (saves & Hs & HF).
      { intros e He. apply Hall. by right. }
      assert (Forall (λ save,
                ∃ i val_losses,
                  (epoch :: epochs) !! i = Some save.2
                  ∧ test (val_loader env)
                      (s_net (for_each (take (S i) (epoch :: epochs))
                                (epoch_body a env) s).2)
                    = Ok val_losses
                  ∧ save.1 = checkpoint_name a env save.2
                               (PyFloat val_losses.1.1)) saves) as HF'.
      { eapply Forall_impl; [exact HF|].
        intros save (i & vl & Hi & Htest & Hname). exists (S i), vl.
        by rewrite (for_each_take_S _ _ _ _ _ _ Hbody). }
      destruct c.
      * destruct Hsaved as (p & Hp & Hs1).
        exists ((p, epoch) :: saves). rewrite Hs, Hs1, <- app_assoc.
        split; [done|]. constructor; [|done].
        specialize (Hall epoch (list_elem_of_here _ _) Hc).
        rewrite Hall in Hv. injection Hv as <-.
        destruct Hpath as (vl & Htest & Hq). exists 0, vl.
        rewrite (for_each_take_S _ _ _ _ _ _ Hbody), take_0. cbn.
        repeat split; [done|congruence].
      * exists saves. by rewrite Hs, Hsaved.
    + injection H as <- <-.
      assert (s_saved s1 = s_saved s) as ->; [|exists []; by rewrite app_nil_r].
      clear -Hbody. revert Hbody.
      unfold epoch_body, mbind, Run_mbind, run_bind, get, lift, modify, mret,
        Run_mret, run_ret.
      destruct (train _ _ _ _); [|by intros [= _ <-]].
      destruct (interval_hit epoch (validation_epochs a) (num_epochs a))
        as [[|]|]; [| |by intros [= _ <-]].
      * destruct (test _ _); [|by intros [= _ <-]].
        destruct (interval_hit epoch (checkpoint_epochs a) (num_epochs a))
          as [[|]|]; cbn [s_model_path after_validation];
          unfold after_scheduler_step; try destruct (scheduler_step _ _ _);
          by intros [= _ <-].
      * destruct (interval_hit epoch (checkpoint_epochs a) (num_epochs a))
          as [[|]|]; cbn [s_model_path after_train];
          try destruct (s_model_path s);
          unfold after_scheduler_step; try destruct (scheduler_step _ _ _);
          by intros [= _ <-].
Qed.

(** When every epoch with a checkpoint is an epoch with validation (as with
    the default [--validation-epochs 1]), every call of [net.save] gets the
    file name made from its own epoch and the validation loss of that
    epoch: the loss that [test] gives on the validation loader for the
    network of that pass. *)
Theorem checkpoint_names_when_validated a env s r s' :
  epoch_loop a env s = (r, s') →
  (∀ epoch, epoch ∈ epochs_of a s → checkpoints a epoch = Ok true →
            validates a epoch = Ok true) →
  ∃ saves,
    s_saved s' = s_saved s ++ saves
    ∧ Forall (λ save,
        ∃ i val_losses,
          epochs_of a s !! i = Some save.2
          ∧ test (val_loader env) (s_net (session_after a env s (S i)))
            = Ok val_losses
          ∧ save.1 = checkpoint_name a env save.2 (PyFloat val_losses.1.1))
        saves.
Proof. unfold epoch_loop, session_after. apply for_each_names. Qed.

End LoopFacts.

Lemma fresh_run_binds_model_path_witness :
  ∃ e s', @epoch_loop Toy.toy (parse_args (Toy.options 3 0 1 None false false))
            Toy.env Toy.session0 = (Raise e, s')
          ∧ e ≠ NameError "model_path".
Proof.
  pose proof (surjective_pairing
                (@epoch_loop Toy.toy
                   (parse_args (Toy.options 3 0 1 None false false))
                   Toy.env Toy.session0)) as H.
  assert ((@epoch_loop Toy.toy (parse_args (Toy.options 3 0 1 None false false))
             Toy.env Toy.session0).1 = Raise ZeroDivisionError) as Hfst
    by (vm_compute; reflexivity).
  rewrite Hfst in H. eexists _, _. split; [exact H|].
  apply (fresh_run_binds_model_path (C := Toy.toy) _ _ _ _ _ H). by left.
Defined.

Lemma epoch_loop_writes_witness :
  (λ row, row.1.1.1)
    <$> s_report (@epoch_loop Toy.toy
                    (parse_args (Toy.options 3 2 1 None false false))
                    Toy.env Toy.session0).2 = [0; 2]%Z
  ∧ (s_saved (@epoch_loop Toy.toy
                (parse_args (Toy.options 3 2 1 None false false))
                Toy.env Toy.session0).2).*2 = [0; 1; 2; 3]%Z.
Proof.
  pose proof (surjective_pairing
                (@epoch_loop Toy.toy
                   (parse_args (Toy.options 3 2 1 None false false))
                   Toy.env Toy.session0)) as H.
  assert ((@epoch_loop Toy.toy (parse_args (Toy.options 3 2 1 None false false))
             Toy.env Toy.session0).1 = Ok ()) as Hfst
    by (vm_compute; reflexivity).
  rewrite Hfst in H.
  destruct (epoch_loop_writes (C := Toy.toy) _ _ _ _ H) as [Hr Hs].
  rewrite Hr, Hs. split; vm_compute; reflexivity.
Defined.

Lemma checkpoint_names_when_validated_witness :
  ∃ saves,
    s_saved (@epoch_loop Toy.toy
               (parse_args (Toy.options 3 1 1 None false false))
               Toy.env Toy.session0).2
    = s_saved Toy.session0 ++ saves
    ∧ Forall (λ save,
        ∃ i val_losses,
          epochs_of (parse_args (Toy.options 3 1 1 None false false))
            Toy.session0 !! i = Some save.2
          ∧ @test Toy.toy (val_loader Toy.env)
              (s_net (session_after
                        (parse_args (Toy.options 3 1 1 None false false))
                        Toy.env Toy.session0 (S i)))
            = Ok val_losses
          ∧ save.1
            = @checkpoint_name Toy.toy
                (parse_args (Toy.options 3 1 1 None false false))
                Toy.env save.2 (PyFloat val_losses.1.1)) saves.
Proof.
  apply (checkpoint_names_when_validated (C := Toy.toy) _ _ _ _ _
           (surjective_pairing _)).
  intros epoch _ _. unfold validates, interval_hit. cbn.
  by rewrite Z.mod_1_r.
Defined.

Section MoreStartupFacts.
Context `{C : Collaborators}.

Lemma length_py_range start stop :
  length (py_range start stop) = Z.to_nat (stop - start).
Proof. unfold py_range. by rewrite length_fmap, length_seq. Qed.

Lemma last_py_range start stop :
  (start < stop)%Z → last (py_range start stop) = Some (stop - 1)%Z.
Proof.
  intros H. unfold py_range.
  destruct (Z.to_nat (stop - start)) as [|n] eqn:E; [lia|].
  rewrite seq_S, fmap_app. cbn [fmap list_fmap]. rewrite last_snoc.
  f_equal. lia.
Qed.

(** A run without [--resume] that gets through the start runs the epochs
    0, 1, ..., [num_epochs]: one more than [--num-epochs] says, the last one
    being [num_epochs] itself; and it enters the loop with no checkpoint name
    made. *)
Theorem fresh_run_epochs cl env files s :
  truthy (cl_resume cl) = None →
  startup (parse_args cl) env files = Ok s →
  let a := parse_args cl in
  s_last_epoch s = (-1)%Z ∧ s_r_epoch s = 0%Z ∧ s_model_path s = None
  ∧ epochs_of a s = py_range 0 (num_epochs a + 1)
  ∧ length (epochs_of a s) = Z.to_nat (num_epochs a + 1)
  ∧ ((0 ≤ num_epochs a)%Z →
     head (epochs_of a s) = Some 0%Z
     ∧ last (epochs_of a s) = Some (num_epochs a)).
Proof.
  intros Hresume Hstart a. unfold startup in Hstart. fold a in Hstart.
  inv_bind Hstart.
  match goal with
  | H : load_and_optimize _ _ _ = Ok ?l |- _ =>
      destruct l as [[[n o] r] l]; unfold load_and_optimize in H;
      change (resume a) with (cl_resume cl) in H; rewrite Hresume in H;
      inv_bind H
  end.
  subst. unfold report_rates_and_schedule in Hstart. inv_bind Hstart.
  match goal with
  | H : make_scheduler _ _ _ = Ok ?p |- _ => destruct p as [sch o']
  end.
  inv_bind Hstart. subst s. unfold epochs_of.
  cbn [s_last_epoch s_r_epoch s_model_path].
  replace (-1 + 1)%Z with 0%Z by lia.
  replace (num_epochs a + 0 + 1)%Z with (num_epochs a + 1)%Z by lia.
  repeat split; try done.
  - rewrite length_py_range. f_equal. lia.
  - apply head_py_range. lia.
  - rewrite last_py_range by lia. f_equal. lia.
Qed.

(** Every part of the network is either frozen or in one parameter group
    of the new optimizer, whatever the freeze flags are: the frozen parts
    followed by the parts of the groups are the five parts, each once, and
    the frozen parts are those without a learning rate.  With
    [--freeze-base-net] only the backbone is frozen, whether or not
    [--freeze-net] is given too. *)
Theorem every_part_frozen_or_grouped a o :
  new_optimizer a = Ok o →
  (optimizer_params a).1 ++ mjoin (pg_params <$> param_groups o) = all_parts
  ∧ (∀ part, lr_of_part o part = None ↔ part ∈ (optimizer_params a).1)
  ∧ (freeze_base_net a = true → (optimizer_params a).1 = [part_base_net]).
Proof.
  intros H. apply new_optimizer_groups in H.
  unfold lr_of_part, optimizer_params, freeze_policy. rewrite H.
  destruct (freeze_base_net a), (freeze_net a); cbn;
    (split; [done|split; [|done]]);
    intros []; split; intros Hp;
    first [ by vm_compute
          | by vm_compute in Hp
          | by repeat constructor
          | repeat (apply elem_of_cons in Hp as [Hp|Hp]; try done);
            by apply elem_of_nil in Hp ].
Qed.

(** The prediction heads are always trained at the global rate, and
    [get_current_lr], the rate that goes into the report, reads the first
    group: the rate of the backbone when nothing is frozen, that of the extra
    layers under [--freeze-base-net], the global one under [--freeze-net]
    alone. *)
Theorem rates_of_heads_and_report a o :
  new_optimizer a = Ok o →
  lr_of_part o part_regression_headers = Some (lr a)
  ∧ lr_of_part o part_classification_headers = Some (lr a)
  ∧ get_current_lr o
    = Some (if freeze_base_net a then default (lr a) (extra_layers_lr a)
            else if freeze_net a then lr a
            else default (lr a) (base_net_lr a)).
Proof.
  intros H. apply new_optimizer_groups in H.
  unfold lr_of_part, get_current_lr. rewrite H.
  destruct (freeze_base_net a), (freeze_net a);
    repeat split; vm_compute; reflexivity.
Qed.

Lemma prelude_args os a env a' :
  prelude os a env = Ok a' →
  net a' = net a ∧ scheduler a' = scheduler a
  ∧ freeze_base_net a' = freeze_base_net a ∧ freeze_net a' = freeze_net a.
Proof.
  unfold prelude, make_checkpoint_folder. intros H.
  case_bool_decide; inv_bind H.
  - injection Ha as <-. by subst.
  - inv_bind Ha. by subst.
Qed.


End MoreStartupFacts.

Lemma fresh_run_epochs_witness :
  ∃ s, @startup Toy.toy (parse_args (Toy.options 2 1 1 None false false))
         Toy.env Toy.files = Ok s
       ∧ epochs_of (parse_args (Toy.options 2 1 1 None false false)) s
         = [0; 1; 2]%Z.
Proof.
  assert (returns (@startup Toy.toy
            (parse_args (Toy.options 2 1 1 None false false))
            Toy.env Toy.files)) as [s Hs]
    by (apply is_ok_returns; vm_compute; reflexivity).
  exists s. split; [exact Hs|].
  destruct (fresh_run_epochs (C := Toy.toy)
              (Toy.options 2 1 1 None false false) Toy.env Toy.files s
              eq_refl Hs) as (_ & _ & _ & -> & _).
  reflexivity.
Defined.

Lemma every_part_frozen_or_grouped_witness :
  ∃ o, @new_optimizer Toy.toy (parse_args (Toy.options 2 1 1 None true true))
       = Ok o
       ∧ lr_of_part o part_base_net = None
       ∧ (optimizer_params (parse_args (Toy.options 2 1 1 None true true))).1
         = [part_base_net].
Proof.
  eexists. split; [reflexivity|].
  destruct (every_part_frozen_or_grouped (C := Toy.toy)
              (parse_args (Toy.options 2 1 1 None true true)) _ eq_refl)
    as (_ & Hnone & Hbase).
  split; [|by apply Hbase].
  apply Hnone. rewrite Hbase by done. by left.
Defined.

Lemma rates_of_heads_and_report_witness :
  ∃ o, @new_optimizer Toy.toy (parse_args Toy.no_options) = Ok o
       ∧ get_current_lr o = Some (1 # 1000)%Q
       ∧ lr_of_part o part_regression_headers = Some (1 # 100)%Q.
Proof.
  eexists. split; [reflexivity|].
  destruct (rates_of_heads_and_report (C := Toy.toy)
              (parse_args Toy.no_options) _ eq_refl) as (Hr & _ & Hlr).
  split; [exact Hlr|exact Hr].
Defined.


(** ** Further properties: the preparation of the datasets *)

Lemma new_dataset_fields disk g path tr tg dt bal ds g' :
  new_dataset disk g path tr tg dt bal = Ok (ds, g') →
  root ds = path ∧ dataset_type ds = lower dt ∧ balance_data ds = bal
  ∧ (∃ data0, _read_data disk path (lower dt)
              = Ok (data0, class_names ds, class_dict ds)
              ∧ (bal = false →
                 data ds = data0 ∧ min_image_num ds = (-1)%Z ∧ g' = g)).
Proof.
  unfold new_dataset. intros H.
  apply bind_Ok in H as ([[data0 names] dict] & Hread & H).
  apply bind_Ok in H as ([[m kept] g1] & Hbal & H).
  injection H as <- <-. cbn. repeat split.
  exists data0. split; [done|]. intros ->. by injection Hbal as <- <- <-.
Qed.

Section PreparationFacts.
Context {VOC : Type}.
Variable VOCDataset :
  string → option Transform → option TargetTransform → bool → result VOC.
Variable voc_class_names : VOC → list string.
Variables (a : Args) (d : DataArgs) (disk : Disk).
Variables (train_transform test_transform : Transform).
Variable target_transform : TargetTransform.

Lemma prepare_step_open_images st path st' :
  a_dataset_type d = "open_images" →
  prepare_step VOCDataset voc_class_names a d disk train_transform
    target_transform st path = Ok st' →
  ∃ t g, new_dataset disk (rng st) path (Some train_transform)
           (Some target_transform) "train" (a_balance_data d) = Ok (t, g)
         ∧ st' = {| dataset_path := Some path;
                    datasets := datasets st ++ [inr t];
                    label_file := Some (path_join (checkpoint_folder a) "labels.txt");
                    num_classes := Some (length (class_names t));
                    labels_files :=
                      <[path_join (checkpoint_folder a) "labels.txt" := class_names t]>
                        (labels_files st);
                    rng := g |}.
Proof.
  intros Ht. unfold prepare_step. rewrite Ht. cbn.
  intros H. apply bind_Ok in H as ([t g] & Hnew & [= <-]).
  by exists t, g.
Qed.

Lemma prepare_loop_open_images paths :
  a_dataset_type d = "open_images" →
  ∀ st st',
    prepare_loop VOCDataset voc_class_names a d disk train_transform
      target_transform st paths = Ok st' →
  ∃ trains,
    datasets st' = datasets st ++ (inr <$> trains)
    ∧ root <$> trains = paths
    ∧ Forall (λ t, dataset_type t = "train"
                   ∧ balance_data t = a_balance_data d
                   ∧ ∃ data0 dict, _read_data disk (root t) "train"
                                   = Ok (data0, class_names t, dict)) trains
    ∧ match last trains with
      | None => st' = st
      | Some t =>
          dataset_path st' = Some (root t)
          ∧ label_file st' = Some (path_join (checkpoint_folder a) "labels.txt")
          ∧ num_classes st' = Some (length (class_names t))
          ∧ labels_files st'
            = <[path_join (checkpoint_folder a) "labels.txt" := class_names t]>
                (labels_files st)
      end.
Proof.
  intros Ht. induction paths as [|path paths IH]; intros st st' H.
  - injection H as <-. exists []. by rewrite app_nil_r.
  - cbn in H. apply bind_Ok in H as (st1 & Hstep & Hloop).
    apply prepare_step_open_images in Hstep as (t & g & Hnew & ->); [|done].
    apply IH in Hloop as (trains & Hds & Hroots & Hall & Hlast).
    apply new_dataset_fields in Hnew as (Hroot & Htype & Hbal & data0 & Hread & _).
    exists (t :: trains). cbn in Hds. rewrite <- app_assoc in Hds.
    split; [done|]. split; [by rewrite fmap_cons, Hroot, Hroots|].
    split; [constructor; [|done]; repeat split; try done; rewrite Hroot; eauto|].
    rewrite last_cons. destruct (last trains) as [t'|].
    + destruct Hlast as (? & ? & ? & ->). cbn.
      by rewrite insert_insert_eq.
    + subst st'. by rewrite Hroot.
Qed.

(** With [--dataset-type open_images], a preparation that succeeds has read
    one training dataset per directory, in the order given, each of type
    train and balanced as [--balance-data] says; the number of classes handed
    to the network and the one labels file come from the last directory's
    training annotations alone; and the validation dataset is the test
    split of the last directory, never balanced, which leaves the generator
    as the training datasets left it. *)
Theorem prepare_datasets_open_images g st val g' :
  a_dataset_type d = "open_images" →
  prepare_datasets VOCDataset voc_class_names a d disk g
    train_transform test_transform target_transform = Ok (st, val, g') →
  ∃ trains t v,
    datasets st = inr <$> trains
    ∧ root <$> trains = a_datasets d
    ∧ Forall (λ t, dataset_type t = "train"
                   ∧ balance_data t = a_balance_data d) trains
    ∧ last trains = Some t
    ∧ last (a_datasets d) = Some (root t)
    ∧ (∃ data0 dict, _read_data disk (root t) "train"
                     = Ok (data0, class_names t, dict))
    ∧ num_classes st = Some (length (class_names t))
    ∧ labels_files st
      = {[ path_join (checkpoint_folder a) "labels.txt" := class_names t ]}
    ∧ val = inr v
    ∧ root v = root t ∧ dataset_type v = "test"
    ∧ balance_data v = false ∧ min_image_num v = (-1)%Z
    ∧ _read_data disk (root t) "test" = Ok (data v, class_names v, class_dict v)
    ∧ g' = rng st.
Proof.
  intros Ht H. unfold prepare_datasets in H. rewrite Ht in H. cbn in H.
  apply bind_Ok in H as (st1 & Hloop & H).
  apply (prepare_loop_open_images _ Ht) in Hloop
    as (trains & Hds & Hroots & Hall & Hlast).
  destruct (last trains) as [t|] eqn:Et;
    [|subst st1; apply bind_Ok in H as (? & [=] & _)].
  destruct Hlast as (Hpath & Hfile & Hnum & Hlabels).
  rewrite Hfile, Hpath in H. cbn in H.
  apply bind_Ok in H as ([val0 gv] & Hval & [= <- <- <-]).
  change (bool_decide ("open_images" = "voc")) with false in Hval.
  change (bool_decide ("open_images" = "open_images")) with true in Hval.
  cbn in Hval. apply bind_Ok in Hval as ([v gv'] & Hnew & [= <- <-]).
  apply new_dataset_fields in Hnew
    as (Hroot & Htype & Hbal & data0 & Hread & Hplain).
  destruct (Hplain eq_refl) as (Hdata & Hmin & ->).
  exists trains, t, v. repeat split; try done.
  - eapply Forall_impl; [exact Hall|]. by intros ? (? & ? & _).
  - by rewrite <- Hroots, fmap_last, Et.
  - apply last_Some_elem_of in Et.
    rewrite Forall_forall in Hall. by destruct (Hall _ Et) as (_ & _ & ?).
  - by rewrite Hdata.
Qed.

End PreparationFacts.

Lemma prepare_datasets_open_images_witness :
  ∃ st val g',
    prepare_datasets Scenario.no_voc (λ _, []) (parse_args Toy.no_options)
      (parse_data_args {| cl_dataset_type := None;
                          cl_datasets := Some ("a", ["b"]);
                          cl_balance_data := false |})
      Scenario.disk_two Scenario.zeros Scenario.keep Scenario.keep
      Scenario.keep_target = Ok (st, val, g')
    ∧ length (datasets st) = 2
    ∧ num_classes st = Some 1
    ∧ labels_files st = {[ "models/labels.txt" := ["Z"] ]}.
Proof.
  assert (returns (prepare_datasets Scenario.no_voc (λ _, [])
            (parse_args Toy.no_options)
            (parse_data_args {| cl_dataset_type := None;
                                cl_datasets := Some ("a", ["b"]);
                                cl_balance_data := false |})
            Scenario.disk_two Scenario.zeros Scenario.keep Scenario.keep
            Scenario.keep_target)) as [[[st val] g'] H]
    by (apply is_ok_returns; vm_compute; reflexivity).
  exists st, val, g'. split; [exact H|].
  apply prepare_datasets_open_images in H; [|reflexivity].
  destruct H as (trains & t & v & Hds & Hroots & _ & _ & Hlast & (d0 & dict & Hread)
        & Hnum & Hlabels & _).
  cbn in Hlast. injection Hlast as Hroot. rewrite <- Hroot in Hread.
  remember (class_names t) as names eqn:Hnames.
  vm_compute in Hread. injection Hread as _ <- _.
  by rewrite Hds, length_fmap, <- (length_fmap root), Hroots, Hnum, Hlabels.
Defined.
